(** * ZeroToken (ai_build): the diff engine and the step-approval state machine

  A shallow embedding of the Python sources
    - [ai_build/local_patcher.py]  ([_extract_diff], [_sanitize_diff]),
    - [ai_build/git_ops.py]        ([apply_patch], [_apply_patch_python]),
    - [ai_build/storage.py]        ([update_step_status]),
    - [ai_build/reviewer.py]       ([_parse_review]),
    - [ai_build/server.py]         (the route handlers working on [_state]),
    - [ai_build/executor.py]       ([_strip_code_fences], [_looks_like_diff]),
    - [ai_build/refiner.py]        ([refine_patch], from the answer on),
    - [ai_build.py]                ([cmd_reset]),
  followed by the properties of the specification, each proved or refuted
  on these definitions, and by further properties of the same code.

  Conventions.  A Python [str] is a [string]; a character is the code
  point it stands for, so the embedding covers texts whose code points are
  below 256.  On that range the tables Python consults (line boundaries of
  [str.splitlines], white space of [str.strip] and of [\s], decimal digits
  of [\d]) are written out in full below.  Message literals are carried
  with the bytes they have in the source file.  Python integers are [Z]
  or [nat] (they do not overflow); [int()] takes at most 4300 digits and a
  list index is a machine word of 64 bits, as the interpreter has them.
  Exceptions are explicit results, those that a function catches and
  those that it lets through.  The working tree holds the text of the
  regular files; what the operating system refuses beyond that (a folder
  where a file is opened, a path that may not be written) is a parameter
  of the applier. *)

From Stdlib Require Import Ascii String List ZArith Lia Bool Arith DecimalString
  DecimalZ DecimalPos.
From stdpp Require Import gmap strings list fin_maps.
From Equations Require Import Equations.
Import ListNotations.

(* ===================================================================== *)
(** * Python string primitives *)
(* ===================================================================== *)

Module PyStr.

Definition LF  : ascii := "010"%char.
Definition CR  : ascii := "013"%char.
Definition nl  : string := String LF EmptyString.

Definition ascii_in (c : ascii) (cs : list ascii) : bool :=
  existsb (Ascii.eqb c) cs.

(** The line boundaries of [str.splitlines] below U+0100:
    LF, VT, FF, CR, FS, GS, RS and NEL (and the pair CR LF). *)
Definition is_linebreak (c : ascii) : bool :=
  ascii_in c ["010"; "011"; "012"; "013"; "028"; "029"; "030"; "133"]%char.

(** [str.isspace] (the set [str.strip()] removes, and the class [\s]) below
    U+0100: TAB, LF, VT, FF, CR, FS, GS, RS, US, SPACE, NEL, NBSP. *)
Definition isspace (c : ascii) : bool :=
  ascii_in c ["009"; "010"; "011"; "012"; "013"; "028"; "029"; "030"; "031";
              " "; "133"; "160"]%char.

(** [\d] below U+0100: the ten ASCII digits. *)
Definition isdigit (c : ascii) : bool :=
  ascii_in c ["0"; "1"; "2"; "3"; "4"; "5"; "6"; "7"; "8"; "9"]%char.

(** [s.startswith(p)] *)
Fixpoint startswith (s p : string) : bool :=
  match p, s with
  | EmptyString, _ => true
  | String _ _, EmptyString => false
  | String a p', String b s' => Ascii.eqb a b && startswith s' p'
  end.

(** [s[len(p):]] when [s.startswith(p)] *)
Fixpoint strip_prefix (p s : string) : option string :=
  match p, s with
  | EmptyString, _ => Some s
  | String _ _, EmptyString => None
  | String a p', String b s' =>
      if Ascii.eqb a b then strip_prefix p' s' else None
  end.

(** [s.endswith(p)]: some suffix of [s] is [p] *)
Fixpoint endswith (s p : string) : bool :=
  String.eqb s p
  || match s with
     | EmptyString => false
     | String _ s' => endswith s' p
     end.

(** [c in s] for a one-character [c] *)
Fixpoint contains_char (c : ascii) (s : string) : bool :=
  match s with
  | EmptyString => false
  | String a s' => Ascii.eqb a c || contains_char c s'
  end.

(** longest prefix of characters satisfying [f], and the rest *)
Fixpoint span_chars (f : ascii -> bool) (s : string) : string * string :=
  match s with
  | EmptyString => (EmptyString, EmptyString)
  | String a s' =>
      if f a then let '(x, y) := span_chars f s' in (String a x, y)
      else (EmptyString, s)
  end.

(** [s.lstrip(chars)], the set of characters given by its membership test *)
Fixpoint lstrip_chars (f : ascii -> bool) (s : string) : string :=
  match s with
  | EmptyString => EmptyString
  | String a s' => if f a then lstrip_chars f s' else s
  end.

(** [s.rstrip(chars)] *)
Definition rstrip_chars (f : ascii -> bool) (s : string) : string :=
  String.rev (lstrip_chars f (String.rev s)).

Definition lstrip (s : string) : string := lstrip_chars isspace s.
Definition rstrip (s : string) : string := rstrip_chars isspace s.
Definition strip  (s : string) : string := rstrip (lstrip s).

(** [line.rstrip("\n\r")] *)
Definition rstrip_eol (s : string) : string :=
  rstrip_chars (fun c => ascii_in c [LF; CR]) s.

(** [s.splitlines()] *)
Fixpoint splitlines (s : string) : list string :=
  match s with
  | EmptyString => []
  | String c rest =>
      if is_linebreak c then
        match Ascii.eqb c CR, rest with
        | true, String "010" rest' => EmptyString :: splitlines rest'
        | _, _ => EmptyString :: splitlines rest
        end
      else
        match splitlines rest with
        | [] => [String c EmptyString]
        | l :: ls => String c l :: ls
        end
  end.

(** [s.splitlines(keepends=True)] *)
Fixpoint splitlines_keep (s : string) : list string :=
  match s with
  | EmptyString => []
  | String c rest =>
      if is_linebreak c then
        match Ascii.eqb c CR, rest with
        | true, String "010" rest' =>
            String CR (String LF EmptyString) :: splitlines_keep rest'
        | _, _ => String c EmptyString :: splitlines_keep rest
        end
      else
        match splitlines_keep rest with
        | [] => [String c EmptyString]
        | l :: ls => String c l :: ls
        end
  end.

(** [sep.join(parts)] *)
Fixpoint join (sep : string) (parts : list string) : string :=
  match parts with
  | [] => EmptyString
  | [x] => x
  | x :: rest => x +:+ sep +:+ join sep rest
  end.

(** ["".join(parts)] *)
Fixpoint concat (parts : list string) : string :=
  match parts with
  | [] => EmptyString
  | x :: rest => x +:+ concat rest
  end.

(** [s.replace("\r\n", "\n")] *)
Fixpoint replace_crlf (s : string) : string :=
  match s with
  | EmptyString => EmptyString
  | String c rest =>
      match Ascii.eqb c CR, rest with
      | true, String "010" rest' => String LF (replace_crlf rest')
      | _, _ => String c (replace_crlf rest)
      end
  end.

(** [s.replace("\r", "\n")] *)
Fixpoint replace_cr (s : string) : string :=
  match s with
  | EmptyString => EmptyString
  | String c rest =>
      String (if Ascii.eqb c CR then LF else c) (replace_cr rest)
  end.

(** [str(n)] / [f"{n}"] of a non-negative [int] *)
Definition str_of_nat (n : nat) : string :=
  NilZero.string_of_uint (Nat.to_uint n).

Definition digit_value (c : ascii) : Z := Z.of_nat (nat_of_ascii c) - 48.

(** the number that a string of ASCII digits writes *)
Definition int_of_digits (s : string) : Z :=
  fold_left (fun acc c => (10 * acc + digit_value c)%Z)
            (list_ascii_of_string s) 0%Z.

(** [sys.get_int_max_str_digits()], as the interpreter sets it *)
Definition int_max_str_digits : nat := 4300.

(** [int(s)] of a non-empty string of ASCII digits; [None] stands for the
    [ValueError] that a string of more than 4300 digits gets *)
Definition py_int (s : string) : option Z :=
  if int_max_str_digits <? String.length s then None
  else Some (int_of_digits s).

(** the text up to (not including) the first LF: what [.*] matches *)
Definition upto_lf (s : string) : string :=
  fst (span_chars (fun c => negb (Ascii.eqb c LF)) s).

End PyStr.

(* ===================================================================== *)
(** * local_patcher.py: the diff extractor and the hunk-count sanitizer *)
(* ===================================================================== *)

Module LocalPatcher.
Import PyStr.

(** ** [_extract_diff] *)

Definition is_backtick (c : ascii) : bool := Ascii.eqb c "`"%char.

(** The [re.match] of Step 1: at the start of [stripped], optionally three
    or more back-ticks and then any white space, then ["- a/"].  The
    optional group can only start on a back-tick and ["- a/"] cannot, so the two alternatives
    exclude each other and the greedy run of back-ticks and of white space
    is the only way to match. *)
Definition repair_match (stripped : string) : bool :=
  startswith stripped "- a/"
  || (let '(ticks, r) := span_chars is_backtick stripped in
      (3 <=? String.length ticks) && startswith (lstrip r) "- a/").

(** [re.match(r"^\+\+\+ (?:b/|/dev/null)", next_stripped)] *)
Definition repair_next_match (next_stripped : string) : bool :=
  startswith next_stripped "+++ b/" || startswith next_stripped "+++ /dev/null".

(** one dash and the white space after it become ["--- "] *)
Definition sub_dash (r : string) : option string :=
  match r with
  | String "-" r' =>
      let '(ws, r'') := span_chars isspace r' in
      match ws with
      | EmptyString => None
      | _ => Some ("--- " +:+ r'')
      end
  | _ => None
  end.

(** The [re.sub] of Step 1: the optional fence noise, one dash and the white
    space after it (at least one character) are replaced by ["--- "].  The
    pattern is anchored at the start of the string, hence at most one
    replacement. *)
Definition re_sub_repair (stripped : string) : string :=
  let '(ticks, r) := span_chars is_backtick stripped in
  match (if 3 <=? String.length ticks then sub_dash (lstrip r) else None) with
  | Some x => x
  | None => match sub_dash stripped with
            | Some x => x
            | None => stripped
            end
  end.

(** Step 1: the loop over [raw_lines] building [fixed_lines]. *)
Fixpoint repair_lines (raw_lines : list string) : list string :=
  match raw_lines with
  | [] => []
  | line :: rest =>
      let stripped := rstrip_eol line in
      let line' :=
        if repair_match stripped then
          let next_stripped :=
            match rest with
            | next :: _ => rstrip_eol next
            | [] => EmptyString
            end in
          if repair_next_match next_stripped
          then re_sub_repair stripped +:+ nl
          else line
        else line in
      line' :: repair_lines rest
  end.

Definition is_fence_open (l : string) : bool := startswith (strip l) "```".
Definition is_fence_close (l : string) : bool := String.eqb (strip l) "```".

(** Python's [l[a:b]] for [0 <= a], [0 <= b] *)
Definition slice {A} (l : list A) (a b : nat) : list A :=
  firstn (b - a) (skipn a l).

(** Step 2: strip the outer markdown fence. *)
Definition strip_outer_fence (text : string) : string :=
  if startswith (lstrip text) "```" then
    let inner_lines := splitlines text in
    let n := length inner_lines in
    let start :=
      match find (fun j => is_fence_open (nth j inner_lines EmptyString))
                 (seq 0 n) with
      | Some j => j
      | None => 0
      end in
    let end_ :=
      match find (fun j => is_fence_close (nth j inner_lines EmptyString))
                 (rev (seq (start + 1) (n - (start + 1)))) with
      | Some j => j
      | None => n
      end in
    join nl (slice inner_lines (start + 1) end_)
  else text.

Definition is_minus_header (stripped : string) : bool :=
  startswith stripped "--- a/" || startswith stripped "--- /dev/null"
  || (startswith stripped "--- " && contains_char "/" stripped).

Definition is_plus_header (next_line : string) : bool :=
  startswith next_line "+++ b/" || startswith next_line "+++ /dev/null"
  || (startswith next_line "+++ " && contains_char "/" next_line).

(** the test of Step 3 at the head of a list of lines *)
Definition header_pair_at (lines : list string) : bool :=
  match lines with
  | line :: next :: _ =>
      is_minus_header (rstrip_eol line) && is_plus_header (rstrip_eol next)
  | _ => false
  end.

(** Step 3: the first adjacent header pair; everything from there on. *)
Fixpoint find_header (lines : list string) : option string :=
  match lines with
  | [] => None
  | _ :: rest =>
      if header_pair_at lines then Some (concat lines) else find_header rest
  end.

Definition _extract_diff (text : string) : option string :=
  let text := concat (repair_lines (splitlines_keep text)) in
  let text := strip_outer_fence text in
  find_header (splitlines_keep text).

(** ** [_sanitize_diff] *)

Definition normalize_newlines (text : string) : string :=
  replace_cr (replace_crlf text).

(** [,\d+] taken when present (the group [(?:,\d+)?]) *)
Definition skip_opt_count (s : string) : string :=
  match s with
  | String "," s' =>
      match span_chars isdigit s' with
      | (EmptyString, _) => s
      | (_, r) => r
      end
  | _ => s
  end.

(** The [re.match] of the hunk header: ["@@ -"], digits (group 1), an
    optional comma and digits, [" +"], digits (group 2), an optional comma
    and digits, [" @@"], the rest of the line (group 3).  Every greedy run is followed by a character outside
    its class, so the first attempt of the matcher is the only possible
    match. *)
Definition parse_hunk_header (line : string)
  : option (string * string * string) :=
  match strip_prefix "@@ -" line with
  | None => None
  | Some r1 =>
      match span_chars isdigit r1 with
      | (EmptyString, _) => None
      | (orig_start, r2) =>
          match strip_prefix " +" (skip_opt_count r2) with
          | None => None
          | Some r4 =>
              match span_chars isdigit r4 with
              | (EmptyString, _) => None
              | (new_start, r5) =>
                  match strip_prefix " @@" (skip_opt_count r5) with
                  | None => None
                  | Some r7 => Some (orig_start, new_start, upto_lf r7)
                  end
              end
          end
      end
  end.

(** the guard of the inner [while]: the line still belongs to the hunk *)
Definition in_hunk_body (l : string) : bool :=
  negb (startswith l "@@") && negb (startswith l "--- ")
  && negb (startswith l "diff ").

Fixpoint take_body (lines : list string) : list string :=
  match lines with
  | l :: rest => if in_hunk_body l then l :: take_body rest else []
  | [] => []
  end.

Fixpoint drop_body (lines : list string) : list string :=
  match lines with
  | l :: rest => if in_hunk_body l then drop_body rest else lines
  | [] => []
  end.

Definition counts_orig (l : string) : bool :=
  startswith l " " || startswith l "-".
Definition counts_new (l : string) : bool :=
  startswith l " " || startswith l "+".

Definition orig_count (hunk_body : list string) : nat :=
  length (List.filter counts_orig hunk_body).
Definition new_count (hunk_body : list string) : nat :=
  length (List.filter counts_new hunk_body).

(** the f-string that rebuilds the header *)
Definition format_header (orig_start : string) (oc : nat)
                         (new_start : string) (nc : nat) (tail : string) :=
  "@@ -" +:+ orig_start +:+ "," +:+ str_of_nat oc +:+
  " +" +:+ new_start +:+ "," +:+ str_of_nat nc +:+ " @@" +:+ tail.

Definition rewrite_header (line : string) (hunk_body : list string) : string :=
  match parse_hunk_header line with
  | Some (orig_start, new_start, tail) =>
      format_header orig_start (orig_count hunk_body)
                    new_start (new_count hunk_body) tail
  | None => line
  end.

(** the outer [while i < len(lines)] loop; [lines] is [lines[i:]] *)
Equations? sanitize_lines (lines : list string) : list string
  by wf (length lines) lt :=
  sanitize_lines [] := [];
  sanitize_lines (line :: rest) with startswith line "@@" := {
    | false := line :: sanitize_lines rest
    | true :=
        rewrite_header line (take_body rest)
          :: take_body rest ++ sanitize_lines (drop_body rest) }.
Proof.
  assert (H : forall l, length (drop_body l) <= length l).
  { induction l as [|x l IH]; simpl; [lia|].
    destruct (in_hunk_body x); simpl; lia. }
  specialize (H rest). simpl. lia.
Qed.

Definition _sanitize_diff (text : string) : string :=
  let text := normalize_newlines text in
  let lines := splitlines text in
  let out := sanitize_lines lines in
  let result := join nl out in
  if endswith result nl then result else result +:+ nl.

End LocalPatcher.

(* ===================================================================== *)
(** * git_ops.py: the patch applier *)
(* ===================================================================== *)

Module GitOps.
Import PyStr.

(** The working tree: the text of every regular file, by path.  A file is
    read in text mode, so CR LF and CR arrive as LF; it is written as it
    is (the line separator of the platform is LF). *)
Abbreviation fs := (gmap string string).

Definition read_text (content : string) : string :=
  LocalPatcher.normalize_newlines content.

(** the pieces between LF characters, each keeping its LF: what
    [readlines()] returns, and the lines that [^] and [$] of a multi-line
    regular expression see *)
Fixpoint split_lf_keep (s : string) : list string :=
  match s with
  | EmptyString => []
  | String c rest =>
      if Ascii.eqb c LF then nl :: split_lf_keep rest
      else match split_lf_keep rest with
           | [] => [String c EmptyString]
           | l :: ls => String c l :: ls
           end
  end.

Definition readlines (content : string) : list string :=
  split_lf_keep (read_text content).

(** ** Python indexing and slicing of a list, negative indices included *)

Definition clamp_index (len i : Z) : nat :=
  Z.to_nat (if (i <? 0)%Z then Z.max 0 (i + len) else Z.min i len).

(** [l[a:b]] *)
Definition py_slice {A} (l : list A) (a b : Z) : list A :=
  let n := Z.of_nat (length l) in
  firstn (clamp_index n b - clamp_index n a) (skipn (clamp_index n a) l).

(** [l[a:]] *)
Definition py_slice_from {A} (l : list A) (a : Z) : list A :=
  skipn (clamp_index (Z.of_nat (length l)) a) l.

(** [l[i]]; [None] stands for [IndexError] *)
Definition py_index {A} (l : list A) (i : Z) : option A :=
  let n := Z.of_nat (length l) in
  if (i <? 0)%Z then
    if (i + n <? 0)%Z then None else nth_error l (Z.to_nat (i + n))
  else nth_error l (Z.to_nat i).

(** ** Splitting the patch text *)

Fixpoint split_blocks_from (cur : string) (lines : list string) : list string :=
  match lines with
  | [] => [cur]
  | l :: rest =>
      if startswith l "diff --git " then cur :: split_blocks_from l rest
      else split_blocks_from (cur +:+ l) rest
  end.

(** The [re.split] on the look-ahead for ["diff --git "] at the start of a
    line, or for ["--- "] at the very start of the text. *)
Definition split_blocks (patch_text : string) : list string :=
  match split_lf_keep patch_text with
  | [] => [EmptyString]
  | l :: rest =>
      if startswith l "--- " then EmptyString :: split_blocks_from l rest
      else split_blocks_from EmptyString (l :: rest)
  end.

(** One line against the [re.search] for the target: ["+++ "], an optional
    ["b/"], then at least one character up to the end of the line. *)
Definition plus_line_path (line : string) : option string :=
  match strip_prefix "+++ " line with
  | None => None
  | Some r =>
      let r := upto_lf r in
      match strip_prefix "b/" r with
      | Some (String c p) => Some (String c p)
      | _ => match r with
             | EmptyString => None
             | _ => Some r
             end
      end
  end.

Fixpoint search_target (lines : list string) : option string :=
  match lines with
  | [] => None
  | l :: rest =>
      match plus_line_path l with
      | Some g => Some g
      | None => search_target rest
      end
  end.

(** A hunk as [re.finditer] delivers it: group 1 and group 5. *)
Record hunk := { h_start : string; h_body : string }.

(** the header part of the hunk pattern on one line: the header of
    [LocalPatcher.parse_hunk_header], the rest of the line and its LF *)
Definition hunk_header_start (line : string) : option string :=
  match LocalPatcher.parse_hunk_header line with
  | Some (g1, _, _) => if endswith line nl then Some g1 else None
  | None => None
  end.

(** the lazy group 5: the lines up to the next one that starts with "@@" *)
Fixpoint body_until_at (lines : list string) : list string :=
  match lines with
  | l :: rest => if startswith l "@@" then [] else l :: body_until_at rest
  | [] => []
  end.

(** [re.finditer] of the hunk pattern.  A match starts at the start of a
    line and its body stops before the next line that starts with "@@", so
    no line inside a body can start a match: every line is tried in turn. *)
Fixpoint find_hunks (lines : list string) : list hunk :=
  match lines with
  | [] => []
  | l :: rest =>
      match hunk_header_start l with
      | Some g1 =>
          {| h_start := g1; h_body := concat (body_until_at rest) |}
            :: find_hunks rest
      | None => find_hunks rest
      end
  end.

(** ** Applying the hunks of one file block *)

(** [sys.maxsize] (a 64-bit build): the largest index there is *)
Definition maxsize : Z := 9223372036854775807.

(** the text of the [IndexError] that [l[i]] raises *)
Definition index_error_text (i : Z) : string :=
  if ((- maxsize - 1 <=? i) && (i <=? maxsize))%Z
  then "list index out of range"
  else "cannot fit 'int' into an index-sized integer".

(** what [_apply_patch_python] does not catch: the [ValueError] of [int()]
    on more than 4300 digits, and the [OSError] of [open] and of
    [os.makedirs], with its text *)
Inductive exn :=
| ValueError
| OSError (text : string).

(** the outcome of the [try] block: its value, the [IndexError] that its
    [except] catches, or an exception that goes through *)
Inductive tried (A : Type) :=
| Passed (a : A)
| IndexError (text : string)
| Uncaught (e : exn).
Arguments Passed {A} a.
Arguments IndexError {A} text.
Arguments Uncaught {A} e.

(** the [for hl in hunk_lines] loop *)
Fixpoint apply_hunk_lines (lines : list string) (hunk_lines : list string)
         (new_lines : list string) (src_pos : Z)
  : tried (list string * Z) :=
  match hunk_lines with
  | [] => Passed (new_lines, src_pos)
  | hl :: rest =>
      if startswith hl "+" then
        apply_hunk_lines lines rest
          (new_lines ++ [String.substring 1 (String.length hl - 1) hl]) src_pos
      else if startswith hl "-" then
        apply_hunk_lines lines rest new_lines (src_pos + 1)%Z
      else
        match py_index lines src_pos with
        | None => IndexError (index_error_text src_pos)
        | Some orig =>
            apply_hunk_lines lines rest (new_lines ++ [orig]) (src_pos + 1)%Z
        end
  end.

(** the [for hunk in hunks] loop *)
Fixpoint apply_hunks (lines : list string) (hunks : list hunk)
         (new_lines : list string) (src_pos : Z)
  : tried (list string * Z) :=
  match hunks with
  | [] => Passed (new_lines, src_pos)
  | h :: rest =>
      match py_int (h_start h) with
      | None => Uncaught ValueError
      | Some n =>
          let src_start := (n - 1)%Z in
          let hunk_lines := splitlines_keep (h_body h) in
          let new_lines := new_lines ++ py_slice lines src_pos src_start in
          match apply_hunk_lines lines hunk_lines new_lines src_start with
          | Passed (new_lines, src_pos) =>
              apply_hunks lines rest new_lines src_pos
          | other => other
          end
      end
  end.

(** the body of the [try]: all hunks, then the remaining lines *)
Definition patched_lines (lines : list string) (hunks : list hunk)
  : tried (list string) :=
  match apply_hunks lines hunks [] 0%Z with
  | Passed (new_lines, src_pos) =>
      Passed (new_lines ++ py_slice_from lines src_pos)
  | IndexError text => IndexError text
  | Uncaught e => Uncaught e
  end.

(** how a call ends *)
Inductive ended (A : Type) :=
| Returns (a : A)
| Raises (e : exn).
Arguments Returns {A} a.
Arguments Raises {A} e.

Section Applier.
(** [os.path.normpath(os.path.join(root, rel_path))] *)
Variable target_of : string -> string.

(** What the operating system refuses, as the text of the [OSError]:
    [read_error] for [open(target)] of a path that exists (a folder, a file
    that may not be read), [write_error] for [os.makedirs] and
    [open(target, "w")] (a folder, a file where a folder is needed, a path
    that may not be written).  The tree itself holds the regular files
    only. *)
Variable read_error : fs -> string -> option string.
Variable write_error : fs -> string -> option string.

(** the state of the loop over the blocks: the tree, the two lists, and the
    exception that ended the loop, if one did *)
Record acc := {
  a_fs : fs;
  applied : list string;
  errors : list string;
  raised : option exn }.

Definition raise (e : exn) (st : acc) : acc :=
  {| a_fs := a_fs st; applied := applied st; errors := errors st;
     raised := Some e |}.

(** one turn of the [for block in file_blocks] loop *)
Definition apply_block (block : string) (st : acc) : acc :=
  let block := strip block in
  match block with
  | EmptyString => st
  | _ =>
      let block_lines := split_lf_keep block in
      match search_target block_lines with
      | None => st
      | Some g =>
          let rel_path := strip g in
          if String.eqb rel_path "/dev/null" then st
          else
            let target := target_of rel_path in
            match read_error (a_fs st) target with
            | Some text => raise (OSError text) st
            | None =>
                let lines :=
                  match a_fs st !! target with
                  | Some content => readlines content
                  | None => []
                  end in
                match find_hunks block_lines with
                | [] => st
                | hunks =>
                    match patched_lines lines hunks with
                    | IndexError text =>
                        {| a_fs := a_fs st; applied := applied st;
                           errors := errors st ++
                             [rel_path +:+ ": hunk mismatch — " +:+ text];
                           raised := raised st |}
                    | Uncaught e => raise e st
                    | Passed new_lines =>
                        match write_error (a_fs st) target with
                        | Some text => raise (OSError text) st
                        | None =>
                            {| a_fs := <[target := concat new_lines]> (a_fs st);
                               applied := applied st ++ [rel_path];
                               errors := errors st;
                               raised := raised st |}
                        end
                    end
                end
            end
      end
  end.

(** the loop over the blocks: it ends with the first exception that goes
    through *)
Fixpoint apply_blocks (blocks : list string) (st : acc) : acc :=
  match blocks with
  | [] => st
  | block :: rest =>
      let st := apply_block block st in
      match raised st with
      | Some _ => st
      | None => apply_blocks rest st
      end
  end.

(** the three [return]s that close [_apply_patch_python] *)
Definition patch_result (st : acc) : bool * string :=
  match errors st with
  | _ :: _ => (false, "Patch errors:" +:+ nl +:+ join nl (errors st))
  | [] =>
      match applied st with
      | [] => (false,
          "No files were changed — patch may be empty or already applied.")
      | _ :: _ => (true, "Patch applied to: " +:+ join ", " (applied st))
      end
  end.

(** the applier on the text of the patch: the state when the loop is over *)
Definition apply_patch_text (patch_text : string) (files : fs) : acc :=
  apply_blocks (split_blocks patch_text)
               {| a_fs := files; applied := []; errors := []; raised := None |}.

Definition end_of (st : acc) : ended (bool * string) :=
  match raised st with
  | Some e => Raises e
  | None => Returns (patch_result st)
  end.

(** [_apply_patch_python(patch_file, root)]: the working tree afterwards
    and how the call ends; [oserror] is the text of the [OSError] when
    the patch file cannot be read *)
Definition _apply_patch_python (oserror : string) (patch_file : string)
           (files : fs) : fs * ended (bool * string) :=
  match files !! patch_file with
  | None => (files, Returns (false, "Cannot read patch file: " +:+ oserror))
  | Some content =>
      let st := apply_patch_text (read_text content) files in
      (a_fs st, end_of st)
  end.

(** The strict tool: [git rev-parse], [git apply --check], [git apply]. *)
Record git_tool := {
  is_git_repo : bool;
  git_apply_check : string -> fs -> bool;
  git_apply : string -> fs -> bool * fs }.

(** [apply_patch(patch_file, root)] *)
Definition apply_patch (git : git_tool) (oserror : string)
           (patch_file : string) (files : fs) : fs * ended (bool * string) :=
  match files !! patch_file with
  | None => (files, Returns (false, "Patch file not found: " +:+ patch_file))
  | Some _ =>
      if is_git_repo git then
        if negb (git_apply_check git patch_file files) then
          _apply_patch_python oserror patch_file files
        else
          let '(ok, files') := git_apply git patch_file files in
          if ok then (files', Returns (true, "Patch applied successfully."))
          else _apply_patch_python oserror patch_file files'
      else _apply_patch_python oserror patch_file files
  end.
End Applier.

End GitOps.

(* ===================================================================== *)
(** * storage.py: the persisted plan *)
(* ===================================================================== *)

Module Storage.

(** One entry of [plan["steps"]]; [status] is absent until something sets
    it ([step.get("status", "pending")] reads it with a default). *)
Record step := {
  id : Z;
  title : string;
  description : string;
  suggested_files : list string;
  acceptance_criteria : list string;
  status : option string }.

Record plan := { goal : string; steps : list step }.

Definition set_status (s : step) (st : string) : step :=
  {| id := id s; title := title s; description := description s;
     suggested_files := suggested_files s;
     acceptance_criteria := acceptance_criteria s; status := Some st |}.

(** the [for step in plan["steps"]] loop with its [break] *)
Fixpoint set_first_status (step_id : Z) (st : string) (l : list step)
  : list step :=
  match l with
  | [] => []
  | s :: rest =>
      if (id s =? step_id)%Z then set_status s st :: rest
      else s :: set_first_status step_id st rest
  end.

(** [update_step_status(step_id, status)] on the content of [plan.json]
    ([None]: the file does not exist) *)
Definition update_step_status (step_id : Z) (st : string)
           (plan_file : option plan) : option plan :=
  match plan_file with
  | None => None
  | Some p =>
      Some {| goal := goal p; steps := set_first_status step_id st (steps p) |}
  end.

(** [step.get("status", "pending")] *)
Definition status_or_pending (s : step) : string :=
  match status s with
  | Some st => st
  | None => "pending"
  end.

End Storage.

(* ===================================================================== *)
(** * reviewer.py: parsing the reviewer's answer *)
(* ===================================================================== *)

Module Reviewer.
Import PyStr.

(** What [json.loads] returns; a number is carried by its [repr]. *)
#[warnings="-register-all"]
Inductive json :=
| JNull
| JBool (b : bool)
| JNum (repr : string)
| JStr (s : string)
| JArr (items : list json)
| JObj (members : list (string * json)).

(** The review dict. *)
Record review := {
  verdict : string;
  summary : string;
  issues : list string;
  notes : string;
  raw : string }.

Inductive exn := IndexError | AttributeError | ValueError | RecursionError.

Inductive result (A : Type) :=
| Ok (a : A)
| Raise (e : exn).
Arguments Ok {A} a.
Arguments Raise {A} e.

(** [str.lower] below U+0100 *)
Definition lower_char (c : ascii) : ascii :=
  let n := nat_of_ascii c in
  if ((65 <=? n) && (n <=? 90))
     || ((192 <=? n) && (n <=? 222) && negb (n =? 215))
  then ascii_of_nat (n + 32) else c.

Fixpoint lower (s : string) : string :=
  match s with
  | EmptyString => EmptyString
  | String c r => String (lower_char c) (lower r)
  end.

(** the class [\w] below U+0100 *)
Definition is_word (c : ascii) : bool :=
  let n := nat_of_ascii c in
  ((48 <=? n) && (n <=? 57)) || ((65 <=? n) && (n <=? 90)) || (n =? 95)
  || ((97 <=? n) && (n <=? 122))
  || ascii_in c ["170"; "178"; "179"; "181"; "185"; "186"; "188"; "189"; "190"]%char
  || ((192 <=? n) && (n <=? 255) && negb (n =? 215) && negb (n =? 247)).

(** [d.get(k)] *)
Fixpoint dict_get (k : string) (members : list (string * json)) : option json :=
  match members with
  | [] => None
  | (k', v) :: rest => if String.eqb k' k then Some v else dict_get k rest
  end.

(** the fenced answer: [lines[1:end]] of the stripped text *)
Definition strip_fences (text : string) : string :=
  if startswith text "```" then
    let lines := splitlines text in
    let n := length lines in
    let end_ :=
      if String.eqb (strip (List.last lines EmptyString)) "```"
      then n - 1 else n in
    strip (join nl (LocalPatcher.slice lines 1 end_))
  else text.

Fixpoint from_first (c : ascii) (s : string) : option string :=
  match s with
  | EmptyString => None
  | String a r => if Ascii.eqb a c then Some s else from_first c r
  end.

(** the [re.search] for an opening brace, anything, and a closing brace,
    greedy: from the first opening brace to the last closing brace *)
Definition search_braces (text : string) : option string :=
  match from_first "{" text with
  | None => None
  | Some s =>
      match from_first "}" (String.rev s) with
      | None => None
      | Some r => Some (String.rev r)
      end
  end.

(** [w] (lower case) at the start of [s], ignoring case; the rest *)
Fixpoint ci_strip_prefix (w s : string) : option string :=
  match w, s with
  | EmptyString, _ => Some s
  | String _ _, EmptyString => None
  | String a w', String b s' =>
      if Ascii.eqb a (lower_char b) then ci_strip_prefix w' s' else None
  end.

Definition at_word_end (s : string) : bool :=
  match s with
  | EmptyString => true
  | String c _ => negb (is_word c)
  end.

(** [re.search] of the word [w] between two [\b], ignoring case;
    [prev_word] tells whether the character before [s] is a word character *)
Fixpoint search_word (w : string) (prev_word : bool) (s : string) : bool :=
  match s with
  | EmptyString => false
  | String c r =>
      (negb prev_word
       && match ci_strip_prefix w s with
          | Some rest => at_word_end rest
          | None => false
          end)
      || search_word w (is_word c) r
  end.

Definition is_colon_or_space (c : ascii) : bool :=
  Ascii.eqb c ":" || isspace c.

(** after the key word: the run of colons and white space (at least one),
    then group 1, at least one character and no LF.  The run is greedy; when
    nothing follows it, it gives characters back until one can open the
    group. *)
Fixpoint group_after_run (k : nat) (run : string) : option string :=
  match k with
  | 0 => None
  | S k' =>
      match String.substring k (String.length run - k) run with
      | EmptyString => group_after_run k' run
      | String c r =>
          if Ascii.eqb c LF then group_after_run k' run
          else Some (upto_lf (String c r))
      end
  end.

Definition summary_group (after_key : string) : option string :=
  let '(run, rest) := span_chars is_colon_or_space after_key in
  match run with
  | EmptyString => None
  | _ =>
      match rest with
      | String _ _ => Some (upto_lf rest)
      | EmptyString => group_after_run (String.length run - 1) run
      end
  end.

(** [re.search] of the key word ["summary"], ignoring case, and its group *)
Fixpoint search_summary (s : string) : option string :=
  match s with
  | EmptyString => None
  | String _ r =>
      match ci_strip_prefix "summary" s with
      | Some after_key =>
          match summary_group after_key with
          | Some g => Some g
          | None => search_summary r
          end
      | None => search_summary r
      end
  end.

Definition is_bullet_char (c : ascii) : bool := ascii_in c ["-"; " "; "*"]%char.

(** the issue lines of the text fallback (the bullet U+2022 is not below
    U+0100, which leaves the dash and the star) *)
Definition fallback_issues (raw : string) : list string :=
  map (fun line => strip (lstrip_chars is_bullet_char line))
      (List.filter (fun line =>
                 (startswith (strip line) "-" || startswith (strip line) "*")
                 && (3 <? String.length (strip line)))
              (splitlines raw)).

Definition normal_verdict (v : string) : string :=
  if String.eqb v "approve" || String.eqb v "concerns" || String.eqb v "reject"
  then v else "concerns".

(** What [json.loads] does with a text: it returns a value, or raises
    [json.JSONDecodeError], or raises something else: [ValueError] on an
    integer of more than 4300 digits, [RecursionError] on a value nested too
    deep. *)
Inductive loaded :=
| Loaded (v : json)
| JSONDecodeError
| LoadsValueError
| LoadsRecursionError.

Section Parse.
(** [json.loads] *)
Variable json_loads : string -> loaded.
(** [str(v)] of a value that is not a string. *)
Variable py_str : json -> string.

Definition str_of (v : json) : string :=
  match v with
  | JStr s => s
  | _ => py_str v
  end.

Definition get_str (k default : string) (members : list (string * json)) :=
  match dict_get k members with
  | Some v => str_of v
  | None => default
  end.

(** what [for i in issues] runs over; [None] stands for [TypeError] *)
Definition iter_issues (members : list (string * json)) : option (list json) :=
  match dict_get "issues" members with
  | None => Some []
  | Some (JStr s) => Some [JStr s]
  | Some (JArr items) => Some items
  | Some (JObj kv) => Some (map (fun p => JStr (fst p)) kv)
  | Some _ => None
  end.

(** the [try] block; [Ok None] when an exception is caught by its [except],
    which names [json.JSONDecodeError] and [TypeError] and nothing else *)
Definition parse_json_review (raw group : string) : result (option review) :=
  match json_loads group with
  | JSONDecodeError => Ok None
  | LoadsValueError => Raise ValueError
  | LoadsRecursionError => Raise RecursionError
  | Loaded (JObj data) =>
      let v := normal_verdict (strip (lower (get_str "verdict" "concerns" data))) in
      match iter_issues data with
      | None => Ok None
      | Some items =>
          Ok (Some {|
            verdict := v;
            summary := strip (get_str "summary" "" data);
            issues := List.filter (fun s => negb (String.eqb s ""))
                             (map (fun i => strip (str_of i)) items);
            notes := strip (get_str "notes" "" data);
            raw := raw |})
      end
  | Loaded _ => Raise AttributeError
  end.

(** the heuristic text fallback *)
Definition parse_text_review (raw : string) : result review :=
  let v := "concerns" in
  let v := if search_word "approve" false raw then "approve" else v in
  let v := if search_word "reject" false raw then "reject" else v in
  let summary :=
    match search_summary raw with
    | Some g => Ok (strip g)
    | None =>
        match splitlines raw with
        | [] => Raise IndexError
        | l :: _ => Ok (String.substring 0 120 l)
        end
    end in
  match summary with
  | Raise e => Raise e
  | Ok s =>
      Ok {| verdict := v; summary := s; issues := fallback_issues raw;
            notes := ""; raw := raw |}
  end.

Definition _parse_review (raw : string) : result review :=
  let text := strip_fences (strip raw) in
  match search_braces text with
  | Some group =>
      match parse_json_review raw group with
      | Raise e => Raise e
      | Ok (Some r) => Ok r
      | Ok None => parse_text_review raw
      end
  | None => parse_text_review raw
  end.
End Parse.

End Reviewer.

(* ===================================================================== *)
(** * server.py: the session state and the route handlers *)
(* ===================================================================== *)

Module Server.
Import PyStr Storage.

(** [_state["reviews"]]: step id to [str | dict] *)
Inductive review_value :=
| Freeform (text : string)
| Structured (r : Reviewer.review).

(** The module-level [_state] dict. *)
Record state := {
  st_goal : string;
  plan_prompt : string;
  patch_prompts : gmap Z string;
  ollama_prompts : gmap Z string;
  diffs : gmap Z string;
  refined_diffs : gmap Z string;
  reviews : gmap Z review_value;
  final_prompt : string;
  active_step_id : option Z;
  error : string;
  info : string;
  project_root : string;
  git_exists : bool;
  bg_running : bool;
  bg_label : string;
  planner_model : string;
  patcher_model : string;
  reviewer_model : string;
  refiner_model : string }.

(** What a handler can see and change: [_state], the content of
    [.ai-build/plan.json], and the files of the project folder (the saved
    patches among them). *)
Record world := {
  w_state : state;
  plan_file : option plan;
  tree : GitOps.fs }.

(** The closure handed to [threading.Thread]. *)
Inductive job :=
| JobPlan (goal : string)
| JobPatch (s : step)
| JobRefine (sid : Z) (diff : string) (s : step) (review : option review_value)
| JobRunAll (p : plan) (pending : list step).

Definition str_of_Z (z : Z) : string := NilZero.string_of_int (Z.to_int z).

Definition set_flash (msg err : string) (s : state) : state :=
  {| st_goal := st_goal s; plan_prompt := plan_prompt s;
     patch_prompts := patch_prompts s; ollama_prompts := ollama_prompts s;
     diffs := diffs s; refined_diffs := refined_diffs s; reviews := reviews s;
     final_prompt := final_prompt s; active_step_id := active_step_id s;
     error := err; info := msg;
     project_root := project_root s; git_exists := git_exists s;
     bg_running := bg_running s; bg_label := bg_label s;
     planner_model := planner_model s; patcher_model := patcher_model s;
     reviewer_model := reviewer_model s; refiner_model := refiner_model s |}.

(** [_flash(msg, error)] *)
Definition _flash (msg err : string) (w : world) : world :=
  {| w_state := set_flash msg err (w_state w);
     plan_file := plan_file w; tree := tree w |}.

(** [_state["bg_running"]] and [_state["bg_label"]], and the goal *)
Definition set_bg (running : bool) (label goal : string) (s : state) : state :=
  {| st_goal := goal; plan_prompt := plan_prompt s;
     patch_prompts := patch_prompts s; ollama_prompts := ollama_prompts s;
     diffs := diffs s; refined_diffs := refined_diffs s; reviews := reviews s;
     final_prompt := final_prompt s; active_step_id := active_step_id s;
     error := error s; info := info s;
     project_root := project_root s; git_exists := git_exists s;
     bg_running := running; bg_label := label;
     planner_model := planner_model s; patcher_model := patcher_model s;
     reviewer_model := reviewer_model s; refiner_model := refiner_model s |}.

(** [load_plan() if _state.get("project_root") else None] *)
Definition load_plan_if_root (w : world) : option plan :=
  if String.eqb (project_root (w_state w)) "" then None else plan_file w.

(** [_active_step()] *)
Definition _active_step (w : world) : option step :=
  match load_plan_if_root w with
  | None => None
  | Some p =>
      match active_step_id (w_state w) with
      | None => None
      | Some sid => find (fun s => (id s =? sid)%Z) (steps p)
      end
  end.

Definition is_pending (s : step) : bool :=
  String.eqb (status_or_pending s) "pending".

(** [next((s for s in plan["steps"] if ... == "pending"), None)], then
    [next_step["id"] if next_step else None] *)
Definition next_pending_id (plan_file : option plan) : option Z :=
  match plan_file with
  | Some p => option_map id (find is_pending (steps p))
  | None => None
  end.

(** [d.get(sid, "")] *)
Definition get_or_empty (d : gmap Z string) (sid : Z) : string :=
  match d !! sid with
  | Some x => x
  | None => EmptyString
  end.

(** [_state["refined_diffs"].get(sid) or _state["diffs"].get(sid, "")] *)
Definition best_diff (s : state) (sid : Z) : string :=
  match refined_diffs s !! sid with
  | Some (String c r) => String c r
  | _ => get_or_empty (diffs s) sid
  end.

(** the writes to [_state] that close the approve, skip and reset handlers *)
Definition settle_step (sid : Z) (active : option Z) (fp msg : string)
           (s : state) : state :=
  {| st_goal := st_goal s; plan_prompt := plan_prompt s;
     patch_prompts := patch_prompts s; ollama_prompts := ollama_prompts s;
     diffs := delete sid (diffs s); refined_diffs := refined_diffs s;
     reviews := delete sid (reviews s);
     final_prompt := fp; active_step_id := active;
     error := EmptyString; info := msg;
     project_root := project_root s; git_exists := git_exists s;
     bg_running := bg_running s; bg_label := bg_label s;
     planner_model := planner_model s; patcher_model := patcher_model s;
     reviewer_model := reviewer_model s; refiner_model := refiner_model s |}.

(** [POST /apply-patch] *)
Definition apply_patch_route (w : world) : world :=
  match _active_step w with
  | None => _flash "" "No active step selected." w
  | Some step =>
      let sid := id step in
      match best_diff (w_state w) sid with
      | EmptyString => _flash "" "No diff found ‚Äî generate a patch first." w
      | _ =>
          let plan' := update_step_status sid "approved" (plan_file w) in
          {| w_state :=
               settle_step sid (next_pending_id plan') ""
                 ("‚úì Step " +:+ str_of_Z sid +:+ " approved.") (w_state w);
             plan_file := plan';
             tree := tree w |}
      end
  end.

(** [POST /skip-step] *)
Definition skip_step (w : world) : world :=
  match _active_step w with
  | None => _flash "" "No active step." w
  | Some step =>
      let sid := id step in
      let plan' := update_step_status sid "skipped" (plan_file w) in
      {| w_state :=
           settle_step sid (next_pending_id plan') (final_prompt (w_state w))
             ("Step " +:+ str_of_Z sid +:+ " skipped.") (w_state w);
         plan_file := plan';
         tree := tree w |}
  end.

(** [POST /reset-step/<step_id>] *)
Definition reset_step (step_id : Z) (w : world) : world :=
  {| w_state :=
       settle_step step_id (Some step_id) (final_prompt (w_state w))
         ("Step " +:+ str_of_Z step_id +:+ " reset to pending.") (w_state w);
     plan_file := update_step_status step_id "pending" (plan_file w);
     tree := tree w |}.

(** [POST /select-step/<step_id>] *)
Definition select_step (step_id : Z) (w : world) : world :=
  {| w_state :=
       let s := w_state w in
       {| st_goal := st_goal s; plan_prompt := plan_prompt s;
          patch_prompts := patch_prompts s; ollama_prompts := ollama_prompts s;
          diffs := diffs s; refined_diffs := refined_diffs s;
          reviews := reviews s; final_prompt := final_prompt s;
          active_step_id := Some step_id;
          error := error s; info := info s;
          project_root := project_root s; git_exists := git_exists s;
          bg_running := bg_running s; bg_label := bg_label s;
          planner_model := planner_model s; patcher_model := patcher_model s;
          reviewer_model := reviewer_model s;
          refiner_model := refiner_model s |};
     plan_file := plan_file w; tree := tree w |}.

Definition start_job (label goal : string) (j : job) (w : world)
  : world * option job :=
  ({| w_state := set_bg true label goal (w_state w);
      plan_file := plan_file w; tree := tree w |}, Some j).

Definition busy : string := "Ollama is already running ‚Äî please wait.".

(** [POST /plan-local]; [form_goal] is [request.form.get("goal", "")] *)
Definition plan_local (form_goal : string) (w : world) : world * option job :=
  let goal :=
    match strip form_goal with
    | EmptyString => st_goal (w_state w)
    | g => g
    end in
  match goal with
  | EmptyString => (_flash "" "Please enter a goal first." w, None)
  | _ =>
      if bg_running (w_state w) then (_flash "" busy w, None)
      else start_job "Ollama is generating a plan‚Ä¶ (30‚Äì90 s)" goal
                     (JobPlan goal) w
  end.

(** [POST /patch-local] *)
Definition patch_local (w : world) : world * option job :=
  match _active_step w with
  | None => (_flash "" "No active step selected." w, None)
  | Some step =>
      if bg_running (w_state w) then (_flash "" busy w, None)
      else start_job ("Ollama generating patch for step " +:+ str_of_Z (id step)
                        +:+ "‚Ä¶ (30‚Äì90 s)")
                     (st_goal (w_state w)) (JobPatch step) w
  end.

(** [POST /refine-patch] *)
Definition refine_patch_route (w : world) : world * option job :=
  match _active_step w with
  | None => (_flash "" "No active step selected." w, None)
  | Some step =>
      if bg_running (w_state w) then (_flash "" busy w, None)
      else
        let sid := id step in
        match get_or_empty (diffs (w_state w)) sid with
        | EmptyString =>
            (_flash "" "No diff to refine ‚Äî generate a patch first." w, None)
        | diff =>
            start_job ("Ollama-Refiner cleaning up patch for step "
                         +:+ str_of_Z sid +:+ "‚Ä¶")
                      (st_goal (w_state w))
                      (JobRefine sid diff step (reviews (w_state w) !! sid)) w
        end
  end.

(** [POST /run-all] *)
Definition run_all (w : world) : world * option job :=
  match plan_file w with
  | None => (_flash "" "No plan loaded." w, None)
  | Some p =>
      if bg_running (w_state w)
      then (_flash "" "Already running ‚Äî please wait." w, None)
      else
        match List.filter is_pending (steps p) with
        | [] => (_flash "" "No pending steps." w, None)
        | pending =>
            start_job ("Run All: starting " +:+ str_of_nat (length pending)
                         +:+ " step(s)‚Ä¶")
                      (st_goal (w_state w)) (JobRunAll p pending) w
        end
  end.

(** ** The server as a transition system *)

Inductive request :=
| PlanLocal (form_goal : string)
| PatchLocal
| RefinePatch
| RunAll
| ApplyPatch
| SkipStep
| ResetStep (step_id : Z)
| SelectStep (step_id : Z).

(** the requests that start a background thread *)
Definition is_bg_request (r : request) : bool :=
  match r with
  | PlanLocal _ | PatchLocal | RefinePatch | RunAll => true
  | _ => false
  end.

Definition handle (r : request) (w : world) : world * option job :=
  match r with
  | PlanLocal g => plan_local g w
  | PatchLocal => patch_local w
  | RefinePatch => refine_patch_route w
  | RunAll => run_all w
  | ApplyPatch => (apply_patch_route w, None)
  | SkipStep => (skip_step w, None)
  | ResetStep sid => (reset_step sid w, None)
  | SelectStep sid => (select_step sid w, None)
  end.

(** the [finally] of every [_run] *)
Definition finish_job (w : world) : world :=
  {| w_state := set_bg false "" (st_goal (w_state w)) (w_state w);
     plan_file := plan_file w; tree := tree w |}.

Record system := { sys_world : world; in_flight : list job }.

(** Requests are served one at a time (the server is not threaded); a
    running job may write anything to the world except [bg_running], which
    only its [finally] resets. *)
Inductive sys_step : system -> system -> Prop :=
| step_request r w jobs w' oj :
    handle r w = (w', oj) ->
    sys_step {| sys_world := w; in_flight := jobs |}
             {| sys_world := w'; in_flight := jobs ++ option_list oj |}
| step_job_writes w jobs w' :
    jobs <> [] ->
    bg_running (w_state w') = bg_running (w_state w) ->
    sys_step {| sys_world := w; in_flight := jobs |}
             {| sys_world := w'; in_flight := jobs |}
| step_job_finish w before j after :
    sys_step {| sys_world := w; in_flight := before ++ j :: after |}
             {| sys_world := finish_job w; in_flight := before ++ after |}.

Inductive reachable (init : system) : system -> Prop :=
| reach_init : reachable init init
| reach_step s s' : reachable init s -> sys_step s s' -> reachable init s'.

End Server.

(* ===================================================================== *)
(** * executor.py: the checks on a pasted answer *)
(* ===================================================================== *)

Module Executor.
Import PyStr.

(** [_strip_code_fences(text)] *)
Definition _strip_code_fences (text : string) : string :=
  if startswith text "```" then
    let lines := splitlines text in
    let n := length lines in
    let end_ :=
      if String.eqb (strip (List.last lines EmptyString)) "```"
      then n - 1 else n in
    strip (join nl (LocalPatcher.slice lines 1 end_))
  else text.

(** what is left of a line after the prefix of the header: at least one
    character that is not LF, then the LF that ends the line *)
Definition rest_then_lf (r : string) : bool :=
  (2 <=? String.length r) && endswith r nl.

(** the first line of the pattern of [_looks_like_diff], on one line of the
    text with its LF: three dashes, a space, ["a/"] or ["/dev/null"], one
    character or more, LF *)
Definition minus_header_line (line : string) : bool :=
  match strip_prefix "--- a/" line with
  | Some r => rest_then_lf r
  | None =>
      match strip_prefix "--- /dev/null" line with
      | Some r => rest_then_lf r
      | None => false
      end
  end.

(** the second line of the pattern: it only has to start as a header *)
Definition plus_header_start (next : string) : bool :=
  startswith next "+++ b/" || startswith next "+++ /dev/null".

(** [re.search] with [re.MULTILINE]: the pattern is tried at the start of
    every line *)
Fixpoint search_header_pair (lines : list string) : bool :=
  match lines with
  | line :: rest =>
      match rest with
      | next :: _ =>
          (minus_header_line line && plus_header_start next)
          || search_header_pair rest
      | [] => false
      end
  | [] => false
  end.

(** [_looks_like_diff(text)] *)
Definition _looks_like_diff (text : string) : bool :=
  search_header_pair (GitOps.split_lf_keep text).

End Executor.

(* ===================================================================== *)
(** * storage.py: the saved patches and prompts *)
(* ===================================================================== *)

Module StorageFiles.
Import PyStr.

Definition AI_BUILD_DIR : string := ".ai-build".
Definition PATCHES_DIR : string := AI_BUILD_DIR +:+ "/patches".
Definition PROMPTS_DIR : string := AI_BUILD_DIR +:+ "/prompts".

(** [open(path, "w").write(content)] *)
Definition write_text (path content : string) (t : GitOps.fs) : GitOps.fs :=
  <[path := content]> t.

(** [open(path, "r").read()] when the file exists *)
Definition read_file (path : string) (t : GitOps.fs) : option string :=
  option_map GitOps.read_text (t !! path).

(** [patch_path(step_id)] *)
Definition patch_path (step_id : Z) : string :=
  PATCHES_DIR +:+ "/step-" +:+ Server.str_of_Z step_id +:+ ".diff".

Definition refined_patch_path (step_id : Z) : string :=
  PATCHES_DIR +:+ "/step-" +:+ Server.str_of_Z step_id +:+ "-refined.diff".

Definition ollama_prompt_path (step_id : Z) : string :=
  PROMPTS_DIR +:+ "/ollama_patch_step_" +:+ Server.str_of_Z step_id +:+ ".txt".

Definition final_prompt_path : string := PROMPTS_DIR +:+ "/final_prompt.txt".

(** [save_patch(step_id, patch_content)] *)
Definition save_patch (step_id : Z) (patch_content : string) (t : GitOps.fs)
  : GitOps.fs :=
  write_text (patch_path step_id) patch_content t.

(** [load_patch(step_id)] *)
Definition load_patch (step_id : Z) (t : GitOps.fs) : option string :=
  read_file (patch_path step_id) t.

(** [save_refined_patch(step_id, content)] *)
Definition save_refined_patch (step_id : Z) (content : string) (t : GitOps.fs)
  : GitOps.fs :=
  write_text (refined_patch_path step_id) content t.

(** [load_refined_patch(step_id)] *)
Definition load_refined_patch (step_id : Z) (t : GitOps.fs) : option string :=
  read_file (refined_patch_path step_id) t.

(** [load_ollama_prompt(step_id)] *)
Definition load_ollama_prompt (step_id : Z) (t : GitOps.fs) : option string :=
  read_file (ollama_prompt_path step_id) t.

(** [save_final_prompt(content)] *)
Definition save_final_prompt (content : string) (t : GitOps.fs) : GitOps.fs :=
  write_text final_prompt_path content t.

(** [load_final_prompt()] *)
Definition load_final_prompt (t : GitOps.fs) : option string :=
  read_file final_prompt_path t.

End StorageFiles.

(* ===================================================================== *)
(** * ai_build.py: the [reset] command *)
(* ===================================================================== *)

Module Cli.
Import Storage.

(** the loop of the first branch: every step *)
Definition reset_all (l : list step) : list step :=
  map (fun s => set_status s "pending") l.

(** the loop of the second branch: every step with this id (no [break]) *)
Definition reset_matching (target : Z) (l : list step) : list step :=
  map (fun s => if (id s =? target)%Z then set_status s "pending" else s) l.

Section Reset.
(** [int(step_id_str)]; [None] stands for [ValueError] *)
Variable py_int : string -> option Z.

(** [cmd_reset(step_id_str)] on the content of [plan.json] *)
Definition cmd_reset (step_id_str : option string) (plan_file : option plan)
  : option plan :=
  match plan_file with
  | None => None
  | Some p =>
      match step_id_str with
      | None => Some {| goal := goal p; steps := reset_all (steps p) |}
      | Some str =>
          match py_int str with
          | None => plan_file
          | Some target =>
              if existsb (fun s => (id s =? target)%Z) (steps p)
              then Some {| goal := goal p;
                           steps := reset_matching target (steps p) |}
              else plan_file
          end
      end
  end.
End Reset.

End Cli.

(* ===================================================================== *)
(** * refiner.py: what becomes of the refiner's answer *)
(* ===================================================================== *)

Module Refiner.
Import PyStr.

(** [refine_patch(diff, ...)] from the answer [raw] of the model on: the
    pair [(refined_diff, error_string)] *)
Definition refine_patch (diff raw : string) : string * string :=
  if startswith raw "(Ollama" then (diff, "Refiner unavailable: " +:+ raw)
  else
    match LocalPatcher._extract_diff (strip raw) with
    | None => (diff, EmptyString)
    | Some extracted => (LocalPatcher._sanitize_diff extracted, EmptyString)
    end.

End Refiner.

(* ===================================================================== *)
(** * server.py: the other routes *)
(* ===================================================================== *)

Module ServerRoutes.
Import PyStr Storage Server StorageFiles.

(** [_first_pending_step()] *)
Definition _first_pending_step (w : world) : option step :=
  match load_plan_if_root w with
  | None => None
  | Some p => find is_pending (steps p)
  end.

(** the writes to the session that the routes below make *)
Definition set_session (op d rd : gmap Z string) (rv : gmap Z review_value)
           (fp : string) (active : option Z) (s : state) : state :=
  {| st_goal := st_goal s; plan_prompt := plan_prompt s;
     patch_prompts := patch_prompts s; ollama_prompts := op;
     diffs := d; refined_diffs := rd; reviews := rv;
     final_prompt := fp; active_step_id := active;
     error := error s; info := info s;
     project_root := project_root s; git_exists := git_exists s;
     bg_running := bg_running s; bg_label := bg_label s;
     planner_model := planner_model s; patcher_model := patcher_model s;
     reviewer_model := reviewer_model s; refiner_model := refiner_model s |}.

(** [if sid not in d: saved = load(sid); if saved: d[sid] = saved] *)
Definition reload (saved : option string) (d : gmap Z string) (sid : Z)
  : gmap Z string :=
  match d !! sid with
  | Some _ => d
  | None =>
      match saved with
      | Some (String c r) => <[sid := String c r]> d
      | _ => d
      end
  end.

(** one turn of the loop of [_render] over the steps of the plan *)
Definition render_step (t : GitOps.fs) (acc : gmap Z string * gmap Z string)
           (s : step) : gmap Z string * gmap Z string :=
  (reload (load_ollama_prompt (id s) t) (fst acc) (id s),
   reload (load_refined_patch (id s) t) (snd acc) (id s)).

(** [_render()]: what it writes to [_state] before the page is built *)
Definition _render (w : world) : world :=
  let s := w_state w in
  let acc :=
    match load_plan_if_root w with
    | Some p => fold_left (render_step (tree w)) (steps p)
                          (ollama_prompts s, refined_diffs s)
    | None => (ollama_prompts s, refined_diffs s)
    end in
  let fp :=
    match final_prompt s with
    | EmptyString =>
        match load_final_prompt (tree w) with
        | Some (String c r) => String c r
        | _ => EmptyString
        end
    | fp => fp
    end in
  {| w_state := set_session (fst acc) (diffs s) (snd acc) (reviews s) fp
                            (active_step_id s) s;
     plan_file := plan_file w; tree := tree w |}.

(** [GET /] *)
Definition index (w : world) : world :=
  _render
    match active_step_id (w_state w) with
    | None =>
        match _first_pending_step w with
        | Some step =>
            let s := w_state w in
            {| w_state := set_session (ollama_prompts s) (diffs s)
                            (refined_diffs s) (reviews s) (final_prompt s)
                            (Some (id step)) s;
               plan_file := plan_file w; tree := tree w |}
        | None => w
        end
    | Some _ => w
    end.

(** [POST /clear-plan] *)
Definition clear_plan (w : world) : world :=
  let s := w_state w in
  {| w_state :=
       {| st_goal := ""; plan_prompt := "";
          patch_prompts := ∅; ollama_prompts := ∅;
          diffs := ∅; refined_diffs := ∅; reviews := ∅;
          final_prompt := ""; active_step_id := None;
          error := ""; info := "Plan cleared.";
          project_root := project_root s; git_exists := git_exists s;
          bg_running := bg_running s; bg_label := bg_label s;
          planner_model := planner_model s; patcher_model := patcher_model s;
          reviewer_model := reviewer_model s;
          refiner_model := refiner_model s |};
     plan_file := None; tree := tree w |}.

Definition not_a_diff : string :=
  "Pasted text doesn't look like a unified diff (needs ---, +++, @@).".

(** [POST /review-patch]; [form_diff] is [request.form.get("diff", "")] and
    [review_patch patch description] is what the call of the reviewer
    gives, a review or an exception *)
Definition review_patch_route (form_diff : string)
           (review_patch : string -> string -> Reviewer.result Reviewer.review)
           (w : world) : world :=
  match _active_step w with
  | None => _flash "" "No active step selected." w
  | Some step =>
      match strip form_diff with
      | EmptyString => _flash "" "No diff pasted." w
      | raw =>
          let patch :=
            LocalPatcher._sanitize_diff (Executor._strip_code_fences raw) in
          if negb (Executor._looks_like_diff patch)
          then _flash "" not_a_diff w
          else
            let sid := id step in
            let s := w_state w in
            let w1 :=
              {| w_state := set_session (ollama_prompts s)
                              (<[sid := patch]> (diffs s)) (refined_diffs s)
                              (reviews s) (final_prompt s) (active_step_id s) s;
                 plan_file := plan_file w;
                 tree := save_patch sid patch (tree w) |} in
            let w2 := _flash "Sending diff to Ollama for review‚Ä¶" "" w1 in
            match review_patch patch (description step) with
            | Reviewer.Raise _ => w2
            | Reviewer.Ok review =>
                let s2 := w_state w2 in
                _flash "Review complete ‚Äî choose Approve, Skip, or Retry." ""
                  {| w_state := set_session (ollama_prompts s2) (diffs s2)
                                  (refined_diffs s2)
                                  (<[sid := Structured review]> (reviews s2))
                                  (final_prompt s2) (active_step_id s2) s2;
                     plan_file := plan_file w2; tree := tree w2 |}
            end
      end
  end.

(** [err[:120]] *)
Definition first_120 (s : string) : string := String.substring 0 120 s.

(** the [_run] of [POST /refine-patch] once the refiner has answered [raw]:
    the [try] block and its [finally] *)
Definition refine_job (sid : Z) (diff raw : string) (w : world) : world :=
  let '(refined, err) := Refiner.refine_patch diff raw in
  let s := w_state w in
  let w1 :=
    {| w_state := set_session (ollama_prompts s) (diffs s)
                    (<[sid := refined]> (refined_diffs s)) (reviews s)
                    (final_prompt s) (active_step_id s) s;
       plan_file := plan_file w;
       tree := save_refined_patch sid refined (tree w) |} in
  finish_job
    match err with
    | EmptyString =>
        _flash ("‚úì Step " +:+ str_of_Z sid
                  +:+ " patch refined ‚Äî review then Approve.") "" w1
    | _ =>
        _flash ("‚úì Step " +:+ str_of_Z sid +:+ " refined (note: "
                  +:+ first_120 err +:+ ")") "" w1
    end.

End ServerRoutes.

(* ===================================================================== *)
(** * server.py: what goes into the final prompt, and the status line *)
(* ===================================================================== *)

Module ServerAssemble.
Import PyStr Storage Server StorageFiles.

(** [step.get("status") == "approved"] *)
Definition is_approved (s : step) : bool :=
  match status s with
  | Some st => String.eqb st "approved"
  | None => false
  end.

(** the diff that [assemble_prompt] takes for the step id [sid]: the
    refined diff or the draft of the session, else the saved refined patch
    or the saved patch; the empty text when there is none *)
Definition pick_diff (w : world) (sid : Z) : string :=
  match best_diff (w_state w) sid with
  | EmptyString =>
      match load_refined_patch sid (tree w) with
      | Some (String c r) => String c r
      | _ =>
          match load_patch sid (tree w) with
          | Some d => d
          | None => EmptyString
          end
      end
  | diff => diff
  end.

(** the loop of [assemble_prompt] that fills [approved_diffs] *)
Definition approved_diffs (w : world) (p : plan) : gmap Z string :=
  fold_left
    (fun acc step =>
       if is_approved step then
         match pick_diff w (id step) with
         | EmptyString => acc
         | diff => <[id step := diff]> acc
         end
       else acc)
    (steps p) ∅.

(** the counts of [_get_status()] for a loaded plan: total, approved,
    skipped, failed, pending *)
Definition has_status (st : string) (s : step) : bool :=
  match status s with
  | Some x => String.eqb x st
  | None => false
  end.

Definition count_status (st : string) (l : list step) : Z :=
  Z.of_nat (length (List.filter (has_status st) l)).

Record counts := {
  total : Z; approved : Z; skipped : Z; failed : Z; pending : Z }.

(** the part of [_get_status()] that counts the steps *)
Definition plan_counts (w : world) : counts :=
  match load_plan_if_root w with
  | Some p =>
      let steps := steps p in
      let total := Z.of_nat (length steps) in
      let approved := count_status "approved" steps in
      let skipped := count_status "skipped" steps in
      let failed := count_status "failed" steps in
      {| total := total; approved := approved; skipped := skipped;
         failed := failed;
         pending := (total - approved - skipped - failed)%Z |}
  | None =>
      {| total := 0; approved := 0; skipped := 0; failed := 0; pending := 0 |}
  end.

End ServerAssemble.

(* ===================================================================== *)
(** * The vocabulary of the statements, and the inputs of the examples *)
(* ===================================================================== *)

Module StorageSpec.
Import Storage.

(** the step at index [i] is the one the loop stops at *)
Definition first_match (step_id : Z) (l : list step) (i : nat) (s : step) : Prop :=
  id s = step_id /\
  forall j s0, j < i -> l !! j = Some s0 -> id s0 <> step_id.

(** [s'] is [s] up to its status *)
Definition same_but_status (s s' : step) : Prop :=
  id s' = id s /\ title s' = title s /\ description s' = description s /\
  suggested_files s' = suggested_files s /\
  acceptance_criteria s' = acceptance_criteria s.

Definition step_a : step :=
  {| id := 1; title := "import logging"; description := "add the import";
     suggested_files := ["app.py"]; acceptance_criteria := ["imports logging"];
     status := Some "approved" |}.

Definition step_b : step :=
  {| id := 2; title := "log the start"; description := "call logging.info";
     suggested_files := ["app.py"]; acceptance_criteria := [];
     status := None |}.

Definition plan_ab : plan := {| goal := "add logging"; steps := [step_a; step_b] |}.

End StorageSpec.

Module ServerSpec.
Import PyStr Storage Server.

(** ** A small session used by the examples *)

Definition mk_step (i : Z) (t : string) (st : option string) : step :=
  {| id := i; title := t; description := t; suggested_files := ["app.py"];
     acceptance_criteria := []; status := st |}.

Definition plan0 : plan :=
  {| goal := "add logging";
     steps := [mk_step 1 "import logging" (Some "pending");
               mk_step 2 "log the start" (Some "pending")] |}.

Definition state0 : state :=
  {| st_goal := "add logging"; plan_prompt := ""; patch_prompts := ∅;
     ollama_prompts := ∅; diffs := ∅; refined_diffs := ∅; reviews := ∅;
     final_prompt := ""; active_step_id := Some 1%Z; error := ""; info := "";
     project_root := "/work/app"; git_exists := false;
     bg_running := false; bg_label := "";
     planner_model := "gemma3:4b"; patcher_model := "gemma3:4b";
     reviewer_model := "gemma3:4b"; refiner_model := "gemma3:4b" |}.

Definition with_artifacts (d r : gmap Z string) (v : gmap Z review_value)
           (running : bool) (s : state) : state :=
  {| st_goal := st_goal s; plan_prompt := plan_prompt s;
     patch_prompts := patch_prompts s; ollama_prompts := ollama_prompts s;
     diffs := d; refined_diffs := r; reviews := v;
     final_prompt := final_prompt s; active_step_id := active_step_id s;
     error := error s; info := info s;
     project_root := project_root s; git_exists := git_exists s;
     bg_running := running; bg_label := bg_label s;
     planner_model := planner_model s; patcher_model := patcher_model s;
     reviewer_model := reviewer_model s; refiner_model := refiner_model s |}.

(** nothing generated yet for step 1 *)
Definition world0 : world :=
  {| w_state := state0; plan_file := Some plan0;
     tree := {[ "app.py" := "print(1)" +:+ nl ]} |}.

(** step 1 has a draft that is no diff at all, saved as its patch file *)
Definition patch_file1 : string := ".ai-build/patches/step-1.diff".

Definition world_bad_draft : world :=
  {| w_state := with_artifacts {[ 1%Z := "not a diff" ]} ∅ ∅ false state0;
     plan_file := Some plan0;
     tree := {[ "app.py" := "print(1)" +:+ nl; patch_file1 := "not a diff" ]} |}.

(** step 1 has a draft, a review and a refined diff *)
Definition world_refined : world :=
  {| w_state :=
       with_artifacts {[ 1%Z := "draft" ]} {[ 1%Z := "refined" ]}
                      {[ 1%Z := Freeform "looks fine" ]} false state0;
     plan_file := Some plan0;
     tree := {[ "app.py" := "print(1)" +:+ nl ]} |}.

(** the project folder is not a git repository *)
Definition no_git : GitOps.git_tool :=
  {| GitOps.is_git_repo := false;
     GitOps.git_apply_check := fun _ _ => false;
     GitOps.git_apply := fun _ files => (false, files) |}.

(** ** Approve *)

(** the status of the first step with this id in the persisted plan *)
Definition status_of (sid : Z) (w : world) : option string :=
  match plan_file w with
  | None => None
  | Some p =>
      match find (fun s => (id s =? sid)%Z) (steps p) with
      | Some s => status s
      | None => None
      end
  end.

(** C1 as the specification has it: approving runs the patch applier on the
    refined-or-draft diff (here saved as [patch_file]), and the step becomes
    approved, with the pointer advanced, only when the applier succeeds;
    when it fails the plan is left as it was. *)
Definition approve_applies_first (git : GitOps.git_tool) (patch_file : string)
           (w : world) : Prop :=
  forall step,
    _active_step w = Some step ->
    best_diff (w_state w) (id step) <> EmptyString ->
    tree w !! patch_file = Some (best_diff (w_state w) (id step)) ->
    let w' := apply_patch_route w in
    match GitOps.apply_patch (fun p => p) (fun _ _ => None) (fun _ _ => None)
                             git "" patch_file (tree w) with
    | (tree', GitOps.Returns (true, _)) =>
        tree w' = tree' /\ status_of (id step) w' = Some "approved" /\
        active_step_id (w_state w') = next_pending_id (plan_file w')
    | _ => plan_file w' = plan_file w
    end.

(** ** Reset *)

(** C7 as the specification has it: after a reset the step has no draft, no
    review and no refined diff. *)
Definition artifacts_cleared (sid : Z) (w : world) : Prop :=
  diffs (w_state w) !! sid = None /\
  reviews (w_state w) !! sid = None /\
  refined_diffs (w_state w) !! sid = None.

(** a handler answered with an error flash and nothing else *)
Definition rejected (w : world) (out : world * option job) : Prop :=
  exists msg, msg <> EmptyString /\ out = (_flash "" msg w, None).

(** the flag tells how many jobs are in flight *)
Definition flag_counts_jobs (s : system) : Prop :=
  length (in_flight s) = if bg_running (w_state (sys_world s)) then 1 else 0.

Definition world_idle : world :=
  {| w_state := with_artifacts {[ 1%Z := "draft" ]} ∅ ∅ false state0;
     plan_file := Some plan0;
     tree := {[ "app.py" := "print(1)" +:+ nl ]} |}.

Definition system_idle : system :=
  {| sys_world := world_idle; in_flight := [] |}.

(** the idle system after [POST /plan-local] *)
Definition system_busy : system :=
  {| sys_world := fst (handle (PlanLocal "add logging") world_idle);
     in_flight := [] ++ option_list (snd (handle (PlanLocal "add logging") world_idle)) |}.

End ServerSpec.

Module GitOpsSpec.
Import PyStr GitOps.

(** ** Where the cursor is when a context line is read *)


Definition is_context (hl : string) : bool :=
  negb (startswith hl "+") && negb (startswith hl "-").



(** [i] is no index of a list of [n] elements: at or beyond [n], or, since
    Python counts a negative index from the end, before [-n] *)
Definition no_such_index (n : nat) (i : Z) : Prop :=
  (i < - Z.of_nat n \/ Z.of_nat n <= i)%Z.














Definition start_acc (files : fs) : acc :=
  {| a_fs := files; applied := []; errors := []; raised := None |}.

(** an operating system that refuses nothing *)
Definition no_os_error (files : fs) (path : string) : option string := None.

(** the applier on a project folder where paths are taken as they are *)
Definition run_applier (patch_text : string) (files : fs) : acc :=
  apply_patch_text (fun p => p) no_os_error no_os_error patch_text files.

(** ** The overall result *)

Definition tree_ab : fs :=
  {[ "A.py" := "import os" +:+ nl +:+ "import json" +:+ nl;
     "B.py" := "one" +:+ nl ]}.

(** file A takes its hunk; the hunk of file B starts at line 10 of 1 *)
Definition patch_ab : string :=
"diff --git a/A.py b/A.py
--- a/A.py
+++ b/A.py
@@ -1,2 +1,3 @@
 import os
+import logging
 import json
diff --git a/B.py b/B.py
--- a/B.py
+++ b/B.py
@@ -10,1 +10,2 @@
 ten
+eleven
".

Definition patch_file_ab : string := ".ai-build/patches/step-1.diff".


End GitOpsSpec.

Module ReviewerSpec.
Import PyStr Reviewer.

Definition is_verdict (v : string) : Prop :=
  v = "approve" \/ v = "concerns" \/ v = "reject".

End ReviewerSpec.

Module LocalPatcherSpec.
Import PyStr LocalPatcher.

(** ** The extractor *)

(** Step 1 changes some line *)
Fixpoint needs_repair (lines : list string) : bool :=
  match lines with
  | [] => false
  | line :: rest =>
      (repair_match (rstrip_eol line)
       && repair_next_match match rest with
                            | next :: _ => rstrip_eol next
                            | [] => EmptyString
                            end)
      || needs_repair rest
  end.

(** C4 as the specification has it: the header pair is ["--- a/"] or
    ["--- /dev/null"] followed by ["+++ b/"] or ["+++ /dev/null"]; the
    extractor returns the text from the first such pair on, as it is, and
    nothing when there is no such pair. *)
Definition strict_pair_at (lines : list string) : bool :=
  match lines with
  | line :: next :: _ =>
      (startswith (rstrip_eol line) "--- a/"
       || startswith (rstrip_eol line) "--- /dev/null")
      && (startswith (rstrip_eol next) "+++ b/"
          || startswith (rstrip_eol next) "+++ /dev/null")
  | _ => false
  end.

Fixpoint from_strict_pair (lines : list string) : option (list string) :=
  match lines with
  | [] => None
  | _ :: rest =>
      if strict_pair_at lines then Some lines else from_strict_pair rest
  end.

Definition extract_as_specified (text : string) : Prop :=
  _extract_diff text = option_map concat (from_strict_pair (splitlines_keep text)).

(** what follows the body of a fenced text: nothing, and then no line of
    the body is a bare fence; or the last line of the text that is a bare
    fence, and the lines after it *)
Definition closes_fence (body closing : list string) : Prop :=
  match closing with
  | [] => Forall (fun l => is_fence_close l = false) body
  | close :: after =>
      is_fence_close close = true /\
      Forall (fun l => is_fence_close l = false) after
  end.

Definition crlf : string := String CR nl.

(** headers with other prefixes than a/ and b/ *)
Definition text_other_prefix : string :=
"--- old/app.py
+++ new/app.py
@@ -1 +1 @@
-x
+y
".

(** a fenced answer with CR LF line ends *)
Definition text_fenced_crlf : string :=
  "```diff" +:+ crlf +:+ "--- a/app.py" +:+ crlf +:+ "+++ b/app.py" +:+ crlf
  +:+ "@@ -1 +1 @@" +:+ crlf +:+ "-x" +:+ crlf +:+ "+y" +:+ crlf +:+ "```".

(** the one-dash header that Step 1 repairs *)
Definition text_one_dash : string :=
"- a/app.py
+++ b/app.py
@@ -1 +1 @@
-x
+y
".

Definition text_in_prose : string :=
"Here is the patch, with --- and
+++ markers explained below.

--- a/app.py
+++ b/app.py
@@ -1 +1 @@
-x
+y
".

(** ** The sanitizer *)

Fixpoint all_chars (f : ascii -> bool) (s : string) : bool :=
  match s with
  | EmptyString => true
  | String c r => f c && all_chars f r
  end.

(** no line boundary inside: what every element of [splitlines] is *)
Definition clean (s : string) : Prop :=
  all_chars (fun c => negb (is_linebreak c)) s = true.

(** the next character, if any, fails [f] *)
Definition starts_not (f : ascii -> bool) (s : string) : Prop :=
  match s with
  | EmptyString => True
  | String c _ => f c = false
  end.

(** *** The hunk header: parsing what the sanitizer prints *)

Definition no_lf (s : string) : Prop :=
  all_chars (fun c => negb (Ascii.eqb c LF)) s = true.

Definition is_blank (s : string) : bool := String.eqb s "".

(** *** The loop, line by line *)

(** Every line is kept, and a line that starts with "@@" is rewritten from
    the body that follows it: the lines of a body never start with "@@", so
    the jump [i = j] of the loop skips nothing that a step by step walk
    would change. *)
Fixpoint sanitize_map (lines : list string) : list string :=
  match lines with
  | [] => []
  | line :: rest =>
      (if startswith line "@@" then rewrite_header line (take_body rest)
       else line) :: sanitize_map rest
  end.

Definition no_cr (s : string) : Prop :=
  all_chars (fun c => negb (Ascii.eqb c CR)) s = true.

(** *** The last line end *)

(** [join] and the last [if]: the text the sanitizer returns for [out] *)
Definition finish_text (out : list string) : string :=
  let result := join nl out in
  if endswith result nl then result else result +:+ nl.

(** [out] without its last line when that line is empty and not the only one *)
Definition core (out : list string) : list string :=
  match rev out with
  | EmptyString :: (y :: r) => rev (y :: r)
  | _ => out
  end.

(** the text has three lines or more and its last two lines are empty *)
Definition ends_blank_twice (lines : list string) : bool :=
  match rev lines with
  | a :: b :: _ :: _ => is_blank a && is_blank b
  | _ => false
  end.

(** the lines of the text the sanitizer returns *)
Definition lines_back (out : list string) : list string :=
  match core out with
  | [] => [EmptyString]
  | c => c
  end.

(** a diff that ends in two empty lines *)
Definition diff_two_blank_lines : string :=
"--- a/app.py
+++ b/app.py
@@ -1,1 +1,1 @@
-x
+y


".

(** C3 as the specification has it: the body of a hunk is every line that
    follows its header until the next line that starts with "@@" or the
    next file header; a file header opens with a [diff] line, or with a
    [---] line that a [+++] line follows. *)
Definition file_header_at (lines : list string) : bool :=
  match lines with
  | l :: rest =>
      startswith l "diff "
      || (startswith l "--- "
          && match rest with
             | next :: _ => startswith next "+++ "
             | [] => false
             end)
  | [] => false
  end.

Fixpoint body_lines (lines : list string) : list string :=
  match lines with
  | l :: rest =>
      if startswith l "@@" || file_header_at lines then []
      else l :: body_lines rest
  | [] => []
  end.

(** a hunk that removes a line of SQL comment: the removed line, with its
    marker, starts with three dashes and a space *)
Definition diff_removed_dashes : string :=
"--- a/q.sql
+++ b/q.sql
@@ -1,3 +1,2 @@
 select 1;
--- old comment
 select 2;
".

(** a diff whose header has wrong counts and a hint after the header *)
Definition diff_wrong_counts : string :=
"--- a/app.py
+++ b/app.py
@@ -1,9 +1,7 @@ def f
 a
-b
+c
+d
".

End LocalPatcherSpec.

Module ApplierSpec.
Import PyStr GitOps.

(** the lines of a hunk body that stand for a line of the file: the
    removed lines and the context lines *)
Definition covered (hunk_lines : list string) : nat :=
  length (List.filter (fun hl => negb (startswith hl "+")) hunk_lines).

(** [hl[1:]] *)
Definition tail_of (hl : string) : string :=
  String.substring 1 (String.length hl - 1) hl.

(** what a hunk body makes of the lines [old] of the file that it covers:
    an added line puts its text in, a removed line drops the next line of
    [old], a context line keeps the next line of [old] *)
Fixpoint merge_hunk (hunk_lines old : list string) : list string :=
  match hunk_lines with
  | [] => []
  | hl :: rest =>
      if startswith hl "+" then tail_of hl :: merge_hunk rest old
      else
        match old with
        | [] => []
        | o :: old' =>
            if startswith hl "-" then merge_hunk rest old'
            else o :: merge_hunk rest old'
        end
  end.

(** what a run of blocks may change: names are added to [applied], and a
    path keeps its content unless it is the target of an added name *)
Definition grows (target_of : string -> string) (st st' : acc) : Prop :=
  (exists more, applied st' = applied st ++ more /\
     forall q, (forall r, In r more -> target_of r <> q) ->
               a_fs st' !! q = a_fs st !! q)
  /\ (applied st' = applied st -> a_fs st' = a_fs st).

Definition tree_two_files : fs :=
  {[ "A.py" := "a" +:+ nl +:+ "b" +:+ nl; "B.py" := "x" +:+ nl ]}.

(** a patch for two files that has no [diff --git] lines *)
Definition patch_two_files : string :=
"--- a/A.py
+++ b/A.py
@@ -1,1 +1,2 @@
 a
+a2
--- a/B.py
+++ b/B.py
@@ -1,1 +1,2 @@
 x
+y
".

Definition tree_four_lines : fs :=
  {[ "A.py" := "a" +:+ nl +:+ "b" +:+ nl +:+ "c" +:+ nl +:+ "d" +:+ nl ]}.

(** a patch that replaces the third line of a file of four *)
Definition patch_swap_second : string :=
"--- a/A.py
+++ b/A.py
@@ -2,2 +2,2 @@
 B
-c
+C
".

(** a block that applies, and a block whose start number has 4301 digits *)
Definition block_adds_two : string :=
"diff --git a/B.py b/B.py
--- a/B.py
+++ b/B.py
@@ -1,1 +1,2 @@
 x
+two
".

Definition block_long_start : string :=
  "diff --git a/A.py b/A.py" +:+ nl +:+ "--- a/A.py" +:+ nl +:+ "+++ b/A.py" +:+ nl
  +:+ "@@ -" +:+ string_of_list_ascii (List.repeat "9"%char 4301)
  +:+ ",1 +1,1 @@" +:+ nl +:+ " a" +:+ nl.

Definition tree_notes : fs :=
  {[ "notes.txt" := "a" +:+ nl +:+ "b" +:+ nl +:+ "c" +:+ nl ]}.

(** a diff that creates a file *)
Definition patch_new_file : string :=
"--- /dev/null
+++ b/notes.txt
@@ -0,0 +1,2 @@
+one
+two
".

End ApplierSpec.

Module PatcherSpec.
Import PyStr.

(** a diff that creates a file *)
Definition diff_new_file : string :=
"--- /dev/null
+++ b/notes.txt
@@ -0,0 +1,2 @@
+one
+two
".

(** the same diff as a fenced answer *)
Definition fenced_new_file : string :=
  "```diff" +:+ nl +:+ diff_new_file +:+ "```".

(** an answer of the refiner with a sentence before the diff and CR LF
    line ends *)
Definition refiner_answer : string :=
  "Here is the corrected diff:" +:+ String CR nl
  +:+ "--- a/app.py" +:+ String CR nl +:+ "+++ b/app.py" +:+ String CR nl
  +:+ "@@ -1,5 +1,5 @@" +:+ String CR nl
  +:+ "-x" +:+ String CR nl +:+ "+y" +:+ String CR nl.

End PatcherSpec.

Module RoutesSpec.
Import PyStr Storage Server ServerSpec StorageFiles ServerAssemble.

(** the session of [world_refined] with an assembled final prompt on disk
    and in memory, and the refined diff of step 1 on disk *)
Definition tree_with_saved : GitOps.fs :=
  {[ "app.py" := "print(1)" +:+ nl;
     final_prompt_path := "apply these diffs";
     refined_patch_path 1 := "refined on disk" ]}.

Definition world_saved : world :=
  {| w_state := w_state world_refined; plan_file := Some plan0;
     tree := tree_with_saved |}.

(** a pasted diff for step 1 *)
Definition pasted_diff : string :=
"--- a/app.py
+++ b/app.py
@@ -1,1 +1,1 @@
-print(1)
+print(2)
".

(** a reviewer that approves whatever it is shown *)
Definition approving_reviewer (patch description : string)
  : Reviewer.result Reviewer.review :=
  Reviewer.Ok {| Reviewer.verdict := "approve"; Reviewer.summary := "fine";
                 Reviewer.issues := []; Reviewer.notes := "";
                 Reviewer.raw := "APPROVE" |}.

(** the steps that the status line counts as pending: those whose status
    is none of approved, skipped and failed *)
Definition other_status (s : step) : bool :=
  negb (has_status "approved" s || has_status "skipped" s
        || has_status "failed" s).

End RoutesSpec.

(* ===================================================================== *)
(** * Properties of the persisted plan *)
(* ===================================================================== *)

Module StorageFacts.
Import Storage StorageSpec.

Lemma set_status_same s st : same_but_status s (set_status s st).
Proof. repeat split. Qed.

Lemma set_first_status_length step_id st l :
  length (set_first_status step_id st l) = length l.
Proof.
  induction l as [|s rest IH]; simpl; [reflexivity|].
  destruct (id s =? step_id)%Z; simpl; congruence.
Qed.

Lemma set_first_status_hit step_id st l i s :
  l !! i = Some s -> first_match step_id l i s ->
  set_first_status step_id st l !! i = Some (set_status s st).
Proof.
  revert i. induction l as [|s0 rest IH]; intros i Hi [Hid Hbefore].
  - discriminate.
  - simpl. destruct (id s0 =? step_id)%Z eqn:E.
    + destruct i as [|i]; simpl in *.
      * congruence.
      * exfalso. apply (Hbefore 0 s0); [lia|reflexivity|].
        apply Z.eqb_eq, E.
    + destruct i as [|i]; simpl in *.
      * injection Hi as ->. apply Z.eqb_neq in E. contradiction.
      * apply IH; [assumption|]. split; [assumption|].
        intros j s1 Hj Hl. apply (Hbefore (S j) s1); [lia|exact Hl].
Qed.

Lemma set_first_status_miss step_id st l i s :
  l !! i = Some s -> ~ first_match step_id l i s ->
  set_first_status step_id st l !! i = Some s.
Proof.
  revert i. induction l as [|s0 rest IH]; intros i Hi Hnot.
  - discriminate.
  - simpl. destruct (id s0 =? step_id)%Z eqn:E.
    + destruct i as [|i]; simpl in *.
      * exfalso. apply Hnot. injection Hi as <-. split.
        -- apply Z.eqb_eq, E.
        -- intros j s1 Hj. lia.
      * exact Hi.
    + destruct i as [|i]; simpl in *.
      * exact Hi.
      * apply IH; [assumption|]. intros [Hid Hbefore]. apply Hnot.
        split; [assumption|]. intros [|j] s1 Hj Hl; simpl in Hl.
        -- injection Hl as <-. apply Z.eqb_neq, E.
        -- apply (Hbefore j s1); [lia|exact Hl].
Qed.

Lemma set_first_status_absent step_id st l :
  (forall s, In s l -> id s <> step_id) -> set_first_status step_id st l = l.
Proof.
  induction l as [|s0 rest IH]; intros Hall; simpl; [reflexivity|].
  destruct (id s0 =? step_id)%Z eqn:E.
  - apply Z.eqb_eq in E. exfalso. apply (Hall s0); [left; reflexivity|exact E].
  - f_equal. apply IH. intros s Hs. apply Hall. right. exact Hs.
Qed.

Lemma set_first_status_idem step_id st l :
  set_first_status step_id st (set_first_status step_id st l)
  = set_first_status step_id st l.
Proof.
  induction l as [|s0 rest IH]; simpl; [reflexivity|].
  destruct (id s0 =? step_id)%Z eqn:E; simpl; rewrite E; [reflexivity|].
  f_equal. exact IH.
Qed.

Lemma set_first_status_find step_id st l s :
  find (fun x => (id x =? step_id)%Z) l = Some s ->
  find (fun x => (id x =? step_id)%Z) (set_first_status step_id st l)
  = Some (set_status s st).
Proof.
  induction l as [|s0 rest IH]; simpl; [discriminate|].
  destruct (id s0 =? step_id)%Z eqn:E; simpl.
  - rewrite E. congruence.
  - rewrite E. exact IH.
Qed.

Lemma first_match_dec step_id l i s :
  first_match step_id l i s \/ ~ first_match step_id l i s.
Proof.
  unfold first_match.
  destruct (Z.eq_dec (id s) step_id) as [Hid|Hid]; [|right; tauto].
  assert (Hdec : (forall j s0, j < i -> l !! j = Some s0 -> id s0 <> step_id)
                 \/ ~ (forall j s0, j < i -> l !! j = Some s0 -> id s0 <> step_id)).
  { clear Hid. induction i as [|i IH].
    - left. intros j s0 Hj. lia.
    - destruct IH as [H|H].
      + destruct (l !! i) as [si|] eqn:E.
        * destruct (Z.eq_dec (id si) step_id) as [Heq|Hne].
          -- right. intros HP. apply (HP i si); [lia|exact E|exact Heq].
          -- left. intros j s0 Hj Hl. destruct (Nat.eq_dec j i) as [->|Hji].
             ++ rewrite E in Hl. injection Hl as <-. exact Hne.
             ++ apply (H j s0); [lia|exact Hl].
        * left. intros j s0 Hj Hl. destruct (Nat.eq_dec j i) as [->|Hji].
          -- rewrite E in Hl. discriminate.
          -- apply (H j s0); [lia|exact Hl].
      + right. intros HP. apply H. intros j s0 Hj. apply HP. lia. }
  destruct Hdec as [H|H]; [left; tauto|right; tauto].
Qed.

(** C10.  [update_step_status] changes at most the status of the first step
    whose id is [step_id]: the goal, the number of steps, every other step
    and every other field of that step stay as they were; when no step has
    that id the plan is written back unchanged, and without a persisted plan
    nothing is persisted. *)
Theorem update_step_status_frame (plan_file : option plan) (step_id : Z)
        (st : string) :
  match plan_file with
  | None => update_step_status step_id st plan_file = None
  | Some p =>
      exists p',
        update_step_status step_id st plan_file = Some p' /\
        goal p' = goal p /\
        length (steps p') = length (steps p) /\
        (forall i s, steps p !! i = Some s ->
           exists s', steps p' !! i = Some s' /\ same_but_status s s' /\
             (first_match step_id (steps p) i s -> status s' = Some st) /\
             (~ first_match step_id (steps p) i s -> s' = s)) /\
        ((forall s, In s (steps p) -> id s <> step_id) -> p' = p)
  end.
Proof.
  destruct plan_file as [p|]; [|reflexivity].
  eexists. split; [reflexivity|]. simpl.
  split; [reflexivity|]. split; [apply set_first_status_length|]. split.
  - intros i s Hi.
    destruct (first_match_dec step_id (steps p) i s) as [Hf|Hn].
    + exists (set_status s st). split.
      * apply set_first_status_hit; assumption.
      * split; [apply set_status_same|]. split; [reflexivity|].
        intros Hn. contradiction.
    + exists s. split.
      * apply set_first_status_miss; assumption.
      * split; [repeat split|]. split; [|reflexivity].
        intros Hf. contradiction.
  - intros Hall. destruct p as [g l]. simpl. f_equal.
    apply set_first_status_absent. exact Hall.
Qed.

Lemma update_step_status_frame_witness :
  exists p',
    update_step_status 2 "skipped" (Some plan_ab) = Some p' /\
    goal p' = "add logging" /\
    steps p' !! 0 = Some step_a /\
    (exists s', steps p' !! 1 = Some s' /\ status s' = Some "skipped"
                /\ title s' = "log the start").
Proof.
  destruct (update_step_status_frame (Some plan_ab) 2 "skipped")
    as (p' & Hu & Hg & _ & Hsteps & _).
  exists p'. split; [exact Hu|]. split; [exact Hg|]. split.
  - destruct (Hsteps 0 step_a eq_refl) as (s' & Hl & _ & _ & Hmiss).
    rewrite Hl. f_equal. apply Hmiss. intros [Hid _]. discriminate.
  - destruct (Hsteps 1 step_b eq_refl) as (s' & Hl & Hsame & Hhit & _).
    exists s'. split; [exact Hl|]. split.
    + apply Hhit. split; [reflexivity|].
      intros j s0 Hj Hl0. assert (j = 0) as -> by lia.
      injection Hl0 as <-. discriminate.
    + destruct Hsame as (_ & Ht & _). exact Ht.
Defined.

End StorageFacts.

(* ===================================================================== *)
(** * Properties of the route handlers *)
(* ===================================================================== *)

Module ServerFacts.
Import PyStr Storage Server ServerSpec.

(** ** Approve *)

Lemma active_step_id_eq w step : _active_step w = Some step ->
  exists p, plan_file w = Some p /\
            find (fun s => (id s =? id step)%Z) (steps p) = Some step.
Proof.
  unfold _active_step, load_plan_if_root. intros H.
  destruct (String.eqb _ _); [discriminate|].
  destruct (plan_file w) as [p|]; [|discriminate].
  destruct (active_step_id (w_state w)) as [sid|]; [|discriminate].
  exists p. split; [reflexivity|].
  pose proof (find_some _ _ H) as [_ Hid]. apply Z.eqb_eq in Hid.
  rewrite Hid. exact H.
Qed.

(** C1, counterexample.  The draft of step 1 is no diff: the applier fails on
    it ("No files were changed"), and the handler approves the step all the
    same. *)
Lemma approve_commits_without_apply :
  ~ approve_applies_first no_git patch_file1 world_bad_draft.
Proof.
  intros H.
  specialize (H (mk_step 1 "import logging" (Some "pending"))
                eq_refl ltac:(discriminate) eq_refl).
  vm_compute in H. discriminate.
Qed.

(** C1, amended.  Approving the active step that has a stored refined or
    draft diff runs no applier: the project files stay as they are, the step
    is marked approved in the persisted plan whatever the diff is, the
    pointer moves to the first step of the plan that is still pending (none
    if there is none), and the draft and the review leave the session. *)
Theorem approve_route_marks_approved (w : world) (step : step) :
  _active_step w = Some step ->
  best_diff (w_state w) (id step) <> EmptyString ->
  let w' := apply_patch_route w in
  tree w' = tree w /\
  plan_file w' = update_step_status (id step) "approved" (plan_file w) /\
  status_of (id step) w' = Some "approved" /\
  active_step_id (w_state w') = next_pending_id (plan_file w') /\
  diffs (w_state w') = delete (id step) (diffs (w_state w)) /\
  reviews (w_state w') = delete (id step) (reviews (w_state w)) /\
  refined_diffs (w_state w') = refined_diffs (w_state w) /\
  error (w_state w') = EmptyString.
Proof.
  intros Hact Hdiff. cbv zeta.
  destruct (active_step_id_eq w step Hact) as (p & Hp & Hfind).
  unfold apply_patch_route. rewrite Hact.
  destruct (best_diff (w_state w) (id step)) eqn:Hb; [contradiction|].
  simpl. repeat split.
  unfold status_of. simpl. rewrite Hp. simpl.
  rewrite (StorageFacts.set_first_status_find _ _ _ _ Hfind). reflexivity.
Qed.

Lemma approve_route_marks_approved_witness :
  status_of 1 (apply_patch_route world_bad_draft) = Some "approved"
  /\ tree (apply_patch_route world_bad_draft) = tree world_bad_draft.
Proof.
  pose proof (approve_route_marks_approved world_bad_draft
                (mk_step 1 "import logging" (Some "pending"))
                eq_refl ltac:(discriminate)) as H.
  cbv zeta in H. destruct H as (Ht & _ & Hs & _).
  split; [exact Hs|exact Ht].
Defined.

(** C6.  Approving a step for which neither a draft nor a refined diff is
    stored is refused with the "No diff found" error; only the two flash
    fields change, so the plan, and with it the status of the step, stay as
    they are. *)
Theorem approve_without_diff_rejected (w : world) (step : step) :
  _active_step w = Some step ->
  diffs (w_state w) !! id step = None ->
  refined_diffs (w_state w) !! id step = None ->
  let w' := apply_patch_route w in
  w' = _flash "" "No diff found ‚Äî generate a patch first." w /\
  error (w_state w') = "No diff found ‚Äî generate a patch first." /\
  plan_file w' = plan_file w /\
  status_of (id step) w' = status_of (id step) w /\
  (status step = Some "pending" -> status_of (id step) w' = Some "pending").
Proof.
  intros Hact Hd Hr. cbv zeta.
  unfold apply_patch_route. rewrite Hact.
  unfold best_diff, get_or_empty. rewrite Hr, Hd.
  repeat split. intros Hs.
  destruct (active_step_id_eq w step Hact) as (p & Hp & Hfind).
  unfold status_of. simpl. rewrite Hp, Hfind. exact Hs.
Qed.

Lemma approve_without_diff_rejected_witness :
  error (w_state (apply_patch_route world0))
    = "No diff found ‚Äî generate a patch first."
  /\ status_of 1 (apply_patch_route world0) = Some "pending".
Proof.
  pose proof (approve_without_diff_rejected world0
                (mk_step 1 "import logging" (Some "pending"))
                eq_refl eq_refl eq_refl) as H.
  cbv zeta in H. destruct H as (_ & He & _ & _ & Hs).
  split; [exact He|exact (Hs eq_refl)].
Defined.

(** ** Reset *)

(** C7, counterexample.  Step 1 has a draft, a review and a refined diff; the
    reset drops the first two and the refined diff is still there. *)
Lemma reset_keeps_refined_diff :
  ~ artifacts_cleared 1 (reset_step 1 world_refined)
  /\ refined_diffs (w_state (reset_step 1 world_refined)) !! 1%Z = Some "refined".
Proof.
  split; [|reflexivity].
  intros (_ & _ & H). vm_compute in H. discriminate.
Qed.

(** C7, amended.  A reset drops the draft diff and the review of the step
    from the session, makes it the active step and puts the status of the
    first step with that id back to pending in the persisted plan; a second
    reset changes nothing more. *)
Theorem reset_step_clears_and_is_idempotent (step_id : Z) (w : world) :
  let w' := reset_step step_id w in
  diffs (w_state w') !! step_id = None /\
  reviews (w_state w') !! step_id = None /\
  active_step_id (w_state w') = Some step_id /\
  (forall p s, plan_file w = Some p ->
     find (fun x => (id x =? step_id)%Z) (steps p) = Some s ->
     status_of step_id w' = Some "pending") /\
  reset_step step_id w' = w'.
Proof.
  cbv zeta. unfold reset_step. simpl.
  split; [apply lookup_delete_eq|]. split; [apply lookup_delete_eq|].
  split; [reflexivity|]. split.
  - intros p s Hp Hfind. unfold status_of. simpl. rewrite Hp. simpl.
    rewrite (StorageFacts.set_first_status_find _ _ _ _ Hfind). reflexivity.
  - f_equal.
    + unfold settle_step. simpl. rewrite !delete_delete_eq. reflexivity.
    + destruct (plan_file w) as [p|]; simpl; [|reflexivity].
      rewrite StorageFacts.set_first_status_idem. reflexivity.
Qed.

Lemma reset_step_clears_and_is_idempotent_witness :
  status_of 1 (reset_step 1 world_refined) = Some "pending"
  /\ reset_step 1 (reset_step 1 world_refined) = reset_step 1 world_refined.
Proof.
  pose proof (reset_step_clears_and_is_idempotent 1 world_refined) as H.
  cbv zeta in H. destruct H as (_ & _ & _ & Hs & Hi).
  split; [|exact Hi].
  exact (Hs plan0 (mk_step 1 "import logging" (Some "pending")) eq_refl eq_refl).
Defined.

(** ** One background job at a time *)

Lemma flash_keeps w msg err :
  plan_file (_flash msg err w) = plan_file w /\
  tree (_flash msg err w) = tree w /\
  diffs (w_state (_flash msg err w)) = diffs (w_state w) /\
  refined_diffs (w_state (_flash msg err w)) = refined_diffs (w_state w) /\
  reviews (w_state (_flash msg err w)) = reviews (w_state w) /\
  active_step_id (w_state (_flash msg err w)) = active_step_id (w_state w) /\
  bg_running (w_state (_flash msg err w)) = bg_running (w_state w).
Proof. repeat split. Qed.

Lemma bg_request_rejected r w :
  is_bg_request r = true -> bg_running (w_state w) = true ->
  rejected w (handle r w).
Proof.
  intros Hr Hbg. unfold rejected.
  destruct r; try discriminate; simpl.
  - unfold plan_local.
    destruct (match strip form_goal with
              | EmptyString => st_goal (w_state w)
              | String a s => String a s
              end).
    + eexists. split; [|reflexivity]. discriminate.
    + rewrite Hbg. eexists. split; [|reflexivity]. discriminate.
  - unfold patch_local. destruct (_active_step w).
    + rewrite Hbg. eexists. split; [|reflexivity]. discriminate.
    + eexists. split; [|reflexivity]. discriminate.
  - unfold refine_patch_route. destruct (_active_step w).
    + rewrite Hbg. eexists. split; [|reflexivity]. discriminate.
    + eexists. split; [|reflexivity]. discriminate.
  - unfold run_all. destruct (plan_file w).
    + rewrite Hbg. eexists. split; [|reflexivity]. discriminate.
    + eexists. split; [|reflexivity]. discriminate.
Qed.

Lemma handle_flag r w w' oj :
  handle r w = (w', oj) ->
  match oj with
  | None => bg_running (w_state w') = bg_running (w_state w)
  | Some _ => bg_running (w_state w) = false /\ bg_running (w_state w') = true
  end.
Proof.
  destruct r; simpl.
  - unfold plan_local.
    destruct (match strip form_goal with
              | EmptyString => st_goal (w_state w)
              | String a s => String a s
              end);
      [|destruct (bg_running (w_state w)) eqn:E];
      intros H; injection H as <- <-; simpl; auto.
  - unfold patch_local.
    destruct (_active_step w); [destruct (bg_running (w_state w)) eqn:E|];
      intros H; injection H as <- <-; simpl; auto.
  - unfold refine_patch_route.
    destruct (_active_step w);
      [destruct (bg_running (w_state w)) eqn:E;
       [|destruct (get_or_empty _ _)]|];
      intros H; injection H as <- <-; simpl; auto.
  - unfold run_all.
    destruct (plan_file w);
      [destruct (bg_running (w_state w)) eqn:E;
       [|destruct (List.filter is_pending _)]|];
      intros H; injection H as <- <-; simpl; auto.
  - intros H; injection H as <- <-. unfold apply_patch_route.
    destruct (_active_step w); [destruct (best_diff _ _)|]; reflexivity.
  - intros H; injection H as <- <-. unfold skip_step.
    destruct (_active_step w); reflexivity.
  - intros H; injection H as <- <-. reflexivity.
  - intros H; injection H as <- <-. reflexivity.
Qed.

Lemma sys_step_flag s s' :
  flag_counts_jobs s -> sys_step s s' -> flag_counts_jobs s'.
Proof.
  unfold flag_counts_jobs. intros Hinv Hstep.
  destruct Hstep as [r w jobs w' oj Hh | w jobs w' Hne Hsame | w before j after];
    simpl in *.
  - pose proof (handle_flag r w w' oj Hh) as Hf.
    rewrite length_app. destruct oj as [j|]; simpl.
    + destruct Hf as [H0 H1]. rewrite H0 in Hinv. rewrite H1. lia.
    + rewrite Hf. lia.
  - rewrite Hsame. exact Hinv.
  - rewrite length_app in *. simpl in *.
    destruct (bg_running (w_state w)); lia.
Qed.

Lemma reachable_flag init s :
  flag_counts_jobs init -> reachable init s -> flag_counts_jobs s.
Proof.
  intros Hinit Hreach. induction Hreach as [|s s' _ IH Hstep].
  - exact Hinit.
  - exact (sys_step_flag s s' IH Hstep).
Qed.

(** C8.  From a start with no job and the flag down, at most one background
    job is in flight in every reachable state; and in any world where the
    flag is up, each of the four requests that start a job (plan, patch, refine, run
    all) is answered with an error flash alone: no job is started or queued,
    and the plan, the files and the artifacts of the session are as before. *)
Theorem single_background_job (init s : system) (r : request) (w : world) :
  in_flight init = [] ->
  bg_running (w_state (sys_world init)) = false ->
  reachable init s ->
  length (in_flight s) <= 1 /\
  (is_bg_request r = true ->
   bg_running (w_state w) = true ->
   exists msg w',
     msg <> EmptyString /\
     handle r w = (w', None) /\
     w' = _flash "" msg w /\
     error (w_state w') = msg /\
     plan_file w' = plan_file w /\
     tree w' = tree w /\
     diffs (w_state w') = diffs (w_state w) /\
     refined_diffs (w_state w') = refined_diffs (w_state w) /\
     reviews (w_state w') = reviews (w_state w) /\
     bg_running (w_state w') = true).
Proof.
  intros Hjobs Hflag Hreach.
  assert (Hinv : flag_counts_jobs s).
  { apply (reachable_flag init); [|exact Hreach].
    unfold flag_counts_jobs. rewrite Hjobs, Hflag. reflexivity. }
  assert (Hle : length (in_flight s) <= 1).
  { unfold flag_counts_jobs in Hinv.
    destruct (bg_running (w_state (sys_world s))); lia. }
  split; [exact Hle|].
  intros Hr Hbg.
  destruct (bg_request_rejected r w Hr Hbg) as (msg & Hmsg & Hout).
  exists msg, (_flash "" msg w).
  split; [exact Hmsg|]. split; [exact Hout|]. split; [reflexivity|].
  split; [reflexivity|].
  destruct (flash_keeps w "" msg) as (H1 & H2 & H3 & H4 & H5 & _ & H7).
  do 5 (split; [assumption|]).
  rewrite H7. exact Hbg.
Qed.

Lemma system_busy_reachable : reachable system_idle system_busy.
Proof.
  eapply reach_step; [apply reach_init|].
  apply (step_request (PlanLocal "add logging") world_idle []).
  apply surjective_pairing.
Defined.

Lemma single_background_job_witness :
  length (in_flight system_busy) <= 1 /\
  exists msg w',
    msg <> EmptyString /\
    handle RunAll (sys_world system_busy) = (w', None) /\
    plan_file w' = Some plan0.
Proof.
  pose proof (single_background_job system_idle system_busy RunAll
                (sys_world system_busy)
                eq_refl eq_refl system_busy_reachable) as [Hle Hrej].
  split; [exact Hle|].
  destruct (Hrej eq_refl eq_refl) as (msg & w' & Hm & Hh & _ & _ & Hp & _).
  exists msg, w'. repeat split; assumption.
Defined.

End ServerFacts.

(* ===================================================================== *)
(** * Properties of the patch applier *)
(* ===================================================================== *)

Module GitOpsFacts.
Import PyStr GitOps GitOpsSpec.

Lemma py_index_None {A} (l : list A) (i : Z) :
  py_index l i = None <-> no_such_index (length l) i.
Proof.
  unfold py_index, no_such_index.
  destruct (i <? 0)%Z eqn:E.
  - apply Z.ltb_lt in E.
    destruct (i + Z.of_nat (length l) <? 0)%Z eqn:E2.
    + apply Z.ltb_lt in E2. split; [intros _; lia|reflexivity].
    + apply Z.ltb_ge in E2. split; [|lia].
      intros H. apply nth_error_None in H. lia.
  - apply Z.ltb_ge in E. split.
    + intros H. apply nth_error_None in H. lia.
    + intros H. apply nth_error_None. lia.
Qed.

Lemma py_index_in_range {A} (l : list A) (i : Z) :
  (0 <= i < Z.of_nat (length l))%Z -> py_index l i <> None.
Proof.
  intros Hi H. apply py_index_None in H. unfold no_such_index in H. lia.
Qed.








Lemma py_int_short s :
  String.length s <= int_max_str_digits -> py_int s = Some (int_of_digits s).
Proof.
  intros H. unfold py_int.
  destruct (int_max_str_digits <? String.length s) eqn:E; [|reflexivity].
  apply Nat.ltb_lt in E. lia.
Qed.

Lemma py_int_long s :
  int_max_str_digits < String.length s -> py_int s = None.
Proof.
  intros H. unfold py_int. apply Nat.ltb_lt in H. rewrite H. reflexivity.
Qed.






(** ** One file block *)

Lemma search_target_nonempty block g :
  search_target (split_lf_keep block) = Some g -> block <> EmptyString.
Proof. intros H ->. discriminate. Qed.

Section Block.
Variable target_of : string -> string.
Variables read_error write_error : fs -> string -> option string.

(** a block with a target and hunks, once the target is read *)
Lemma apply_block_unfold block st g h0 hs :
  search_target (split_lf_keep (strip block)) = Some g ->
  strip g <> "/dev/null" ->
  find_hunks (split_lf_keep (strip block)) = h0 :: hs ->
  read_error (a_fs st) (target_of (strip g)) = None ->
  apply_block target_of read_error write_error block st =
  match patched_lines
          match a_fs st !! target_of (strip g) with
          | Some content => readlines content
          | None => []
          end (h0 :: hs) with
  | IndexError text =>
      {| a_fs := a_fs st; applied := applied st;
         errors := errors st ++ [strip g +:+ ": hunk mismatch — " +:+ text];
         raised := raised st |}
  | Uncaught e => raise e st
  | Passed new_lines =>
      match write_error (a_fs st) (target_of (strip g)) with
      | Some text => raise (OSError text) st
      | None =>
          {| a_fs := <[target_of (strip g) := concat new_lines]> (a_fs st);
             applied := applied st ++ [strip g];
             errors := errors st;
             raised := raised st |}
      end
  end.
Proof.
  intros Hg Hdev Hh Hread. unfold apply_block.
  pose proof (search_target_nonempty _ _ Hg) as Hne.
  destruct (strip block) as [|c b] eqn:Eb; [contradiction|].
  rewrite Hg.
  destruct (String.eqb (strip g) "/dev/null") eqn:Ed;
    [apply String.eqb_eq in Ed; contradiction|].
  rewrite Hread, Hh. reflexivity.
Qed.

End Block.




(** C5.  The pair returned by the Python applier is computed from the files
    written and the errors recorded: it reports success exactly when at least
    one file was written and no error was recorded; any error gives failure
    with the list of errors in the message; nothing written and no error
    gives failure with the "empty or already applied" message.  (A run that
    an exception ends returns no pair.) *)
Theorem python_applier_result (target_of : string -> string)
        (read_error write_error : fs -> string -> option string)
        (oserror : string)
        (patch_file : string) (files : fs) (content : string) :
  files !! patch_file = Some content ->
  let st := apply_patch_text target_of read_error write_error
              (read_text content) files in
  let out := _apply_patch_python target_of read_error write_error
               oserror patch_file files in
  out = (a_fs st, end_of st) /\
  (raised st = None -> snd out = Returns (patch_result st)) /\
  ((exists msg, snd out = Returns (true, msg)) <->
   raised st = None /\ applied st <> [] /\ errors st = []) /\
  (raised st = None -> errors st <> [] ->
   snd out = Returns (false, "Patch errors:" +:+ nl +:+ join nl (errors st))) /\
  (raised st = None -> applied st = [] -> errors st = [] ->
   snd out =
   Returns
     (false, "No files were changed — patch may be empty or already applied.")).
Proof.
  intros Hf. cbv zeta. unfold _apply_patch_python. rewrite Hf. simpl.
  split; [reflexivity|]. unfold end_of, patch_result.
  destruct (raised _) as [e|].
  { split; [discriminate|]. split; [|split; discriminate].
    split; [intros [msg H]; discriminate|intros [H _]; discriminate]. }
  split; [reflexivity|].
  destruct (errors _) as [|e es]; destruct (applied _) as [|a al]; simpl.
  - split; [|split]; [split; [intros [msg H]; discriminate
                             |intros (_ & H & _); contradiction]
                     |intros _ H; contradiction|reflexivity].
  - split; [|split];
      [split; [intros _; repeat split; discriminate|intros _; eexists; reflexivity]
      |intros _ H; contradiction|discriminate].
  - split; [|split]; [split; [intros [msg H]; discriminate
                             |intros (_ & _ & H); discriminate]
                     |reflexivity|discriminate].
  - split; [|split]; [split; [intros [msg H]; discriminate
                             |intros (_ & _ & H); discriminate]
                     |reflexivity|discriminate].
Qed.

(** the two-file scenario: A is written, B is an error, the result is a
    failure that reports the error of B *)
Lemma python_applier_result_witness :
  let files := <[patch_file_ab := patch_ab]> tree_ab in
  let st := run_applier (read_text patch_ab) files in
  applied st = ["A.py"] /\
  errors st = ["B.py: hunk mismatch — list index out of range"] /\
  a_fs st !! "A.py"
    = Some ("import os" +:+ nl +:+ "import logging" +:+ nl +:+ "import json" +:+ nl) /\
  a_fs st !! "B.py" = tree_ab !! "B.py" /\
  snd (_apply_patch_python (fun p => p) no_os_error no_os_error
         "" patch_file_ab files)
  = Returns (false, "Patch errors:" +:+ nl
                    +:+ "B.py: hunk mismatch — list index out of range").
Proof.
  cbv zeta.
  destruct (python_applier_result (fun p => p) no_os_error no_os_error
              "" patch_file_ab
              (<[patch_file_ab := patch_ab]> tree_ab) patch_ab
              ltac:(apply lookup_insert_eq))
    as (_ & _ & _ & Herr & _).
  split; [vm_compute; reflexivity|]. split; [vm_compute; reflexivity|].
  split; [vm_compute; reflexivity|]. split; [vm_compute; reflexivity|].
  rewrite Herr; [vm_compute; reflexivity|vm_compute; reflexivity|].
  vm_compute. discriminate.
Defined.

End GitOpsFacts.

(* ===================================================================== *)
(** * Properties of the review parser *)
(* ===================================================================== *)

Module ReviewerFacts.
Import PyStr Reviewer ReviewerSpec.

Section Facts.

Variable json_loads : string -> loaded.

Variable py_str : json -> string.

Lemma normal_verdict_ok v : is_verdict (normal_verdict v).
Proof.
  unfold normal_verdict, is_verdict.
  destruct (String.eqb v "approve") eqn:E1;
    [apply String.eqb_eq in E1; auto|].
  destruct (String.eqb v "concerns") eqn:E2;
    [apply String.eqb_eq in E2; auto|].
  destruct (String.eqb v "reject") eqn:E3;
    [apply String.eqb_eq in E3; auto|].
  simpl. auto.
Qed.

(** whenever a review is returned, its verdict is one of the three *)
Lemma parse_review_verdict raw r :
  _parse_review json_loads py_str raw = Ok r -> is_verdict (verdict r).
Proof.
  assert (Htext : forall r0, parse_text_review raw = Ok r0 -> is_verdict (verdict r0)).
  { unfold parse_text_review. intros r0.
    destruct (search_summary raw); [|destruct (splitlines raw)];
      try discriminate; intros H; injection H as <-; simpl;
      unfold is_verdict;
      destruct (search_word "reject" false raw);
      destruct (search_word "approve" false raw); auto. }
  unfold _parse_review.
  destruct (search_braces _) as [group|]; [|apply Htext].
  unfold parse_json_review.
  destruct (json_loads group) as [[| | | | |data]| | |]; try discriminate;
    try apply Htext.
  destruct (iter_issues data); [|apply Htext].
  intros H. injection H as <-. simpl. apply normal_verdict_ok.
Qed.

(** C9.  The parser does not return a review for every answer: on the empty
    answer (what the transport returns when the model says nothing) the text
    fallback indexes the first line of no lines and raises [IndexError]; and
    on a line of dashes the fallback returns an issue that is the empty
    string, the filter of the JSON branch being absent there. *)
Theorem parse_review_fails_on_empty_answer :
  _parse_review json_loads py_str "" = Raise IndexError /\
  exists r, _parse_review json_loads py_str "-----" = Ok r /\
            issues r = [EmptyString].
Proof.
  split; [reflexivity|].
  eexists. split; reflexivity.
Qed.

End Facts.

End ReviewerFacts.

(* ===================================================================== *)
(** * Properties of the diff extractor and of the sanitizer *)
(* ===================================================================== *)

Module LocalPatcherFacts.
Import PyStr LocalPatcher LocalPatcherSpec.

(** ** Strings *)

Lemma str_app_cons (x : ascii) (a b : string) :
  String x a +:+ b = String x (a +:+ b).
Proof. reflexivity. Qed.

Lemma str_app_nil_l (a : string) : "" +:+ a = a.
Proof. reflexivity. Qed.

Lemma str_app_assoc (a b c : string) : (a +:+ b) +:+ c = a +:+ (b +:+ c).
Proof.
  induction a as [|x a IH]; [reflexivity|].
  rewrite !str_app_cons, IH. reflexivity.
Qed.

Lemma str_app_nil_r (a : string) : a +:+ "" = a.
Proof.
  induction a as [|x a IH]; [reflexivity|].
  rewrite str_app_cons, IH. reflexivity.
Qed.

Lemma str_app_length (a b : string) :
  String.length (a +:+ b) = String.length a + String.length b.
Proof.
  induction a as [|x a IH]; [reflexivity|].
  rewrite str_app_cons. simpl. rewrite IH. reflexivity.
Qed.

(** induction on a string two characters at a time *)
Lemma string_pair_ind (P : string -> Prop) :
  P EmptyString ->
  (forall c s, P s -> (forall c2 s2, s = String c2 s2 -> P s2) -> P (String c s)) ->
  forall s, P s.
Proof.
  intros H0 Hs s.
  assert (H : P s /\ (forall c2 s2, s = String c2 s2 -> P s2)).
  { induction s as [|c s [IH1 IH2]].
    - split; [exact H0|discriminate].
    - split; [apply Hs; assumption|].
      intros c2 s2 Heq. injection Heq as _ <-. exact IH1. }
  exact (proj1 H).
Qed.

Lemma concat_app (l1 l2 : list string) :
  concat (l1 ++ l2) = concat l1 +:+ concat l2.
Proof.
  induction l1 as [|x l1 IH]; simpl; [reflexivity|].
  rewrite IH. symmetry. apply str_app_assoc.
Qed.

(** the lines of [splitlines(keepends=True)] put together give the text back *)
Lemma concat_splitlines_keep (t : string) : concat (splitlines_keep t) = t.
Proof.
  induction t as [|c rest IH IH2] using string_pair_ind; [reflexivity|].
  simpl. destruct (is_linebreak c).
  - destruct (Ascii.eqb c CR) eqn:Ec.
    + apply Ascii.eqb_eq in Ec. subst c.
      destruct rest as [|c2 rest2]; [reflexivity|].
      destruct (Ascii.eqb c2 LF) eqn:E2.
      * apply Ascii.eqb_eq in E2. subst c2. simpl.
        rewrite !str_app_cons, str_app_nil_l, (IH2 _ _ eq_refl). reflexivity.
      * assert (Hne : c2 <> LF) by (apply Ascii.eqb_neq; exact E2).
        replace (match c2 with
                 | "010"%char => String CR (String LF "") :: splitlines_keep rest2
                 | _ => String CR "" :: splitlines_keep (String c2 rest2)
                 end)
          with (String CR "" :: splitlines_keep (String c2 rest2)).
        -- simpl concat. simpl in IH.
           rewrite str_app_cons, str_app_nil_l, IH. reflexivity.
        -- destruct c2 as [[] [] [] [] [] [] [] []]; try reflexivity.
           exfalso. apply Hne. reflexivity.
    + simpl. rewrite str_app_cons, str_app_nil_l, IH. reflexivity.
  - destruct (splitlines_keep rest) as [|l ls] eqn:E.
    + simpl in *. subst rest. reflexivity.
    + simpl in *. rewrite str_app_cons, IH. reflexivity.
Qed.

Lemma repair_lines_id lines :
  needs_repair lines = false -> repair_lines lines = lines.
Proof.
  induction lines as [|line rest IH]; [reflexivity|].
  simpl. intros H. apply orb_false_iff in H as [H1 H2].
  rewrite (IH H2). f_equal.
  destruct (repair_match (rstrip_eol line)); [|reflexivity].
  simpl in H1. rewrite H1. reflexivity.
Qed.

Lemma find_header_spec lines :
  match find_header lines with
  | Some d =>
      exists pre suf,
        lines = pre ++ suf /\ header_pair_at suf = true /\
        (forall k, k < length pre -> header_pair_at (drop k lines) = false) /\
        d = concat suf
  | None => forall k, header_pair_at (drop k lines) = false
  end.
Proof.
  induction lines as [|l rest IH].
  - simpl. intros k. destruct k; reflexivity.
  - unfold find_header; fold find_header.
    destruct (header_pair_at (l :: rest)) eqn:E.
    + exists [], (l :: rest). split; [reflexivity|]. split; [exact E|].
      split; [|reflexivity]. simpl. intros k Hk. lia.
    + destruct (find_header rest) as [d|].
      * destruct IH as (pre & suf & -> & Hp & Hk & ->).
        exists (l :: pre), suf. split; [reflexivity|]. split; [exact Hp|].
        split; [|reflexivity]. intros [|k] Hlt; [exact E|].
        simpl. apply Hk. simpl in Hlt. lia.
      * intros [|k]; [exact E|]. simpl. apply IH.
Qed.

(** what the extractor returns, on the text as Steps 1 and 2 leave it *)
Lemma extract_diff_prepared text :
  let prepared := strip_outer_fence (concat (repair_lines (splitlines_keep text))) in
  let lines := splitlines_keep prepared in
  match _extract_diff text with
  | Some d =>
      exists pre suf,
        lines = pre ++ suf /\ header_pair_at suf = true /\
        (forall k, k < length pre -> header_pair_at (drop k lines) = false) /\
        d = concat suf /\ prepared = concat pre +:+ d
  | None => forall k, header_pair_at (drop k lines) = false
  end.
Proof.
  cbv zeta. unfold _extract_diff.
  set (prepared := strip_outer_fence _).
  pose proof (find_header_spec (splitlines_keep prepared)) as H.
  destruct (find_header (splitlines_keep prepared)) as [d|]; [|exact H].
  destruct H as (pre & suf & Hl & Hp & Hk & ->).
  exists pre, suf. repeat split; try assumption.
  rewrite <- concat_app, <- Hl. symmetry. apply concat_splitlines_keep.
Qed.

(** C4, counterexample.  A pair of headers with other path prefixes is
    accepted although the text has no a/ b/ pair; a fenced answer with CR LF
    line ends comes back with LF line ends and without its last line end,
    which is no part of the input; a one-dash header is repaired and
    accepted. *)
Lemma extract_differs_from_specified :
  ~ extract_as_specified text_other_prefix
  /\ from_strict_pair (splitlines_keep text_other_prefix) = None
  /\ _extract_diff text_other_prefix = Some text_other_prefix
  /\ ~ extract_as_specified text_fenced_crlf
  /\ _extract_diff text_fenced_crlf
     = Some ("--- a/app.py" +:+ nl +:+ "+++ b/app.py" +:+ nl +:+ "@@ -1 +1 @@"
             +:+ nl +:+ "-x" +:+ nl +:+ "+y")
  /\ ~ extract_as_specified text_one_dash
  /\ from_strict_pair (splitlines_keep text_one_dash) = None.
Proof.
  unfold extract_as_specified.
  repeat split; try (vm_compute; reflexivity);
    intros H; vm_compute in H; discriminate.
Qed.

Lemma all_chars_app f a b :
  all_chars f (a +:+ b) = all_chars f a && all_chars f b.
Proof.
  induction a as [|x a IH]; [reflexivity|].
  rewrite str_app_cons. simpl. rewrite IH, andb_assoc. reflexivity.
Qed.

Lemma all_chars_weaken (f g : ascii -> bool) s :
  (forall c, f c = true -> g c = true) ->
  all_chars f s = true -> all_chars g s = true.
Proof.
  intros Hfg. induction s as [|c s IH]; [reflexivity|].
  simpl. intros H. apply andb_true_iff in H as [H1 H2].
  rewrite (Hfg _ H1), (IH H2). reflexivity.
Qed.

Lemma span_chars_spec f s :
  s = fst (span_chars f s) +:+ snd (span_chars f s) /\
  all_chars f (fst (span_chars f s)) = true /\
  starts_not f (snd (span_chars f s)).
Proof.
  induction s as [|c s (IH1 & IH2 & IH3)]; [repeat split|].
  simpl. destruct (f c) eqn:E.
  - destruct (span_chars f s) as [x y]. simpl in *.
    rewrite str_app_cons, <- IH1, E, IH2. repeat split. exact IH3.
  - simpl. repeat split. exact E.
Qed.

Lemma span_chars_app f a b :
  all_chars f a = true -> starts_not f b -> span_chars f (a +:+ b) = (a, b).
Proof.
  induction a as [|x a IH]; intros Ha Hb.
  - rewrite str_app_nil_l. destruct b as [|c b]; [reflexivity|].
    simpl in *. rewrite Hb. reflexivity.
  - rewrite str_app_cons. simpl in *. apply andb_true_iff in Ha as [H1 H2].
    rewrite H1, (IH H2 Hb). reflexivity.
Qed.

Lemma span_chars_all g f s :
  all_chars g s = true ->
  all_chars g (fst (span_chars f s)) = true /\
  all_chars g (snd (span_chars f s)) = true.
Proof.
  intros H. destruct (span_chars_spec f s) as (Hs & _ & _).
  rewrite Hs, all_chars_app in H. apply andb_true_iff in H. exact H.
Qed.

Lemma strip_prefix_app p s : strip_prefix p (p +:+ s) = Some s.
Proof.
  induction p as [|c p IH]; [destruct s; reflexivity|].
  rewrite str_app_cons. simpl. rewrite Ascii.eqb_refl. exact IH.
Qed.

Lemma strip_prefix_spec p s r : strip_prefix p s = Some r -> s = p +:+ r.
Proof.
  revert s. induction p as [|c p IH]; intros s H.
  - destruct s; injection H as <-; reflexivity.
  - destruct s as [|d s]; [discriminate|]. simpl in H.
    destruct (Ascii.eqb c d) eqn:E; [|discriminate].
    apply Ascii.eqb_eq in E. subst d. rewrite (IH _ H). reflexivity.
Qed.

Lemma startswith_app s p : startswith (p +:+ s) p = true.
Proof.
  induction p as [|c p IH]; [destruct s; reflexivity|].
  rewrite str_app_cons. simpl. rewrite Ascii.eqb_refl. exact IH.
Qed.

Lemma startswith_app_l s t p :
  startswith s p = true -> startswith (s +:+ t) p = true.
Proof.
  revert s. induction p as [|c p IH]; intros s H; [destruct (s +:+ t); reflexivity|].
  destruct s as [|d s]; [discriminate|]. rewrite str_app_cons. simpl in *.
  apply andb_true_iff in H as [H1 H2]. rewrite H1. apply IH. exact H2.
Qed.

Lemma strip_prefix_all g p s r :
  strip_prefix p s = Some r -> all_chars g s = true -> all_chars g r = true.
Proof.
  intros H Hs. apply strip_prefix_spec in H. subst s.
  rewrite all_chars_app in Hs. apply andb_true_iff in Hs. tauto.
Qed.

(** *** Decimal numerals *)

Lemma string_of_uint_digits d :
  all_chars isdigit (NilEmpty.string_of_uint d) = true.
Proof. induction d; simpl; try assumption; reflexivity. Qed.

Lemma str_of_nat_digits n : all_chars isdigit (str_of_nat n) = true.
Proof.
  unfold str_of_nat, NilZero.string_of_uint.
  destruct (Nat.to_uint n); try reflexivity;
    apply (string_of_uint_digits (_ _)).
Qed.

Lemma str_of_nat_nonempty n : str_of_nat n <> EmptyString.
Proof.
  unfold str_of_nat, NilZero.string_of_uint.
  destruct (Nat.to_uint n); simpl; discriminate.
Qed.

Lemma digits_clean s : all_chars isdigit s = true -> clean s.
Proof.
  apply all_chars_weaken. intros c Hc.
  destruct c as [[] [] [] [] [] [] [] []]; try discriminate Hc; reflexivity.
Qed.

Lemma digits_no_lf s :
  all_chars isdigit s = true ->
  all_chars (fun c => negb (Ascii.eqb c LF)) s = true.
Proof.
  apply all_chars_weaken. intros c Hc.
  destruct c as [[] [] [] [] [] [] [] []]; try discriminate Hc; reflexivity.
Qed.

Lemma skip_opt_count_eq s :
  skip_opt_count s =
  match s with
  | EmptyString => s
  | String c s' =>
      if Ascii.eqb c "," then
        match span_chars isdigit s' with
        | (EmptyString, _) => s
        | (_, r) => r
        end
      else s
  end.
Proof.
  destruct s as [|c s']; [reflexivity|].
  destruct c as [[] [] [] [] [] [] [] []]; reflexivity.
Qed.

Lemma skip_opt_count_all g s :
  all_chars g s = true -> all_chars g (skip_opt_count s) = true.
Proof.
  intros H. rewrite skip_opt_count_eq. destruct s as [|c s']; [exact H|].
  destruct (Ascii.eqb c ","); [|exact H].
  simpl in H. apply andb_true_iff in H as [Hc H].
  pose proof (span_chars_all g isdigit s' H) as [_ H2].
  destruct (span_chars isdigit s') as [[|d ds] r]; simpl in *;
    [rewrite Hc, H; reflexivity|exact H2].
Qed.

(** [,digits] in front of something that is no digit is skipped whole *)
Lemma skip_opt_count_app ds rest :
  all_chars isdigit ds = true -> ds <> EmptyString ->
  starts_not isdigit rest ->
  skip_opt_count ("," +:+ ds +:+ rest) = rest.
Proof.
  intros Hd Hne Hr. rewrite skip_opt_count_eq, str_app_cons, str_app_nil_l.
  simpl Ascii.eqb. cbv iota. rewrite (span_chars_app _ _ _ Hd Hr).
  destruct ds; [contradiction|reflexivity].
Qed.

Lemma upto_lf_id s : no_lf s -> upto_lf s = s.
Proof.
  intros H. unfold upto_lf.
  rewrite <- (str_app_nil_r s) at 1.
  rewrite (span_chars_app _ s EmptyString H I). reflexivity.
Qed.

Lemma parse_hunk_header_some line os ns tail :
  parse_hunk_header line = Some (os, ns, tail) ->
  startswith line "@@" = true /\
  all_chars isdigit os = true /\ os <> EmptyString /\
  all_chars isdigit ns = true /\ ns <> EmptyString /\
  no_lf tail /\
  (forall g, all_chars g line = true -> all_chars g tail = true).
Proof.
  unfold parse_hunk_header.
  destruct (strip_prefix "@@ -" line) as [r1|] eqn:E1; [|discriminate].
  pose proof (span_chars_spec isdigit r1) as (_ & Hd1 & _).
  pose proof (fun g => span_chars_all g isdigit r1) as Ha1.
  destruct (span_chars isdigit r1) as [[|c1 o1] r2]; [discriminate|].
  destruct (strip_prefix " +" (skip_opt_count r2)) as [r4|] eqn:E4; [|discriminate].
  pose proof (span_chars_spec isdigit r4) as (_ & Hd4 & _).
  pose proof (fun g => span_chars_all g isdigit r4) as Ha4.
  destruct (span_chars isdigit r4) as [[|c4 o4] r5]; [discriminate|].
  destruct (strip_prefix " @@" (skip_opt_count r5)) as [r7|] eqn:E7; [|discriminate].
  intros H. injection H as <- <- <-. simpl fst in *. simpl snd in *.
  split.
  { apply strip_prefix_spec in E1. subst line. reflexivity. }
  split; [exact Hd1|]. split; [discriminate|].
  split; [exact Hd4|]. split; [discriminate|].
  split.
  { unfold no_lf, upto_lf.
    exact (proj1 (proj2 (span_chars_spec _ r7))). }
  intros g Hg.
  apply (strip_prefix_all g _ _ _ E1) in Hg.
  apply Ha1 in Hg as [_ Hg]. apply skip_opt_count_all in Hg.
  apply (strip_prefix_all g _ _ _ E4) in Hg.
  apply Ha4 in Hg as [_ Hg]. apply skip_opt_count_all in Hg.
  apply (strip_prefix_all g _ _ _ E7) in Hg.
  unfold upto_lf. exact (proj1 (span_chars_all g _ r7 Hg)).
Qed.

(** the header the sanitizer prints parses back to what it was printed from *)
Lemma parse_format_header os oc ns nc tail :
  all_chars isdigit os = true -> os <> EmptyString ->
  all_chars isdigit ns = true -> ns <> EmptyString ->
  no_lf tail ->
  parse_hunk_header (format_header os oc ns nc tail) = Some (os, ns, tail).
Proof.
  intros Hos Hos0 Hns Hns0 Htail.
  unfold parse_hunk_header, format_header.
  rewrite strip_prefix_app.
  rewrite (span_chars_app isdigit os _ Hos);
    [|rewrite str_app_cons; reflexivity].
  destruct os as [|c o]; [contradiction|].
  rewrite (skip_opt_count_app _ _ (str_of_nat_digits oc) (str_of_nat_nonempty oc));
    [|rewrite str_app_cons; reflexivity].
  rewrite strip_prefix_app.
  rewrite (span_chars_app isdigit ns _ Hns);
    [|rewrite str_app_cons; reflexivity].
  destruct ns as [|c' n]; [contradiction|].
  rewrite (skip_opt_count_app _ _ (str_of_nat_digits nc) (str_of_nat_nonempty nc));
    [|rewrite str_app_cons; reflexivity].
  rewrite strip_prefix_app, (upto_lf_id _ Htail). reflexivity.
Qed.

Lemma format_header_starts os oc ns nc tail :
  startswith (format_header os oc ns nc tail) "@@" = true.
Proof. unfold format_header. rewrite !str_app_cons. reflexivity. Qed.

Lemma rewrite_header_idem line body body' :
  rewrite_header (rewrite_header line body) body' = rewrite_header line body'.
Proof.
  unfold rewrite_header.
  destruct (parse_hunk_header line) as [[[os ns] tail]|] eqn:E; [|rewrite E; reflexivity].
  destruct (parse_hunk_header_some _ _ _ _ E) as (_ & H1 & H2 & H3 & H4 & H5 & _).
  rewrite (parse_format_header _ _ _ _ _ H1 H2 H3 H4 H5). reflexivity.
Qed.

Lemma rewrite_header_starts line body :
  startswith (rewrite_header line body) "@@" = startswith line "@@".
Proof.
  unfold rewrite_header.
  destruct (parse_hunk_header line) as [[[os ns] tail]|] eqn:E; [|reflexivity].
  destruct (parse_hunk_header_some _ _ _ _ E) as (-> & _).
  apply format_header_starts.
Qed.

Lemma rewrite_header_in_body line body :
  in_hunk_body (rewrite_header line body) = in_hunk_body line.
Proof.
  unfold in_hunk_body. rewrite rewrite_header_starts.
  destruct (startswith line "@@") eqn:E; [reflexivity|].
  unfold rewrite_header.
  destruct (parse_hunk_header line) as [[[os ns] tail]|] eqn:E2; [|reflexivity].
  destruct (parse_hunk_header_some _ _ _ _ E2) as (H & _). congruence.
Qed.

Lemma rewrite_header_counts line body body' :
  orig_count body = orig_count body' -> new_count body = new_count body' ->
  rewrite_header line body = rewrite_header line body'.
Proof. unfold rewrite_header. intros -> ->. reflexivity. Qed.

Lemma rewrite_header_clean line body :
  clean line -> clean (rewrite_header line body).
Proof.
  intros Hc. unfold rewrite_header.
  destruct (parse_hunk_header line) as [[[os ns] tail]|] eqn:E; [|exact Hc].
  destruct (parse_hunk_header_some _ _ _ _ E) as (_ & H1 & _ & H3 & _ & _ & Hg).
  unfold clean, format_header. rewrite !all_chars_app.
  rewrite (digits_clean _ H1), (digits_clean _ H3),
    (digits_clean _ (str_of_nat_digits _)), (digits_clean _ (str_of_nat_digits _)),
    (Hg _ Hc).
  reflexivity.
Qed.

Lemma rewrite_header_blank line body :
  is_blank (rewrite_header line body) = is_blank line.
Proof.
  unfold rewrite_header.
  destruct (parse_hunk_header line) as [[[os ns] tail]|] eqn:E; [|reflexivity].
  destruct (parse_hunk_header_some _ _ _ _ E) as (H & _).
  destruct line; [discriminate|].
  unfold format_header. rewrite str_app_cons. reflexivity.
Qed.

Lemma in_hunk_body_not_header l : in_hunk_body l = true -> startswith l "@@" = false.
Proof.
  unfold in_hunk_body. destruct (startswith l "@@"); [discriminate|reflexivity].
Qed.

Lemma sanitize_map_split rest :
  sanitize_map rest = take_body rest ++ sanitize_map (drop_body rest).
Proof.
  induction rest as [|l r IH]; [reflexivity|].
  simpl. destruct (in_hunk_body l) eqn:E; [|reflexivity].
  rewrite (in_hunk_body_not_header _ E), IH at 1. reflexivity.
Qed.

Lemma sanitize_lines_map lines : sanitize_lines lines = sanitize_map lines.
Proof.
  funelim (sanitize_lines lines).
  - reflexivity.
  - simpl. rewrite Heq. f_equal.
    rewrite (sanitize_map_split rest). f_equal. assumption.
  - simpl. rewrite Heq. f_equal. assumption.
Qed.

Lemma sanitize_map_length lines : length (sanitize_map lines) = length lines.
Proof. induction lines as [|l r IH]; simpl; congruence. Qed.

Lemma sanitize_map_take_body lines :
  take_body (sanitize_map lines) = take_body lines.
Proof.
  induction lines as [|l r IH]; [reflexivity|].
  simpl. destruct (startswith l "@@") eqn:E.
  - rewrite rewrite_header_in_body.
    unfold in_hunk_body. rewrite E. reflexivity.
  - destruct (in_hunk_body l); [rewrite IH|]; reflexivity.
Qed.

Lemma sanitize_map_idem lines :
  sanitize_map (sanitize_map lines) = sanitize_map lines.
Proof.
  induction lines as [|l r IH]; [reflexivity|].
  simpl. rewrite IH. f_equal.
  destruct (startswith l "@@") eqn:E; [|rewrite E; reflexivity].
  rewrite rewrite_header_starts, E, sanitize_map_take_body.
  apply rewrite_header_idem.
Qed.

Lemma counts_snoc_blank body :
  orig_count (body ++ [EmptyString]) = orig_count body /\
  new_count (body ++ [EmptyString]) = new_count body.
Proof.
  unfold orig_count, new_count. rewrite !List.filter_app, !length_app.
  simpl. lia.
Qed.

Lemma take_body_snoc_blank lines :
  take_body (lines ++ [EmptyString]) = take_body lines \/
  take_body (lines ++ [EmptyString]) = take_body lines ++ [EmptyString].
Proof.
  induction lines as [|l r IH]; [right; reflexivity|].
  simpl. destruct (in_hunk_body l); [|left; reflexivity].
  destruct IH as [-> | ->]; [left|right]; reflexivity.
Qed.

Lemma sanitize_map_snoc_blank lines :
  sanitize_map (lines ++ [EmptyString]) = sanitize_map lines ++ [EmptyString].
Proof.
  induction lines as [|l r IH]; [reflexivity|].
  simpl. rewrite IH. f_equal.
  destruct (startswith l "@@"); [|reflexivity].
  destruct (take_body_snoc_blank r) as [-> | ->]; [reflexivity|].
  apply rewrite_header_counts; apply counts_snoc_blank.
Qed.

Lemma sanitize_map_blank lines :
  map is_blank (sanitize_map lines) = map is_blank lines.
Proof.
  induction lines as [|l r IH]; [reflexivity|].
  simpl. rewrite IH. f_equal.
  destruct (startswith l "@@"); [apply rewrite_header_blank|reflexivity].
Qed.

Lemma sanitize_map_clean lines :
  Forall clean lines -> Forall clean (sanitize_map lines).
Proof.
  induction 1 as [|l r Hl _ IH]; [constructor|].
  simpl. constructor; [|exact IH].
  destruct (startswith l "@@"); [apply rewrite_header_clean|]; exact Hl.
Qed.

Lemma sanitize_map_lookup lines i :
  sanitize_map lines !! i =
  match lines !! i with
  | Some l =>
      Some (if startswith l "@@"
            then rewrite_header l (take_body (drop (S i) lines)) else l)
  | None => None
  end.
Proof.
  revert i. induction lines as [|l r IH]; intros i; [reflexivity|].
  destruct i as [|i]; [reflexivity|]. simpl. apply IH.
Qed.

(** *** Lines and text *)

Lemma splitlines_cons c rest :
  splitlines (String c rest) =
  if is_linebreak c then
    if Ascii.eqb c CR then
      match rest with
      | String c2 rest' =>
          if Ascii.eqb c2 LF then EmptyString :: splitlines rest'
          else EmptyString :: splitlines rest
      | EmptyString => EmptyString :: splitlines rest
      end
    else EmptyString :: splitlines rest
  else
    match splitlines rest with
    | [] => [String c EmptyString]
    | l :: ls => String c l :: ls
    end.
Proof.
  simpl. destruct (is_linebreak c); [|reflexivity].
  destruct (Ascii.eqb c CR); [|reflexivity].
  destruct rest as [|c2 rest']; [reflexivity|].
  destruct c2 as [[] [] [] [] [] [] [] []]; reflexivity.
Qed.

Lemma splitlines_clean s : Forall clean (splitlines s).
Proof.
  induction s as [|c rest IH IH2] using string_pair_ind; [constructor|].
  rewrite splitlines_cons. destruct (is_linebreak c) eqn:Eb.
  - destruct (Ascii.eqb c CR).
    + destruct rest as [|c2 rest']; [constructor; [reflexivity|exact IH]|].
      destruct (Ascii.eqb c2 LF).
      * constructor; [reflexivity|]. exact (IH2 _ _ eq_refl).
      * constructor; [reflexivity|exact IH].
    + constructor; [reflexivity|exact IH].
  - destruct (splitlines rest) as [|l ls].
    + constructor; [|constructor]. unfold clean. simpl. rewrite Eb. reflexivity.
    + inversion IH as [|? ? Hl Hls]; subst. constructor; [|exact Hls].
      unfold clean in *. simpl. rewrite Eb, Hl. reflexivity.
Qed.

Lemma splitlines_line_nl l s :
  clean l -> splitlines (l +:+ nl +:+ s) = l :: splitlines s.
Proof.
  induction l as [|c l IH]; intros Hc.
  - rewrite str_app_nil_l. unfold nl. rewrite str_app_cons, str_app_nil_l.
    rewrite splitlines_cons. reflexivity.
  - unfold clean in Hc. simpl in Hc. apply andb_true_iff in Hc as [Hc1 Hc2].
    rewrite str_app_cons, splitlines_cons.
    destruct (is_linebreak c); [discriminate|].
    rewrite (IH Hc2). reflexivity.
Qed.

Lemma join_cons sep x y r :
  join sep (x :: y :: r) = x +:+ sep +:+ join sep (y :: r).
Proof. reflexivity. Qed.

Lemma join_snoc pre x :
  pre <> [] -> join nl (pre ++ [x]) = join nl pre +:+ nl +:+ x.
Proof.
  induction pre as [|a pre IH]; [contradiction|]. intros _.
  destruct pre as [|b pre]; [reflexivity|].
  change ((a :: b :: pre) ++ [x]) with (a :: (b :: pre) ++ [x]).
  change ((b :: pre) ++ [x]) with (b :: (pre ++ [x])) at 1.
  rewrite join_cons.
  change (b :: (pre ++ [x])) with ((b :: pre) ++ [x]).
  rewrite IH by discriminate. rewrite join_cons, !str_app_assoc. reflexivity.
Qed.

Lemma splitlines_join_nl lines :
  Forall clean lines -> lines <> [] -> splitlines (join nl lines +:+ nl) = lines.
Proof.
  induction 1 as [|x r Hx Hr IH]; [contradiction|]. intros _.
  destruct r as [|y r].
  - simpl join. rewrite <- (str_app_nil_r nl), (splitlines_line_nl _ _ Hx).
    reflexivity.
  - rewrite join_cons, !str_app_assoc, (splitlines_line_nl _ _ Hx).
    rewrite IH by discriminate. reflexivity.
Qed.

Lemma clean_no_cr s : clean s -> no_cr s.
Proof.
  apply all_chars_weaken. intros c Hc.
  destruct c as [[] [] [] [] [] [] [] []]; try discriminate Hc; reflexivity.
Qed.

Lemma join_no_cr lines : Forall clean lines -> no_cr (join nl lines +:+ nl).
Proof.
  unfold no_cr. induction 1 as [|x r Hx Hr IH]; [reflexivity|].
  destruct r as [|y r].
  - simpl join. rewrite all_chars_app, (clean_no_cr _ Hx). reflexivity.
  - rewrite join_cons, !str_app_assoc, all_chars_app, (clean_no_cr _ Hx).
    rewrite all_chars_app. simpl andb. exact IH.
Qed.

Lemma normalize_newlines_id s : no_cr s -> normalize_newlines s = s.
Proof.
  unfold normalize_newlines, no_cr. intros H.
  assert (H1 : replace_crlf s = s).
  { induction s as [|c s IH]; [reflexivity|].
    simpl in *. apply andb_true_iff in H as [Hc Hs].
    destruct (Ascii.eqb c CR); [discriminate|]. rewrite (IH Hs). reflexivity. }
  rewrite H1. clear H1.
  induction s as [|c s IH]; [reflexivity|].
  simpl in *. apply andb_true_iff in H as [Hc Hs].
  destruct (Ascii.eqb c CR); [discriminate|]. rewrite (IH Hs). reflexivity.
Qed.

Lemma endswith_app_nl s : endswith (s +:+ nl) nl = true.
Proof.
  induction s as [|c s IH]; [reflexivity|].
  rewrite str_app_cons. simpl. rewrite IH. apply orb_true_r.
Qed.

Lemma endswith_app_clean a x :
  clean x -> x <> EmptyString -> endswith (a +:+ x) nl = false.
Proof.
  intros Hc Hne. induction a as [|c a IH].
  - rewrite str_app_nil_l. clear Hne.
    induction x as [|c x IH]; [reflexivity|].
    unfold clean in Hc. simpl in Hc. apply andb_true_iff in Hc as [Hc1 Hc2].
    simpl. rewrite (IH Hc2), orb_false_r.
    destruct (Ascii.eqb c LF) eqn:E; [|reflexivity].
    apply Ascii.eqb_eq in E. subst c. discriminate.
  - rewrite str_app_cons. simpl. rewrite IH, orb_false_r.
    destruct (Ascii.eqb c LF); [|reflexivity].
    apply String.eqb_neq. intros E.
    destruct a; [|discriminate]. rewrite str_app_nil_l in E. contradiction.
Qed.

Lemma core_snoc pre x :
  core (pre ++ [x]) =
  if is_blank x then match pre with [] => [x] | _ => pre end else pre ++ [x].
Proof.
  unfold core. rewrite rev_unit. destruct x as [|c x]; [|reflexivity].
  change (is_blank EmptyString) with true. cbv iota.
  destruct pre as [|a pre]; [reflexivity|].
  destruct (rev (a :: pre)) as [|y r] eqn:E.
  - apply (f_equal (@rev string)) in E. rewrite rev_involutive in E. discriminate.
  - rewrite <- E. apply rev_involutive.
Qed.

Lemma list_snoc2_cases {A} (l : list A) :
  l = [] \/ (exists a, l = [a]) \/ (exists pre b a, l = pre ++ [b; a]).
Proof.
  destruct l as [|a l] using rev_ind; [left; reflexivity|]. right.
  destruct l as [|b l _] using rev_ind; [left; exists a; reflexivity|].
  right. exists l, b, a. rewrite <- app_assoc. reflexivity.
Qed.

Lemma ends_blank_twice_snoc2 pre b a :
  ends_blank_twice (pre ++ [b; a]) =
  is_blank a && is_blank b && match pre with [] => false | _ => true end.
Proof.
  unfold ends_blank_twice.
  replace (pre ++ [b; a]) with ((pre ++ [b]) ++ [a])
    by (rewrite <- app_assoc; reflexivity).
  rewrite !rev_unit. destruct pre as [|p pre].
  - simpl. rewrite andb_false_r. reflexivity.
  - destruct (rev (p :: pre)) as [|y r] eqn:E.
    + apply (f_equal (@rev string)) in E. rewrite rev_involutive in E. discriminate.
    + rewrite andb_true_r. reflexivity.
Qed.

Lemma ends_blank_twice_blank l l' :
  map is_blank l = map is_blank l' -> ends_blank_twice l = ends_blank_twice l'.
Proof.
  intros H.
  assert (Hg : forall l, ends_blank_twice l =
            match rev (map is_blank l) with
            | a :: b :: _ :: _ => a && b
            | _ => false
            end).
  { intros l0. unfold ends_blank_twice. rewrite <- map_rev.
    destruct (rev l0) as [|a [|b [|c r]]]; reflexivity. }
  rewrite !Hg, H. reflexivity.
Qed.

Lemma finish_text_core out :
  Forall clean out -> finish_text out = join nl (core out) +:+ nl.
Proof.
  intros Hc. unfold finish_text.
  destruct out as [|x pre _] using rev_ind; [reflexivity|].
  apply Forall_app in Hc as [Hpre Hx]. inversion Hx as [|? ? Hx' _]; subst.
  rewrite core_snoc. destruct pre as [|p pre].
  - simpl app. simpl join.
    destruct x as [|c x]; [reflexivity|].
    rewrite <- (str_app_nil_l (String c x)) at 1.
    rewrite (endswith_app_clean _ _ Hx') by discriminate. reflexivity.
  - destruct x as [|c x].
    + change (is_blank EmptyString) with true. cbv iota.
      rewrite join_snoc by discriminate.
      rewrite str_app_nil_r, endswith_app_nl. reflexivity.
    + change (is_blank (String c x)) with false. cbv iota.
      rewrite join_snoc by discriminate.
      rewrite <- str_app_assoc, (endswith_app_clean _ _ Hx') by discriminate.
      reflexivity.
Qed.

Lemma core_clean out : Forall clean out -> Forall clean (core out).
Proof.
  intros Hc. destruct out as [|x pre _] using rev_ind; [exact Hc|].
  rewrite core_snoc. destruct (is_blank x); [|exact Hc].
  apply Forall_app in Hc as [Hpre Hx].
  destruct pre; [exact Hx|exact Hpre].
Qed.

Lemma splitlines_finish_text out :
  Forall clean out -> splitlines (finish_text out) = lines_back out.
Proof.
  intros Hc. rewrite (finish_text_core _ Hc). unfold lines_back.
  pose proof (core_clean _ Hc) as Hcc.
  destruct (core out) as [|c cs] eqn:E; [reflexivity|].
  apply splitlines_join_nl; [exact Hcc|discriminate].
Qed.

Lemma finish_text_no_cr out : Forall clean out -> no_cr (finish_text out).
Proof.
  intros Hc. rewrite (finish_text_core _ Hc).
  apply join_no_cr, core_clean, Hc.
Qed.

Lemma lines_back_clean out : Forall clean out -> Forall clean (lines_back out).
Proof.
  intros Hc. unfold lines_back. pose proof (core_clean _ Hc) as Hcc.
  destruct (core out); [repeat constructor|exact Hcc].
Qed.

Lemma lines_back_fixed out :
  sanitize_map out = out -> sanitize_map (lines_back out) = lines_back out.
Proof.
  intros Hfix. unfold lines_back.
  destruct out as [|x pre _] using rev_ind; [reflexivity|].
  rewrite core_snoc. destruct x as [|c x].
  - change (is_blank EmptyString) with true. cbv iota.
    destruct pre as [|p pre]; [reflexivity|].
    rewrite sanitize_map_snoc_blank in Hfix.
    apply app_inv_tail in Hfix. exact Hfix.
  - change (is_blank (String c x)) with false. cbv iota.
    destruct (pre ++ [String c x]) eqn:E; [reflexivity|exact Hfix].
Qed.

Lemma lines_back_lookup out i line :
  lines_back out !! i = Some line -> line <> EmptyString ->
  out !! i = Some line.
Proof.
  unfold lines_back. intros H Hne.
  destruct out as [|x pre _] using rev_ind.
  - simpl in H. destruct i; simpl in H; [congruence|discriminate].
  - rewrite core_snoc in H. destruct x as [|c x].
    + change (is_blank EmptyString) with true in H. cbv iota in H.
      destruct pre as [|p pre].
      * simpl in H. destruct i; simpl in H; [congruence|discriminate].
      * apply lookup_app_l_Some. exact H.
    + change (is_blank (String c x)) with false in H. cbv iota in H.
      destruct (pre ++ [String c x]) eqn:E; [|exact H].
      destruct pre; discriminate.
Qed.

Lemma sanitize_diff_eq (D : string) :
  _sanitize_diff D =
  finish_text (sanitize_map (splitlines (normalize_newlines D))).
Proof. unfold _sanitize_diff, finish_text. rewrite sanitize_lines_map. reflexivity. Qed.

Lemma str_app_nl_neq s : s +:+ nl <> s.
Proof.
  intros H. apply (f_equal String.length) in H.
  rewrite str_app_length in H. simpl in H. lia.
Qed.

(** *** Sanitizing twice *)

Lemma core_snoc_ne pre x :
  pre <> [] -> core (pre ++ [x]) = if is_blank x then pre else pre ++ [x].
Proof. intros H. rewrite core_snoc. destruct pre; [contradiction|reflexivity]. Qed.

Lemma lines_back_ne out : core out <> [] -> lines_back out = core out.
Proof. unfold lines_back. destruct (core out); [contradiction|reflexivity]. Qed.

Lemma snoc_ne {A} (l : list A) (x : A) : l ++ [x] <> [].
Proof. destruct l; discriminate. Qed.

(** the second pass gives the text of the first again, unless the first
    still ends in an empty line that the next [splitlines] will drop *)
Lemma finish_lines_back out :
  Forall clean out ->
  (finish_text (lines_back out) = finish_text out <->
   ends_blank_twice out = false).
Proof.
  intros Hc.
  rewrite (finish_text_core _ (lines_back_clean _ Hc)), (finish_text_core _ Hc).
  destruct (list_snoc2_cases out) as [-> | [[a ->] | (pre & b & a & ->)]].
  - split; reflexivity.
  - assert (Hcs : core [a] = [a]) by (destruct a; reflexivity).
    unfold lines_back. rewrite Hcs, Hcs. split; reflexivity.
  - rewrite ends_blank_twice_snoc2.
    replace (pre ++ [b; a]) with ((pre ++ [b]) ++ [a])
      by (rewrite <- app_assoc; reflexivity).
    rewrite (core_snoc_ne _ _ (snoc_ne pre b)).
    destruct (is_blank a) eqn:Ea.
    + rewrite (lines_back_ne ((pre ++ [b]) ++ [a]));
        rewrite (core_snoc_ne _ _ (snoc_ne pre b)), Ea; [|apply snoc_ne].
      rewrite core_snoc. destruct (is_blank b) eqn:Eb.
      * destruct pre as [|p pre]; [split; reflexivity|].
        simpl andb. split; [|discriminate].
        intros H. exfalso.
        assert (Hb : b = EmptyString) by (apply String.eqb_eq; exact Eb).
        subst b. rewrite join_snoc in H by discriminate.
        rewrite str_app_nil_r in H. symmetry in H.
        exact (str_app_nl_neq _ H).
      * split; reflexivity.
    + rewrite (lines_back_ne ((pre ++ [b]) ++ [a]));
        rewrite (core_snoc_ne _ _ (snoc_ne pre b)), Ea; [|apply snoc_ne].
      rewrite (core_snoc_ne _ _ (snoc_ne pre b)), Ea. split; reflexivity.
Qed.

Lemma sanitize_twice (D : string) :
  let out := sanitize_map (splitlines (normalize_newlines D)) in
  _sanitize_diff (_sanitize_diff D) = finish_text (lines_back out) /\
  _sanitize_diff D = finish_text out /\
  splitlines (_sanitize_diff D) = lines_back out /\
  sanitize_map (lines_back out) = lines_back out /\
  Forall clean out.
Proof.
  cbv zeta. set (out := sanitize_map (splitlines (normalize_newlines D))).
  assert (Hc : Forall clean out) by apply sanitize_map_clean, splitlines_clean.
  assert (Hfix : sanitize_map out = out) by apply sanitize_map_idem.
  assert (H1 : _sanitize_diff D = finish_text out) by apply sanitize_diff_eq.
  rewrite (sanitize_diff_eq (_sanitize_diff D)), H1.
  rewrite (normalize_newlines_id _ (finish_text_no_cr _ Hc)).
  rewrite (splitlines_finish_text _ Hc), (lines_back_fixed _ Hfix).
  repeat split. exact Hc.
Qed.

(** C3, counterexample.  Each pass drops one of the empty lines at the end:
    the second pass does not return what the first returned. *)
Lemma sanitize_not_idempotent :
  _sanitize_diff (_sanitize_diff diff_two_blank_lines)
  <> _sanitize_diff diff_two_blank_lines
  /\ _sanitize_diff diff_two_blank_lines
     = "--- a/app.py" +:+ nl +:+ "+++ b/app.py" +:+ nl +:+ "@@ -1,1 +1,1 @@" +:+ nl
       +:+ "-x" +:+ nl +:+ "+y" +:+ nl +:+ nl
  /\ _sanitize_diff (_sanitize_diff diff_two_blank_lines)
     = "--- a/app.py" +:+ nl +:+ "+++ b/app.py" +:+ nl +:+ "@@ -1,1 +1,1 @@" +:+ nl
       +:+ "-x" +:+ nl +:+ "+y" +:+ nl.
Proof.
  split; [|split]; [|vm_compute; reflexivity..].
  intros H. vm_compute in H. discriminate.
Qed.

(** where no line of the body starts with three dashes and a space, the
    body as the specification has it is the body that the sanitizer counts *)
Lemma body_lines_take_body lines :
  Forall (fun l => startswith l "--- " = false) (body_lines lines) ->
  body_lines lines = take_body lines.
Proof.
  induction lines as [|l rest IH]; [reflexivity|].
  unfold body_lines; fold body_lines. unfold take_body; fold take_body.
  unfold in_hunk_body, file_header_at.
  destruct (startswith l "@@"); [reflexivity|].
  destruct (startswith l "diff ") eqn:Ed.
  - simpl. rewrite andb_false_r. reflexivity.
  - simpl orb.
    destruct (startswith l "--- ") eqn:Em; simpl andb.
    + destruct rest as [|next r]; simpl.
      * intros H. apply Forall_cons in H as [H _]. simpl in H. congruence.
      * destruct (startswith next "+++ "); [reflexivity|].
        intros H. apply Forall_cons in H as [H _]. simpl in H. congruence.
    + intros H. apply Forall_cons in H as [_ H]. rewrite (IH H). reflexivity.
Qed.

(** A removed line whose text starts with two dashes and a space ends the
    body that the sanitizer counts: the header of [diff_removed_dashes],
    right as it stands, is rewritten to the counts of the one line before
    the removed line, and the body has three lines. *)
Lemma sanitize_counts_stop_at_dashes :
  let out := splitlines (_sanitize_diff diff_removed_dashes) in
  splitlines diff_removed_dashes !! 2 = Some "@@ -1,3 +1,2 @@"
  /\ out !! 2 = Some "@@ -1,1 +1,1 @@"
  /\ body_lines (drop 3 out) = [" select 1;"; "--- old comment"; " select 2;"]
  /\ orig_count (body_lines (drop 3 out)) = 3
  /\ new_count (body_lines (drop 3 out)) = 2.
Proof. cbv zeta. do 4 (split; [vm_compute; reflexivity|]). vm_compute. reflexivity. Qed.

(** C3, amended.  Sanitizing twice gives what sanitizing once gives exactly
    for the texts that do not end, after at least one other line, in two
    empty lines (line ends normalised).  In the sanitized text every line
    that is a hunk header ("@@ -a[,b] +c[,d] @@" and the rest of the line)
    stands where a header with the same start numbers and the same rest of
    line stood in the input; and when no line of its body starts with three
    dashes and a space, it is the header printed from its own start numbers
    and rest of line with the counts of its body, the lines that follow it
    up to the next line that starts with "@@" or the next file header. *)
Theorem sanitize_idempotent_and_counts (D : string) :
  (_sanitize_diff (_sanitize_diff D) = _sanitize_diff D <->
   ends_blank_twice (splitlines (normalize_newlines D)) = false)
  /\ forall i line orig_start new_start tail,
       splitlines (_sanitize_diff D) !! i = Some line ->
       parse_hunk_header line = Some (orig_start, new_start, tail) ->
       let hunk_body := body_lines (drop (S i) (splitlines (_sanitize_diff D))) in
       (exists line0,
          splitlines (normalize_newlines D) !! i = Some line0 /\
          parse_hunk_header line0 = Some (orig_start, new_start, tail))
       /\ (Forall (fun l => startswith l "--- " = false) hunk_body ->
           line = format_header orig_start (orig_count hunk_body)
                                new_start (new_count hunk_body) tail).
Proof.
  destruct (sanitize_twice D) as (H2 & H1 & Hl & Hfix & Hc). cbv zeta in *.
  set (lines := splitlines (normalize_newlines D)) in *.
  set (out := sanitize_map lines) in *.
  split.
  - rewrite H2, H1, (finish_lines_back _ Hc).
    rewrite (ends_blank_twice_blank out lines (sanitize_map_blank lines)).
    reflexivity.
  - intros i line os ns tail Hi Hp. rewrite Hl in *.
    destruct (parse_hunk_header_some _ _ _ _ Hp) as (Hat & _).
    split.
    + assert (Hne : line <> EmptyString) by (intros ->; discriminate).
      pose proof (lines_back_lookup _ _ _ Hi Hne) as Ho.
      unfold out in Ho. rewrite sanitize_map_lookup in Ho.
      destruct (lines !! i) as [line0|] eqn:E0; [|discriminate].
      exists line0. split; [reflexivity|]. injection Ho as Ho.
      destruct (startswith line0 "@@"); [|congruence].
      unfold rewrite_header in Ho.
      destruct (parse_hunk_header line0) as [[[os0 ns0] tail0]|] eqn:Ep0;
        [|congruence].
      destruct (parse_hunk_header_some _ _ _ _ Ep0) as (_ & A1 & A2 & A3 & A4 & A5 & _).
      rewrite <- Ho, (parse_format_header _ _ _ _ _ A1 A2 A3 A4 A5) in Hp.
      exact Hp.
    + intros Hbody. rewrite (body_lines_take_body _ Hbody).
      pose proof (sanitize_map_lookup (lines_back out) i) as Hlk.
      rewrite Hfix, Hi, Hat in Hlk. injection Hlk as Hlk.
      unfold rewrite_header in Hlk. rewrite Hp in Hlk. exact Hlk.
Qed.

Lemma sanitize_idempotent_and_counts_witness :
  _sanitize_diff (_sanitize_diff diff_wrong_counts) = _sanitize_diff diff_wrong_counts
  /\ "@@ -1,2 +1,3 @@ def f" = format_header "1" 2 "1" 3 " def f"
  /\ exists line0,
       splitlines (normalize_newlines diff_wrong_counts) !! 2 = Some line0 /\
       parse_hunk_header line0 = Some ("1", "1", " def f").
Proof.
  destruct (sanitize_idempotent_and_counts diff_wrong_counts) as [Hidem Hhdr].
  split; [apply Hidem; reflexivity|].
  destruct (Hhdr 2 "@@ -1,2 +1,3 @@ def f" "1" "1" " def f"
                 ltac:(vm_compute; reflexivity) eq_refl) as [Hex Hline].
  split; [|exact Hex].
  assert (Hbody : Forall (fun l => startswith l "--- " = false)
                    (body_lines (drop 3 (splitlines (_sanitize_diff diff_wrong_counts)))))
    by (vm_compute; repeat constructor).
  specialize (Hline Hbody).
  vm_compute in Hline. vm_compute. exact Hline.
Defined.

End LocalPatcherFacts.

(* ===================================================================== *)
(** * Lines, prefixes and the strip functions *)
(* ===================================================================== *)

Module PyStrFacts.
Import PyStr LocalPatcherSpec LocalPatcherFacts.

(** ** Reversal and the strip functions *)

Lemma rev_app_spec (s1 s2 : string) :
  String.rev_app s1 s2 = String.rev s1 +:+ s2.
Proof.
  unfold String.rev. revert s2.
  induction s1 as [|c s1 IH]; intros s2; simpl; [reflexivity|].
  rewrite (IH (String c s2)), (IH (String c EmptyString)).
  rewrite str_app_assoc. reflexivity.
Qed.

Lemma rev_cons (c : ascii) (s : string) :
  String.rev (String c s) = String.rev s +:+ String c EmptyString.
Proof. unfold String.rev at 1. simpl. apply rev_app_spec. Qed.

Lemma rev_app (a b : string) :
  String.rev (a +:+ b) = String.rev b +:+ String.rev a.
Proof.
  induction a as [|c a IH].
  - rewrite str_app_nil_l. change (String.rev "") with EmptyString.
    rewrite str_app_nil_r. reflexivity.
  - rewrite str_app_cons, !rev_cons, IH, str_app_assoc. reflexivity.
Qed.

Lemma rev_involutive (s : string) : String.rev (String.rev s) = s.
Proof.
  induction s as [|c s IH]; [reflexivity|].
  rewrite rev_cons, rev_app, IH. reflexivity.
Qed.

Lemma lstrip_chars_suffix f s :
  exists y, s = y +:+ lstrip_chars f s /\ all_chars f y = true.
Proof.
  induction s as [|c s IH]; simpl.
  - exists EmptyString. split; reflexivity.
  - destruct (f c) eqn:E.
    + destruct IH as (y & Hy & Hall). exists (String c y).
      rewrite str_app_cons, <- Hy. simpl. rewrite E, Hall.
      split; reflexivity.
    + exists EmptyString. split; reflexivity.
Qed.

Lemma all_chars_rev f s : all_chars f (String.rev s) = all_chars f s.
Proof.
  induction s as [|c s IH]; [reflexivity|].
  rewrite rev_cons, all_chars_app, IH. simpl.
  rewrite andb_true_r. apply andb_comm.
Qed.

(** what [rstrip] returns is the start of its argument *)
Lemma rstrip_chars_prefix f s :
  exists x, s = rstrip_chars f s +:+ x /\ all_chars f x = true.
Proof.
  unfold rstrip_chars.
  destruct (lstrip_chars_suffix f (String.rev s)) as (y & Hy & Hall).
  exists (String.rev y). split.
  - rewrite <- (rev_involutive s) at 1. rewrite Hy at 1.
    apply rev_app.
  - rewrite all_chars_rev. exact Hall.
Qed.

Lemma startswith_rstrip f s p :
  startswith (rstrip_chars f s) p = true -> startswith s p = true.
Proof.
  intros H. destruct (rstrip_chars_prefix f s) as (x & Hx & _).
  rewrite Hx. apply startswith_app_l, H.
Qed.

Lemma startswith_shorter s p q :
  startswith s (p +:+ q) = true -> startswith s p = true.
Proof.
  revert s. induction p as [|c p IH]; intros s H; [destruct s; reflexivity|].
  rewrite str_app_cons in H. destruct s as [|d s]; simpl in *; [discriminate|].
  apply andb_true_iff in H as [H1 H2]. rewrite H1. simpl. apply IH, H2.
Qed.

Lemma startswith_spec s p :
  startswith s p = true <-> exists r, s = p +:+ r.
Proof.
  split.
  - revert s. induction p as [|c p IH]; intros s H.
    + exists s. reflexivity.
    + destruct s as [|d s]; simpl in H; [discriminate|].
      apply andb_true_iff in H as [H1 H2]. apply Ascii.eqb_eq in H1. subst d.
      destruct (IH s H2) as (r & ->). exists r. reflexivity.
  - intros (r & ->). apply startswith_app.
Qed.

Lemma startswith_strip_prefix s p :
  startswith s p = true <-> exists r, strip_prefix p s = Some r.
Proof.
  split.
  - intros H. apply startswith_spec in H as (r & ->). exists r.
    apply strip_prefix_app.
  - intros (r & H). apply strip_prefix_spec in H. subst s.
    apply startswith_app.
Qed.

(** ** Lines *)

Lemma splitlines_nil s : splitlines s = [] -> s = EmptyString.
Proof.
  destruct s as [|c rest]; [reflexivity|]. simpl.
  destruct (is_linebreak c).
  - destruct (Ascii.eqb c CR); [destruct rest as [|[[] [] [] [] [] [] [] []] ?]|];
      discriminate.
  - destruct (splitlines rest); discriminate.
Qed.

Lemma splitlines_keep_nil s : splitlines_keep s = [] -> s = EmptyString.
Proof.
  destruct s as [|c rest]; [reflexivity|]. simpl.
  destruct (is_linebreak c).
  - destruct (Ascii.eqb c CR); [destruct rest as [|[[] [] [] [] [] [] [] []] ?]|];
      discriminate.
  - destruct (splitlines_keep rest); discriminate.
Qed.

Lemma splitlines_keep_cons c rest :
  splitlines_keep (String c rest) =
  if is_linebreak c then
    if Ascii.eqb c CR then
      match rest with
      | String c2 rest' =>
          if Ascii.eqb c2 LF
          then String CR (String LF EmptyString) :: splitlines_keep rest'
          else String c EmptyString :: splitlines_keep rest
      | EmptyString => String c EmptyString :: splitlines_keep rest
      end
    else String c EmptyString :: splitlines_keep rest
  else
    match splitlines_keep rest with
    | [] => [String c EmptyString]
    | l :: ls => String c l :: ls
    end.
Proof.
  simpl. destruct (is_linebreak c); [|reflexivity].
  destruct (Ascii.eqb c CR); [|reflexivity].
  destruct rest as [|c2 rest']; [reflexivity|].
  destruct (Ascii.eqb c2 LF) eqn:E.
  - apply Ascii.eqb_eq in E. subst c2. reflexivity.
  - destruct c2 as [[] [] [] [] [] [] [] []]; try reflexivity.
    discriminate.
Qed.

(** the lines after the first are the lines of the rest of the text *)
Lemma splitlines_keep_tail t l ls :
  splitlines_keep t = l :: ls ->
  splitlines_keep (concat ls) = ls
  /\ exists x, splitlines t = x :: splitlines (concat ls)
               /\ forall p, clean p -> startswith l p = true ->
                            startswith x p = true.
Proof.
  revert l ls. induction t as [|c rest IH IH2] using string_pair_ind;
    intros l ls H; [discriminate|].
  rewrite splitlines_keep_cons in H. rewrite splitlines_cons.
  destruct (is_linebreak c) eqn:Eb.
  - assert (Hp : forall p, clean p -> startswith l p = true ->
                   l = String c EmptyString \/ l = String CR (String LF EmptyString) ->
                   c = CR \/ l = String c EmptyString ->
                   startswith EmptyString p = true).
    { intros p Hp Hs Hl Hc. destruct p as [|a p]; [reflexivity|].
      unfold clean in Hp. simpl in Hp. apply andb_true_iff in Hp as [Ha _].
      exfalso. destruct Hl as [-> | ->]; simpl in Hs;
        apply andb_true_iff in Hs as [Hs _]; apply Ascii.eqb_eq in Hs; subst a.
      - rewrite Eb in Ha. discriminate.
      - vm_compute in Ha. discriminate. }
    destruct (Ascii.eqb c CR) eqn:Ecr.
    + apply Ascii.eqb_eq in Ecr. subst c.
      destruct rest as [|c2 rest'].
      * injection H as <- <-. split; [reflexivity|].
        exists EmptyString. split; [reflexivity|].
        intros p Hc Hs. apply (Hp p Hc Hs); left; reflexivity.
      * destruct (Ascii.eqb c2 LF) eqn:E2.
        -- injection H as <- <-. rewrite concat_splitlines_keep.
           split; [reflexivity|]. exists EmptyString. split; [reflexivity|].
           intros p Hc Hs. apply (Hp p Hc Hs); [right | left]; reflexivity.
        -- remember (String c2 rest') as r2 eqn:Er2.
           injection H as <- <-. rewrite concat_splitlines_keep.
           split; [reflexivity|]. exists EmptyString. split; [reflexivity|].
           intros p Hc Hs. apply (Hp p Hc Hs); left; reflexivity.
    + injection H as <- <-. rewrite concat_splitlines_keep.
      split; [reflexivity|]. exists EmptyString. split; [reflexivity|].
      intros p Hc Hs. apply (Hp p Hc Hs); [left | right]; reflexivity.
  - destruct (splitlines_keep rest) as [|l' ls'] eqn:Ek.
    + injection H as <- <-. apply splitlines_keep_nil in Ek. subst rest.
      split; [reflexivity|]. exists (String c EmptyString).
      split; [reflexivity|]. intros p _ Hs. exact Hs.
    + injection H as <- <-.
      destruct (IH l' ls' eq_refl) as (Hk & x & Hx & Hpre).
      split; [exact Hk|]. rewrite Hx. exists (String c x).
      split; [reflexivity|]. intros p Hc Hs.
      destruct p as [|a p]; [reflexivity|]. simpl in *.
      apply andb_true_iff in Hs as [Ha Hs]. rewrite Ha. simpl.
      apply Hpre; [|exact Hs]. unfold clean in *. simpl in Hc.
      apply andb_true_iff in Hc as [_ Hc]. exact Hc.
Qed.

Lemma splitlines_keep_suffix t pre suf :
  splitlines_keep t = pre ++ suf -> splitlines_keep (concat suf) = suf.
Proof.
  revert t. induction pre as [|l pre IH]; intros t H.
  - simpl in H. subst suf. rewrite concat_splitlines_keep. reflexivity.
  - simpl in H. apply splitlines_keep_tail in H as [H _].
    apply (IH _ H).
Qed.

Lemma replace_cr_cons c r :
  replace_cr (String c r) = String (if Ascii.eqb c CR then LF else c) (replace_cr r).
Proof. reflexivity. Qed.

Lemma replace_crlf_cons c r :
  replace_crlf (String c r) =
  if Ascii.eqb c CR then
    match r with
    | String c2 r' =>
        if Ascii.eqb c2 LF then String LF (replace_crlf r')
        else String c (replace_crlf r)
    | EmptyString => String c (replace_crlf r)
    end
  else String c (replace_crlf r).
Proof.
  simpl. destruct (Ascii.eqb c CR); [|reflexivity].
  destruct r as [|c2 r']; [reflexivity|].
  destruct (Ascii.eqb c2 LF) eqn:E.
  - apply Ascii.eqb_eq in E. subst c2. reflexivity.
  - destruct c2 as [[] [] [] [] [] [] [] []]; try reflexivity. discriminate.
Qed.

(** line ends of any kind normalised or not, the lines are the same *)
Lemma splitlines_normalize (s : string) :
  splitlines (LocalPatcher.normalize_newlines s) = splitlines s.
Proof.
  unfold LocalPatcher.normalize_newlines.
  induction s as [|c rest IH IH2] using string_pair_ind; [reflexivity|].
  rewrite (splitlines_cons c rest), replace_crlf_cons.
  destruct (Ascii.eqb c CR) eqn:Ecr.
  - apply Ascii.eqb_eq in Ecr. subst c.
    change (is_linebreak CR) with true. cbv iota.
    destruct rest as [|c2 rest'].
    + reflexivity.
    + destruct (Ascii.eqb c2 LF) eqn:E2.
      * rewrite replace_cr_cons, splitlines_cons.
        change (Ascii.eqb LF CR) with false. cbv iota.
        change (is_linebreak LF) with true. cbv iota.
        rewrite (IH2 _ _ eq_refl). reflexivity.
      * remember (String c2 rest') as r2 eqn:Er2.
        rewrite replace_cr_cons, splitlines_cons.
        change (Ascii.eqb CR CR) with true. cbv iota.
        change (is_linebreak LF) with true.
        change (Ascii.eqb LF CR) with false. cbv iota.
        rewrite IH. reflexivity.
  - rewrite replace_cr_cons, Ecr, splitlines_cons, Ecr, IH. reflexivity.
Qed.

(** the first line of a text starts as the text does *)
Lemma splitlines_first t p :
  clean p -> p <> EmptyString -> startswith t p = true ->
  exists x xs, splitlines t = x :: xs /\ startswith x p = true.
Proof.
  revert t. induction p as [|a p IH]; intros t Hc Hne Hs; [congruence|].
  destruct t as [|c t]; [discriminate|]. simpl in Hs.
  apply andb_true_iff in Hs as [Ha Hs]. apply Ascii.eqb_eq in Ha. subst c.
  unfold clean in Hc. simpl in Hc. apply andb_true_iff in Hc as [Hb Hc].
  apply negb_true_iff in Hb. rewrite splitlines_cons, Hb.
  destruct p as [|b p].
  - destruct (splitlines t) as [|l ls]; eexists; eexists;
      (split; [reflexivity|]); simpl; rewrite Ascii.eqb_refl;
      try reflexivity; destruct l; reflexivity.
  - destruct (IH t Hc ltac:(discriminate) Hs) as (x & xs & -> & Hx).
    exists (String a x), xs. split; [reflexivity|].
    simpl. rewrite Ascii.eqb_refl. exact Hx.
Qed.

(** ** The end of a stripped block *)

Lemma str_snoc_inj x y (c d : ascii) :
  x +:+ String c EmptyString = y +:+ String d EmptyString -> c = d.
Proof.
  intros H. apply (f_equal String.rev) in H.
  rewrite !rev_app in H. change (String.rev (String c "")) with (String c "") in H.
  change (String.rev (String d "")) with (String d "") in H.
  rewrite !str_app_cons, !str_app_nil_l in H. injection H as H _. exact H.
Qed.

Lemma lstrip_chars_head f s :
  match lstrip_chars f s with
  | EmptyString => True
  | String c _ => f c = false
  end.
Proof.
  induction s as [|a s IH]; simpl; [exact I|].
  destruct (f a) eqn:E; [exact IH|exact E].
Qed.

(** what [rstrip] returns does not end with a character it removes *)
Lemma rstrip_chars_last f s x c :
  rstrip_chars f s = x +:+ String c EmptyString -> f c = false.
Proof.
  unfold rstrip_chars. intros H.
  pose proof (lstrip_chars_head f (String.rev s)) as Hh.
  destruct (lstrip_chars f (String.rev s)) as [|d u].
  - apply (f_equal String.length) in H. rewrite str_app_length in H.
    simpl in H. lia.
  - rewrite rev_cons in H. apply str_snoc_inj in H. subst d. exact Hh.
Qed.

Lemma strip_no_final_lf s x : strip s <> x +:+ nl.
Proof.
  intros H. unfold strip, rstrip in H.
  apply rstrip_chars_last in H. discriminate.
Qed.

Lemma endswith_spec s p : endswith s p = true -> exists x, s = x +:+ p.
Proof.
  induction s as [|c s IH]; intros H.
  - destruct p; [|discriminate]. exists EmptyString. reflexivity.
  - unfold endswith in H; fold endswith in H.
    apply orb_true_iff in H as [H|H].
    + apply String.eqb_eq in H. subst p. exists EmptyString. reflexivity.
    + destruct (IH H) as (x & ->). exists (String c x). reflexivity.
Qed.

End PyStrFacts.

(* ===================================================================== *)
(** * The extractor on fenced and on plain text *)
(* ===================================================================== *)

Module ExtractorFacts.
Import PyStr LocalPatcher LocalPatcherSpec LocalPatcherFacts PyStrFacts.

(** ** Lines with and without their ends *)

Lemma splitlines_keep_line_nl l s :
  clean l -> splitlines_keep (l +:+ nl +:+ s) = (l +:+ nl) :: splitlines_keep s.
Proof.
  induction l as [|c l IH]; intros Hc.
  - rewrite !str_app_nil_l. unfold nl. rewrite str_app_cons, str_app_nil_l.
    rewrite splitlines_keep_cons. reflexivity.
  - unfold clean in Hc. simpl in Hc. apply andb_true_iff in Hc as [Hc1 Hc2].
    rewrite str_app_cons, splitlines_keep_cons.
    destruct (is_linebreak c); [discriminate|].
    rewrite (IH Hc2), str_app_cons. reflexivity.
Qed.

Lemma splitlines_keep_clean l :
  clean l -> l <> EmptyString -> splitlines_keep l = [l].
Proof.
  induction l as [|c l IH]; intros Hc Hne; [contradiction|].
  unfold clean in Hc. simpl in Hc. apply andb_true_iff in Hc as [Hc1 Hc2].
  rewrite splitlines_keep_cons.
  destruct (is_linebreak c); [discriminate|].
  destruct l as [|c' l']; [reflexivity|].
  rewrite (IH Hc2) by discriminate. reflexivity.
Qed.

Lemma lstrip_chars_app f u c x :
  f c = false ->
  lstrip_chars f (u +:+ String c x) = lstrip_chars f u +:+ String c x.
Proof.
  intros Hc. induction u as [|d u IH].
  - rewrite str_app_nil_l. simpl. rewrite Hc. reflexivity.
  - rewrite str_app_cons. simpl. destruct (f d); [exact IH|].
    rewrite str_app_cons. reflexivity.
Qed.

Lemma rstrip_chars_app_l f p c s :
  f c = false ->
  rstrip_chars f ((p +:+ String c EmptyString) +:+ s)
  = (p +:+ String c EmptyString) +:+ rstrip_chars f s.
Proof.
  intros Hc. unfold rstrip_chars.
  rewrite !rev_app. change (String.rev (String c "")) with (String c "").
  rewrite str_app_cons, str_app_nil_l.
  rewrite (lstrip_chars_app f _ c _ Hc).
  rewrite rev_app, rev_cons, rev_involutive. reflexivity.
Qed.

Lemma str_snoc_cases (a : string) :
  a = EmptyString \/ exists p c, a = p +:+ String c EmptyString.
Proof.
  induction a as [|d a IH]; [left; reflexivity|]. right.
  destruct IH as [-> | (p & c & ->)].
  - exists EmptyString, d. reflexivity.
  - exists (String d p), c. reflexivity.
Qed.

Lemma not_linebreak_not_eol c :
  is_linebreak c = false -> ascii_in c [LF; CR] = false.
Proof.
  intros H. unfold ascii_in. simpl.
  destruct (Ascii.eqb c LF) eqn:E1;
    [apply Ascii.eqb_eq in E1; subst c; discriminate|].
  destruct (Ascii.eqb c CR) eqn:E2;
    [apply Ascii.eqb_eq in E2; subst c; discriminate|].
  reflexivity.
Qed.

(** a line without its end is the start of what [rstrip] leaves of the
    line with its end *)
Lemma rstrip_eol_extend a t :
  clean a -> exists y, rstrip_eol (a +:+ t) = a +:+ y.
Proof.
  intros Hc. destruct (str_snoc_cases a) as [-> | (p & c & ->)].
  - exists (rstrip_eol t). rewrite !str_app_nil_l. reflexivity.
  - exists (rstrip_eol t). unfold rstrip_eol. apply rstrip_chars_app_l.
    apply not_linebreak_not_eol.
    unfold clean in Hc. rewrite all_chars_app in Hc.
    apply andb_true_iff in Hc as [_ Hc]. simpl in Hc.
    rewrite andb_true_r in Hc. apply negb_true_iff in Hc. exact Hc.
Qed.

Lemma rstrip_eol_clean a : clean a -> rstrip_eol a = a.
Proof.
  intros Hc. destruct (rstrip_eol_extend a EmptyString Hc) as (y & Hy).
  rewrite str_app_nil_r in Hy.
  destruct (rstrip_chars_prefix (fun c => ascii_in c [LF; CR]) a) as (x & Hx & _).
  fold (rstrip_eol a) in Hx. rewrite Hy in Hx.
  assert (Hlen : String.length y = 0).
  { apply (f_equal String.length) in Hx. rewrite !str_app_length in Hx. lia. }
  destruct y; [|discriminate]. rewrite Hy. apply str_app_nil_r.
Qed.

Lemma rstrip_eol_line a : clean a -> rstrip_eol (a +:+ nl) = a.
Proof.
  intros Hc. destruct (str_snoc_cases a) as [-> | (p & c & ->)].
  - reflexivity.
  - unfold rstrip_eol. rewrite rstrip_chars_app_l.
    + change (rstrip_chars (fun c0 => ascii_in c0 [LF; CR]) nl) with EmptyString.
      apply str_app_nil_r.
    + apply not_linebreak_not_eol.
      unfold clean in Hc. rewrite all_chars_app in Hc.
      apply andb_true_iff in Hc as [_ Hc]. simpl in Hc.
      rewrite andb_true_r in Hc. apply negb_true_iff in Hc. exact Hc.
Qed.

Lemma contains_char_app c a y :
  contains_char c a = true -> contains_char c (a +:+ y) = true.
Proof.
  induction a as [|d a IH]; [discriminate|]. rewrite str_app_cons. simpl.
  destruct (Ascii.eqb d c); [reflexivity|]. exact IH.
Qed.

Lemma is_minus_header_app a y :
  is_minus_header a = true -> is_minus_header (a +:+ y) = true.
Proof.
  unfold is_minus_header. intros H.
  apply orb_true_iff in H as [H|H]; [apply orb_true_iff in H as [H|H]|].
  - rewrite (startswith_app_l _ _ _ H). reflexivity.
  - rewrite (startswith_app_l _ _ _ H). apply orb_true_iff. left.
    apply orb_true_r.
  - apply andb_true_iff in H as [H1 H2].
    rewrite (startswith_app_l _ _ _ H1), (contains_char_app _ _ _ H2).
    apply orb_true_r.
Qed.

Lemma is_plus_header_app a y :
  is_plus_header a = true -> is_plus_header (a +:+ y) = true.
Proof.
  unfold is_plus_header. intros H.
  apply orb_true_iff in H as [H|H]; [apply orb_true_iff in H as [H|H]|].
  - rewrite (startswith_app_l _ _ _ H). reflexivity.
  - rewrite (startswith_app_l _ _ _ H). apply orb_true_iff. left.
    apply orb_true_r.
  - apply andb_true_iff in H as [H1 H2].
    rewrite (startswith_app_l _ _ _ H1), (contains_char_app _ _ _ H2).
    apply orb_true_r.
Qed.

(** every line with its end is the line without its end and something more *)
Lemma keep_lines_extend s :
  Forall2 (fun kl l => exists t, kl = l +:+ t) (splitlines_keep s) (splitlines s).
Proof.
  induction s as [|c rest IH IH2] using string_pair_ind; [constructor|].
  rewrite splitlines_keep_cons, splitlines_cons.
  destruct (is_linebreak c).
  - destruct (Ascii.eqb c CR).
    + destruct rest as [|c2 rest'].
      * constructor; [|constructor]. eexists. symmetry. apply str_app_nil_l.
      * destruct (Ascii.eqb c2 LF).
        -- constructor; [|exact (IH2 _ _ eq_refl)].
           eexists. symmetry. apply str_app_nil_l.
        -- constructor; [|exact IH]. eexists. symmetry. apply str_app_nil_l.
    + constructor; [|exact IH]. eexists. symmetry. apply str_app_nil_l.
  - inversion IH as [|kl l ks ls (t & Ht) Hrest Ek El].
    + constructor; [|constructor]. exists EmptyString.
      symmetry. apply str_app_nil_r.
    + constructor; [|exact Hrest]. exists t. rewrite Ht. reflexivity.
Qed.

(** ** Where a header pair stands *)

Lemma header_pair_at_drop lines k :
  header_pair_at (drop k lines) = true <->
  exists a b, lines !! k = Some a /\ lines !! S k = Some b /\
              is_minus_header (rstrip_eol a) = true /\
              is_plus_header (rstrip_eol b) = true.
Proof.
  revert k. induction lines as [|x xs IH]; intros k.
  - rewrite drop_nil. split; [discriminate|]. intros (a & b & H & _). discriminate.
  - destruct k as [|k].
    + simpl. destruct xs as [|y ys].
      * split; [discriminate|]. intros (a & b & _ & H & _). discriminate.
      * split.
        -- intros H. apply andb_true_iff in H as [H1 H2].
           exists x, y. repeat split; assumption.
        -- intros (a & b & Ha & Hb & H1 & H2). simpl in Ha, Hb.
           injection Ha as <-. injection Hb as <-. rewrite H1, H2. reflexivity.
    + simpl. apply IH.
Qed.

Lemma pair_in_keep s k :
  header_pair_at (drop k (splitlines s)) = true ->
  header_pair_at (drop k (splitlines_keep s)) = true.
Proof.
  intros H. apply header_pair_at_drop in H as (a & b & Ha & Hb & H1 & H2).
  apply header_pair_at_drop.
  pose proof (keep_lines_extend s) as HF.
  pose proof (splitlines_clean s) as Hc.
  destruct (Forall2_lookup_r _ _ _ _ _ HF Ha) as (ka & Hka & (ta & ->)).
  destruct (Forall2_lookup_r _ _ _ _ _ HF Hb) as (kb & Hkb & (tb & ->)).
  assert (Hca : clean a) by (eapply Forall_lookup_1; eassumption).
  assert (Hcb : clean b) by (eapply Forall_lookup_1; eassumption).
  rewrite (rstrip_eol_clean _ Hca) in H1. rewrite (rstrip_eol_clean _ Hcb) in H2.
  destruct (rstrip_eol_extend a ta Hca) as (ya & Hya).
  destruct (rstrip_eol_extend b tb Hcb) as (yb & Hyb).
  exists (a +:+ ta), (b +:+ tb). split; [exact Hka|]. split; [exact Hkb|].
  rewrite Hya, Hyb. split.
  - apply is_minus_header_app, H1.
  - apply is_plus_header_app, H2.
Qed.

Lemma pair_in_slice (L : list string) s e k :
  header_pair_at (drop k (slice L s e)) = true ->
  header_pair_at (drop (s + k) L) = true.
Proof.
  intros H. apply header_pair_at_drop in H as (a & b & Ha & Hb & H1 & H2).
  apply header_pair_at_drop. unfold slice in Ha, Hb.
  apply lookup_take_Some in Ha as [Ha _]. apply lookup_take_Some in Hb as [Hb _].
  rewrite lookup_drop in Ha, Hb.
  exists a, b. split; [exact Ha|]. split; [|split; assumption].
  replace (S (s + k)) with (s + S k) by lia. exact Hb.
Qed.

(** ** The text between the fences *)

(** the first line of the text put together from the lines [b :: r] *)
Lemma join_first_line b r :
  clean b ->
  match splitlines_keep (join nl (b :: r)) with
  | [] => b = EmptyString /\ r = []
  | next :: _ => rstrip_eol next = b
  end.
Proof.
  intros Hc. destruct r as [|c r].
  - simpl join. destruct b as [|x b]; [split; reflexivity|].
    rewrite (splitlines_keep_clean _ Hc) by discriminate.
    apply rstrip_eol_clean, Hc.
  - rewrite join_cons, (splitlines_keep_line_nl _ _ Hc).
    apply rstrip_eol_line, Hc.
Qed.

Lemma header_pair_at_blank a : header_pair_at [a; EmptyString] = false.
Proof. simpl. apply andb_false_r. Qed.

(** the search for the first pair, on lines put together with LF *)
Lemma find_header_join body :
  Forall clean body ->
  match find_header (splitlines_keep (join nl body)) with
  | Some d =>
      exists pre suf,
        body = pre ++ suf /\ header_pair_at suf = true /\
        (forall k, k < length pre -> header_pair_at (drop k body) = false) /\
        d = join nl suf
  | None => forall k, header_pair_at (drop k body) = false
  end.
Proof.
  induction 1 as [|a r Ha Hr IH].
  - simpl. intros k. rewrite drop_nil. reflexivity.
  - destruct r as [|b r'].
    + assert (Hno : find_header (splitlines_keep (join nl [a])) = None).
      { simpl join. destruct a as [|x a]; [reflexivity|].
        rewrite (splitlines_keep_clean _ Ha) by discriminate. reflexivity. }
      rewrite Hno. intros [|[|k]]; reflexivity.
    + apply Forall_cons in Hr as Hbr. destruct Hbr as [Hb _].
      rewrite join_cons, (splitlines_keep_line_nl _ _ Ha).
      pose proof (join_first_line b r' Hb) as Hfirst.
      assert (Hpair : header_pair_at
                        ((a +:+ nl) :: splitlines_keep (join nl (b :: r')))
                      = header_pair_at (a :: b :: r')).
      { destruct (splitlines_keep (join nl (b :: r'))) as [|next ks].
        - destruct Hfirst as [-> ->]. symmetry. apply header_pair_at_blank.
        - simpl. rewrite Hfirst, (rstrip_eol_line _ Ha),
            (rstrip_eol_clean _ Ha), (rstrip_eol_clean _ Hb). reflexivity. }
      unfold find_header; fold find_header. rewrite Hpair.
      destruct (header_pair_at (a :: b :: r')) eqn:E.
      * exists [], (a :: b :: r'). split; [reflexivity|]. split; [exact E|].
        split; [intros k Hk; simpl in Hk; lia|].
        simpl concat. rewrite concat_splitlines_keep, join_cons, str_app_assoc.
        reflexivity.
      * destruct (find_header (splitlines_keep (join nl (b :: r')))) as [d|].
        -- destruct IH as (pre & suf & Hbody & Hp & Hk & ->).
           exists (a :: pre), suf. split; [rewrite Hbody; reflexivity|].
           split; [exact Hp|]. split; [|reflexivity].
           intros [|k] Hlt; [exact E|]. simpl. apply Hk. simpl in Hlt. lia.
        -- intros [|k]; [exact E|]. simpl. apply IH.
Qed.

(** ** Finding the fences *)

Lemma find_seq_first (P : string -> bool) (L : list string) k :
  forall b m,
    (forall j, b <= j < b + k -> P (nth j L EmptyString) = false) ->
    k < m -> P (nth (b + k) L EmptyString) = true ->
    find (fun j => P (nth j L EmptyString)) (seq b m) = Some (b + k).
Proof.
  induction k as [|k IH]; intros b m Hbefore Hk Hat.
  - destruct m as [|m]; [lia|]. simpl. rewrite Nat.add_0_r in Hat.
    rewrite Hat, Nat.add_0_r. reflexivity.
  - destruct m as [|m]; [lia|]. simpl.
    rewrite (Hbefore b) by lia.
    replace (b + S k) with (S b + k) by lia.
    apply IH; [|lia|].
    + intros j Hj. apply Hbefore. lia.
    + replace (S b + k) with (b + S k) by lia. exact Hat.
Qed.

Lemma find_rev_seq_none (Q : string -> bool) (L : list string) b m :
  (forall j, b <= j < b + m -> Q (nth j L EmptyString) = false) ->
  find (fun j => Q (nth j L EmptyString)) (rev (seq b m)) = None.
Proof.
  induction m as [|m IH]; intros H; [reflexivity|].
  rewrite seq_S, rev_unit. simpl. rewrite (H (b + m)) by lia.
  apply IH. intros j Hj. apply H. lia.
Qed.

Lemma find_rev_seq_last (Q : string -> bool) (L : list string) b k m :
  k < m -> Q (nth (b + k) L EmptyString) = true ->
  (forall j, b + k < j < b + m -> Q (nth j L EmptyString) = false) ->
  find (fun j => Q (nth j L EmptyString)) (rev (seq b m)) = Some (b + k).
Proof.
  induction m as [|m IH]; intros Hk Hat Hafter; [lia|].
  rewrite seq_S, rev_unit. simpl.
  destruct (Nat.eq_dec k m) as [->|Hne].
  - rewrite Hat. reflexivity.
  - rewrite (Hafter (b + m)) by lia.
    apply IH; [lia|exact Hat|]. intros j Hj. apply Hafter. lia.
Qed.

Lemma Forall_nth_false (P : string -> bool) (l : list string) j :
  Forall (fun x => P x = false) l -> j < length l ->
  P (nth j l EmptyString) = false.
Proof.
  intros H Hj. apply (proj1 (List.Forall_forall _ l) H). apply nth_In. exact Hj.
Qed.

Lemma find_fence_start blanks fence rest :
  Forall (fun l => is_fence_open l = false) blanks ->
  is_fence_open fence = true ->
  find (fun j => is_fence_open (nth j (blanks ++ fence :: rest) EmptyString))
       (seq 0 (length (blanks ++ fence :: rest)))
  = Some (length blanks).
Proof.
  intros Hblanks Hfence.
  apply (find_seq_first is_fence_open _ (length blanks) 0).
  - intros j Hj. rewrite app_nth1 by lia.
    apply Forall_nth_false; [exact Hblanks|lia].
  - rewrite length_app. simpl. lia.
  - simpl. rewrite nth_middle. exact Hfence.
Qed.

(** Step 2 on a text that opens with a fence: the lines between the first
    fence line and the last bare fence line *)
Lemma strip_outer_fence_body text blanks fence body closing :
  startswith (lstrip text) "```" = true ->
  splitlines text = blanks ++ fence :: body ++ closing ->
  Forall (fun l => is_fence_open l = false) blanks ->
  is_fence_open fence = true ->
  closes_fence body closing ->
  strip_outer_fence text = join nl body.
Proof.
  intros Hf HL Hblanks Hfence Hclose. unfold strip_outer_fence.
  rewrite Hf, HL, (find_fence_start _ _ _ Hblanks Hfence).
  assert (Hnth : forall j, nth (length blanks + S j)
                               (blanks ++ fence :: body ++ closing) EmptyString
                           = nth j (body ++ closing) EmptyString).
  { intros j. rewrite app_nth2_plus. reflexivity. }
  assert (Hskip : skipn (length blanks + 1) (blanks ++ fence :: body ++ closing)
                  = body ++ closing).
  { replace (blanks ++ fence :: body ++ closing)
      with ((blanks ++ [fence]) ++ body ++ closing)
      by (rewrite <- app_assoc; reflexivity).
    apply drop_app_length'. rewrite length_app. simpl. lia. }
  assert (Hlen : length (blanks ++ fence :: body ++ closing)
                 = length blanks + S (length body + length closing)).
  { rewrite length_app. simpl. rewrite length_app. reflexivity. }
  unfold slice. rewrite Hskip, Hlen. f_equal.
  destruct closing as [|close after].
  - simpl in Hclose. rewrite find_rev_seq_none.
    + simpl. rewrite Nat.add_0_r, app_nil_r.
      replace (length blanks + S (length body) - (length blanks + 1))
        with (length body) by lia.
      apply firstn_all.
    + intros j Hj. simpl in Hj.
      replace j with (length blanks + S (j - (length blanks + 1))) by lia.
      rewrite Hnth, app_nil_r.
      apply Forall_nth_false; [exact Hclose|lia].
  - destruct Hclose as [Hc Hafter].
    rewrite (find_rev_seq_last is_fence_close _ (length blanks + 1) (length body)).
    + replace (length blanks + 1 + length body - (length blanks + 1))
        with (length body) by lia.
      apply take_app_length'. reflexivity.
    + simpl. lia.
    + replace (length blanks + 1 + length body)
        with (length blanks + S (length body)) by lia.
      rewrite Hnth, nth_middle. exact Hc.
    + intros j Hj. simpl in Hj.
      replace j with (length blanks
                      + S (length body + S (j - (length blanks + 1) - S (length body))))
        by lia.
      rewrite Hnth, app_nth2_plus. simpl.
      apply Forall_nth_false; [exact Hafter|lia].
Qed.

(** without a header pair anywhere in the text nothing is extracted, from
    fenced text as from plain text *)
Lemma extract_none_without_pair (text : string) :
  needs_repair (splitlines_keep text) = false ->
  (forall k, header_pair_at (drop k (splitlines_keep text)) = false) ->
  _extract_diff text = None.
Proof.
  intros Hrep Hno.
  assert (Hunfold : _extract_diff text
                    = find_header (splitlines_keep (strip_outer_fence text))).
  { unfold _extract_diff.
    rewrite (repair_lines_id _ Hrep), concat_splitlines_keep. reflexivity. }
  rewrite Hunfold. unfold strip_outer_fence.
  destruct (startswith (lstrip text) "```").
  - set (L := splitlines text).
    set (s := match find _ (seq 0 (length L)) with Some j => j | None => 0 end).
    set (e := match find _ (rev _) with Some j => j | None => length L end).
    assert (Hc : Forall clean (slice L (s + 1) e)).
    { unfold slice. apply Forall_take, Forall_drop, splitlines_clean. }
    pose proof (find_header_join _ Hc) as Hj.
    destruct (find_header (splitlines_keep (join nl (slice L (s + 1) e))))
      as [d|]; [|reflexivity].
    exfalso. destruct Hj as (pre & suf & Hbody & Hp & _).
    assert (Hin : header_pair_at (drop (length pre) (slice L (s + 1) e)) = true).
    { rewrite Hbody, drop_app_length. exact Hp. }
    apply pair_in_slice, pair_in_keep in Hin.
    rewrite Hno in Hin. discriminate.
  - pose proof (find_header_spec (splitlines_keep text)) as H.
    destruct (find_header (splitlines_keep text)) as [d|]; [|reflexivity].
    exfalso. destruct H as (pre & suf & Hl & Hp & _).
    specialize (Hno (length pre)). rewrite Hl, drop_app_length in Hno.
    congruence.
Qed.

(** C4, amended.  On a text in which no one-dash header is repaired:
    - when no line that is a minus header ("--- a/", "--- /dev/null", or
      "--- " with a slash in the line) is directly followed by a plus header
      ("+++ b/", "+++ /dev/null", or "+++ " with a slash in the line), the
      extractor returns nothing, wherever single header lines may stand and
      whether the text is fenced or not;
    - when the text does not open with a code fence, the extractor returns
      the text from the first such pair on, byte for byte, and nothing
      exactly when there is no pair;
    - when the text opens, after white space, with a code fence, the
      extractor looks at the lines between the first fence line and the
      last line that is a bare fence (the end of the text when there is
      none): it returns these lines from the first pair among them on, put
      together with LF, and nothing when there is no pair among them. *)
Theorem extract_diff_first_pair (text : string) :
  needs_repair (splitlines_keep text) = false ->
  let lines := splitlines_keep text in
  ((forall k, header_pair_at (drop k lines) = false) ->
   _extract_diff text = None)
  /\ (startswith (lstrip text) "```" = false ->
      match _extract_diff text with
      | Some d =>
          exists pre suf,
            lines = pre ++ suf /\ header_pair_at suf = true /\
            (forall k, k < length pre -> header_pair_at (drop k lines) = false) /\
            d = concat suf /\ text = concat pre +:+ d
      | None => forall k, header_pair_at (drop k lines) = false
      end)
  /\ (startswith (lstrip text) "```" = true ->
      forall blanks fence body closing,
        splitlines text = blanks ++ fence :: body ++ closing ->
        Forall (fun l => is_fence_open l = false) blanks ->
        is_fence_open fence = true ->
        closes_fence body closing ->
        match _extract_diff text with
        | Some d =>
            exists pre suf,
              body = pre ++ suf /\ header_pair_at suf = true /\
              (forall k, k < length pre -> header_pair_at (drop k body) = false) /\
              d = join nl suf
        | None => forall k, header_pair_at (drop k body) = false
        end).
Proof.
  intros Hrep. cbv zeta.
  assert (Hplain : startswith (lstrip text) "```" = false ->
            match _extract_diff text with
            | Some d =>
                exists pre suf,
                  splitlines_keep text = pre ++ suf /\ header_pair_at suf = true /\
                  (forall k, k < length pre ->
                             header_pair_at (drop k (splitlines_keep text)) = false) /\
                  d = concat suf /\ text = concat pre +:+ d
            | None => forall k, header_pair_at (drop k (splitlines_keep text)) = false
            end).
  { intros Hfence.
    pose proof (extract_diff_prepared text) as H. cbv zeta in H.
    rewrite (repair_lines_id _ Hrep), concat_splitlines_keep in H.
    unfold strip_outer_fence in H. rewrite Hfence in H. exact H. }
  assert (Hunfold : _extract_diff text
                    = find_header (splitlines_keep (strip_outer_fence text))).
  { unfold _extract_diff.
    rewrite (repair_lines_id _ Hrep), concat_splitlines_keep. reflexivity. }
  split; [|split].
  - exact (extract_none_without_pair text Hrep).
  - exact Hplain.
  - intros Hfence blanks fence body closing HL Hblanks Hopen Hclose.
    rewrite Hunfold,
      (strip_outer_fence_body text blanks fence body closing
         Hfence HL Hblanks Hopen Hclose).
    apply find_header_join.
    pose proof (splitlines_clean text) as Hc. rewrite HL in Hc.
    apply Forall_app in Hc as [_ Hc]. apply Forall_cons in Hc as [_ Hc].
    apply Forall_app in Hc as [Hc _]. exact Hc.
Qed.

Lemma extract_diff_first_pair_witness :
  (exists pre d,
     _extract_diff text_in_prose = Some d /\
     text_in_prose = pre +:+ d /\
     startswith d "--- a/app.py" = true)
  /\ exists pre suf,
       ["--- a/app.py"; "+++ b/app.py"; "@@ -1 +1 @@"; "-x"; "+y"] = pre ++ suf /\
       _extract_diff text_fenced_crlf = Some (join nl suf).
Proof.
  split.
  - pose proof (extract_diff_first_pair text_in_prose eq_refl) as (_ & H & _).
    specialize (H eq_refl).
    destruct (_extract_diff text_in_prose) as [d|] eqn:E.
    + destruct H as (pre & suf & _ & _ & _ & _ & Ht).
      exists (concat pre), d. split; [reflexivity|]. split; [exact Ht|].
      vm_compute in E. injection E as <-. reflexivity.
    + vm_compute in E. discriminate.
  - pose proof (extract_diff_first_pair text_fenced_crlf eq_refl) as (_ & _ & H).
    specialize (H eq_refl [] "```diff"
                  ["--- a/app.py"; "+++ b/app.py"; "@@ -1 +1 @@"; "-x"; "+y"]
                  ["```"] eq_refl ltac:(constructor) eq_refl
                  ltac:(split; [reflexivity|constructor])).
    destruct (_extract_diff text_fenced_crlf) as [d|] eqn:E.
    + destruct H as (pre & suf & Hb & _ & _ & Hd).
      exists pre, suf. split; [exact Hb|]. rewrite Hd. reflexivity.
    + vm_compute in E. discriminate.
Defined.

End ExtractorFacts.

(* ===================================================================== *)
(** * Status updates composed, the reset command, the saved patches *)
(* ===================================================================== *)

Module PlanFacts.
Import Storage StorageSpec.

Lemma set_first_status_overwrite a x y l :
  set_first_status a x (set_first_status a y l) = set_first_status a x l.
Proof.
  induction l as [|s rest IH]; simpl; [reflexivity|].
  destruct (id s =? a)%Z eqn:E; simpl; rewrite E; [reflexivity|].
  f_equal; exact IH.
Qed.

Lemma set_first_status_comm a b x y l :
  a <> b ->
  set_first_status a x (set_first_status b y l)
  = set_first_status b y (set_first_status a x l).
Proof.
  intros Hab. induction l as [|s rest IH]; simpl; [reflexivity|].
  destruct (id s =? b)%Z eqn:Eb; destruct (id s =? a)%Z eqn:Ea; simpl;
    rewrite ?Ea, ?Eb; try reflexivity.
  - apply Z.eqb_eq in Ea, Eb. congruence.
  - f_equal; exact IH.
Qed.

Lemma set_first_status_ids a x l :
  map id (set_first_status a x l) = map id l.
Proof.
  induction l as [|s rest IH]; simpl; [reflexivity|].
  destruct (id s =? a)%Z; simpl; [reflexivity|]. f_equal; exact IH.
Qed.

(** X1.  Status updates compose as writes to one cell per step id: a later
    update of the same id replaces the earlier one, updates of two
    different ids can be made in either order, and no update changes the
    ids of the plan or their order. *)
Theorem update_step_status_composes (plan_file : option plan) (a b : Z)
        (x y : string) :
  update_step_status a x (update_step_status a y plan_file)
  = update_step_status a x plan_file
  /\ (a <> b ->
      update_step_status a x (update_step_status b y plan_file)
      = update_step_status b y (update_step_status a x plan_file))
  /\ match plan_file, update_step_status a x plan_file with
     | Some p, Some p' => map id (steps p') = map id (steps p)
     | None, None => True
     | _, _ => False
     end.
Proof.
  destruct plan_file as [p|]; simpl.
  - split; [|split].
    + rewrite set_first_status_overwrite. reflexivity.
    + intros Hab. rewrite (set_first_status_comm a b x y _ Hab). reflexivity.
    + apply set_first_status_ids.
  - repeat split.
Qed.

Lemma update_step_status_composes_witness :
  update_step_status 1 "approved" (update_step_status 2 "skipped" (Some plan_ab))
  = update_step_status 2 "skipped" (update_step_status 1 "approved" (Some plan_ab)).
Proof.
  apply (update_step_status_composes (Some plan_ab) 1 2 "approved" "skipped").
  discriminate.
Defined.

End PlanFacts.

Module CliFacts.
Import Storage StorageSpec Cli.

Lemma reset_matching_absent target l :
  (forall s, In s l -> id s <> target) -> reset_matching target l = l.
Proof.
  induction l as [|s rest IH]; intros H; simpl; [reflexivity|].
  destruct (id s =? target)%Z eqn:E.
  - apply Z.eqb_eq in E. exfalso. apply (H s); [left; reflexivity | exact E].
  - f_equal. apply IH. intros s0 Hs0. apply H. right. exact Hs0.
Qed.

Lemma reset_matching_unique target l :
  NoDup (map id l) ->
  reset_matching target l = set_first_status target "pending" l.
Proof.
  induction l as [|s rest IH]; intros H; simpl; [reflexivity|].
  apply NoDup_cons in H as [Hs Hrest].
  destruct (id s =? target)%Z eqn:E.
  - f_equal. apply reset_matching_absent. intros s0 Hs0 Heq.
    apply Z.eqb_eq in E. apply Hs. rewrite E, <- Heq.
    apply list_elem_of_In, in_map, Hs0.
  - f_equal. apply IH, Hrest.
Qed.

Lemma existsb_id_false target l :
  existsb (fun s => (id s =? target)%Z) l = false ->
  forall s, In s l -> id s <> target.
Proof.
  intros H s Hs Heq.
  assert (existsb (fun s => (id s =? target)%Z) l = true); [|congruence].
  apply existsb_exists. exists s. split; [exact Hs | apply Z.eqb_eq, Heq].
Qed.

Lemma reset_matching_lookup target l i s :
  l !! i = Some s ->
  exists s', reset_matching target l !! i = Some s' /\ same_but_status s s' /\
    (id s = target -> status s' = Some "pending") /\
    (id s <> target -> s' = s).
Proof.
  intros H. unfold reset_matching. rewrite list_lookup_fmap, H. simpl.
  destruct (id s =? target)%Z eqn:E.
  - exists (set_status s "pending"). split; [reflexivity|].
    split; [repeat split|]. split; [reflexivity|].
    apply Z.eqb_eq in E. intros Hne. contradiction.
  - exists s. split; [reflexivity|]. split; [repeat split|].
    apply Z.eqb_neq in E. split; [intros; contradiction | reflexivity].
Qed.

(** X2.  The [reset] command.  With an id it sets every step that carries
    the id to pending (the loop has no [break]), keeps every other step and
    the goal, and leaves the plan file alone when no step carries the id or
    the id is no integer; when the ids of the plan are pairwise different
    it writes the plan that [update_step_status] writes.  Without an id it
    sets every step to pending, and resetting again changes nothing. *)
Theorem cmd_reset_scope (py_int : string -> option Z)
        (step_id_str : option string) (p : plan) :
  match step_id_str with
  | Some str =>
      match py_int str with
      | None => cmd_reset py_int step_id_str (Some p) = Some p
      | Some target =>
          exists p',
            cmd_reset py_int step_id_str (Some p) = Some p' /\
            goal p' = goal p /\
            length (steps p') = length (steps p) /\
            (forall i s, steps p !! i = Some s ->
               exists s', steps p' !! i = Some s' /\ same_but_status s s' /\
                 (id s = target -> status s' = Some "pending") /\
                 (id s <> target -> s' = s)) /\
            ((forall s, In s (steps p) -> id s <> target) -> p' = p) /\
            (NoDup (map id (steps p)) ->
             Some p' = update_step_status target "pending" (Some p))
      end
  | None =>
      exists p',
        cmd_reset py_int None (Some p) = Some p' /\
        goal p' = goal p /\
        length (steps p') = length (steps p) /\
        (forall i s, steps p !! i = Some s ->
           exists s', steps p' !! i = Some s' /\ same_but_status s s' /\
             status s' = Some "pending") /\
        cmd_reset py_int None (Some p') = Some p'
  end.
Proof.
  destruct step_id_str as [str|]; simpl.
  - destruct (py_int str) as [target|]; [|reflexivity].
    destruct (existsb (fun s => (id s =? target)%Z) (steps p)) eqn:Ex.
    + eexists. split; [reflexivity|]. simpl. split; [reflexivity|].
      split; [unfold reset_matching; apply length_map|].
      split; [intros i s; apply reset_matching_lookup|].
      split.
      * intros Habs. rewrite reset_matching_absent by exact Habs.
        destruct p; reflexivity.
      * intros Hnd. rewrite reset_matching_unique by exact Hnd. reflexivity.
    + pose proof (existsb_id_false _ _ Ex) as Habs.
      exists p. split; [reflexivity|]. split; [reflexivity|].
      split; [reflexivity|]. split.
      * intros i s Hi. exists s. split; [exact Hi|]. split; [repeat split|].
        split; [|reflexivity]. intros Hid. exfalso.
        apply (Habs s); [|exact Hid].
        apply list_elem_of_In. apply list_elem_of_lookup. exists i. exact Hi.
      * split; [reflexivity|]. intros _.
        rewrite StorageFacts.set_first_status_absent by exact Habs.
        destruct p; reflexivity.
  - eexists. split; [reflexivity|]. simpl. split; [reflexivity|].
    split; [unfold reset_all; apply length_map|]. split.
    + intros i s Hi. unfold reset_all. rewrite list_lookup_fmap, Hi. simpl.
      eexists. split; [reflexivity|]. split; [repeat split | reflexivity].
    + f_equal. f_equal. unfold reset_all. rewrite map_map. reflexivity.
Qed.

End CliFacts.

Module StorageFilesFacts.
Import PyStr LocalPatcher LocalPatcherSpec LocalPatcherFacts StorageFiles.

Lemma str_app_inv_l (p a b : string) : p +:+ a = p +:+ b -> a = b.
Proof.
  induction p as [|c p IH]; intros H.
  - rewrite !str_app_nil_l in H. exact H.
  - rewrite !str_app_cons in H. injection H as H. apply IH, H.
Qed.

Lemma string_of_uint_nonempty d :
  d <> Decimal.Nil -> NilEmpty.string_of_uint d <> EmptyString.
Proof. destruct d; simpl; congruence. Qed.

(** [str(z)] is an optional minus sign and a non-empty run of digits *)
Lemma str_of_Z_shape z :
  exists sign ds,
    Server.str_of_Z z = sign +:+ ds /\
    (sign = "" \/ sign = "-") /\
    all_chars isdigit ds = true /\ ds <> EmptyString.
Proof.
  unfold Server.str_of_Z. destruct z as [|p|p]; simpl.
  - exists "", "0". repeat split; try (left; reflexivity); discriminate.
  - exists "", (NilZero.string_of_uint (Pos.to_uint p)).
    pose proof (Unsigned.to_uint_nonnil p) as Hn.
    split; [reflexivity|]. split; [left; reflexivity|].
    unfold NilZero.string_of_uint. destruct (Pos.to_uint p) eqn:E;
      try congruence;
      (split; [apply string_of_uint_digits | apply string_of_uint_nonempty; discriminate]).
  - exists "-", (NilZero.string_of_uint (Pos.to_uint p)).
    pose proof (Unsigned.to_uint_nonnil p) as Hn.
    split; [reflexivity|]. split; [right; reflexivity|].
    unfold NilZero.string_of_uint. destruct (Pos.to_uint p) eqn:E;
      try congruence;
      (split; [apply string_of_uint_digits | apply string_of_uint_nonempty; discriminate]).
Qed.

Lemma str_of_Z_inj a b : Server.str_of_Z a = Server.str_of_Z b -> a = b.
Proof.
  unfold Server.str_of_Z. intros H.
  apply DecimalZ.to_int_inj.
  assert (Hn : forall z, Z.to_int z <> Decimal.Pos Decimal.Nil
                      /\ Z.to_int z <> Decimal.Neg Decimal.Nil).
  { intros z. destruct z as [|p|p]; simpl; split; try discriminate;
      intros E; injection E as E; exact (Unsigned.to_uint_nonnil p E). }
  destruct (Hn a) as [Ha1 Ha2]. destruct (Hn b) as [Hb1 Hb2].
  pose proof (NilZero.isi _ Ha1 Ha2) as Ia.
  pose proof (NilZero.isi _ Hb1 Hb2) as Ib.
  rewrite H in Ia. rewrite Ia in Ib. injection Ib as Ib. exact Ib.
Qed.

(** the digits of a number and what follows them, when that is no digit *)
Lemma digits_then_inv ds1 ds2 r1 r2 :
  all_chars isdigit ds1 = true -> all_chars isdigit ds2 = true ->
  starts_not isdigit r1 -> starts_not isdigit r2 ->
  ds1 +:+ r1 = ds2 +:+ r2 -> ds1 = ds2 /\ r1 = r2.
Proof.
  intros H1 H2 S1 S2 E.
  pose proof (span_chars_app isdigit ds1 r1 H1 S1) as A.
  pose proof (span_chars_app isdigit ds2 r2 H2 S2) as B.
  rewrite E in A. rewrite A in B. injection B as -> ->. split; reflexivity.
Qed.

Lemma str_of_Z_then_inv a b r1 r2 :
  starts_not isdigit r1 -> starts_not isdigit r2 ->
  Server.str_of_Z a +:+ r1 = Server.str_of_Z b +:+ r2 ->
  Server.str_of_Z a = Server.str_of_Z b /\ r1 = r2.
Proof.
  intros S1 S2 E.
  destruct (str_of_Z_shape a) as (sa & da & Ea & Hsa & Hda & Hna).
  destruct (str_of_Z_shape b) as (sb & db & Eb & Hsb & Hdb & Hnb).
  rewrite Ea, Eb in *. rewrite !str_app_assoc in E.
  destruct da as [|ca da]; [congruence|]. destruct db as [|cb db]; [congruence|].
  simpl in Hda, Hdb. apply andb_true_iff in Hda as [Hca Hda'].
  apply andb_true_iff in Hdb as [Hcb Hdb'].
  destruct Hsa as [-> | ->]; destruct Hsb as [-> | ->];
    rewrite ?str_app_nil_l, ?str_app_cons in E.
  - change (String ca da +:+ r1 = String cb db +:+ r2) in E.
    apply digits_then_inv in E as [-> ->]; simpl; rewrite ?Hca, ?Hcb; auto.
  - injection E as E _. subst ca. vm_compute in Hca. discriminate.
  - injection E as E _. subst cb. vm_compute in Hcb. discriminate.
  - assert (E' : String ca da +:+ r1 = String cb db +:+ r2).
    { rewrite !str_app_cons. injection E as E1 E2. congruence. }
    apply digits_then_inv in E' as [E' ->]; simpl; rewrite ?Hca, ?Hcb; auto.
    rewrite E'. auto.
Qed.

Lemma patch_path_inj a b : patch_path a = patch_path b -> a = b.
Proof.
  unfold patch_path. intros H.
  apply str_app_inv_l in H. apply str_app_inv_l in H.
  apply str_of_Z_then_inv in H as [H _]; [|reflexivity..].
  apply str_of_Z_inj, H.
Qed.

Lemma refined_patch_path_inj a b :
  refined_patch_path a = refined_patch_path b -> a = b.
Proof.
  unfold refined_patch_path. intros H.
  apply str_app_inv_l in H. apply str_app_inv_l in H.
  apply str_of_Z_then_inv in H as [H _]; [|reflexivity..].
  apply str_of_Z_inj, H.
Qed.

Lemma patch_path_not_refined a b : patch_path a <> refined_patch_path b.
Proof.
  unfold patch_path, refined_patch_path. intros H.
  apply str_app_inv_l in H. apply str_app_inv_l in H.
  apply str_of_Z_then_inv in H as [_ H]; [|reflexivity..]. discriminate.
Qed.

Lemma read_write_same path content t :
  read_file path (write_text path content t) = Some (GitOps.read_text content).
Proof. unfold read_file, write_text. rewrite lookup_insert_eq. reflexivity. Qed.

Lemma read_write_other path path' content t :
  path <> path' ->
  read_file path' (write_text path content t) = read_file path' t.
Proof.
  intros H. unfold read_file, write_text. rewrite lookup_insert_ne by exact H.
  reflexivity.
Qed.

(** saving the patch of a step leaves the refined patches as they are *)
Lemma saved_files_apart step_id content t :
  load_refined_patch step_id (save_patch step_id content t)
    = load_refined_patch step_id t
  /\ load_patch step_id (save_refined_patch step_id content t)
     = load_patch step_id t.
Proof.
  unfold load_patch, save_patch, load_refined_patch, save_refined_patch.
  split; apply read_write_other; intros E.
  - exact (patch_path_not_refined _ _ E).
  - exact (patch_path_not_refined _ _ (eq_sym E)).
Qed.

(** X3.  A saved patch read back.  Loading the patch of a step after saving
    it gives the saved text with every CR LF and every CR turned into LF
    (the file is read in text mode), hence the saved text itself when it has
    no CR; saving the patch of one step changes neither what is loaded for
    another step nor what is loaded as the refined patch of any step, and
    the same holds for the refined patches. *)
Theorem saved_patch_read_back (step_id : Z) (content : string) (t : GitOps.fs) :
  load_patch step_id (save_patch step_id content t)
    = Some (normalize_newlines content)
  /\ (no_cr content ->
      load_patch step_id (save_patch step_id content t) = Some content)
  /\ load_refined_patch step_id (save_refined_patch step_id content t)
     = Some (normalize_newlines content)
  /\ (forall other, other <> step_id ->
        load_patch other (save_patch step_id content t) = load_patch other t
        /\ load_refined_patch other (save_refined_patch step_id content t)
           = load_refined_patch other t)
  /\ (forall other,
        load_refined_patch other (save_patch step_id content t)
          = load_refined_patch other t
        /\ load_patch other (save_refined_patch step_id content t)
           = load_patch other t).
Proof.
  unfold load_patch, save_patch, load_refined_patch, save_refined_patch.
  split; [apply read_write_same|].
  split.
  { intros H. rewrite read_write_same. unfold GitOps.read_text.
    rewrite normalize_newlines_id by exact H. reflexivity. }
  split; [apply read_write_same|].
  split.
  - intros other Hne. split; apply read_write_other; intros E;
      [apply patch_path_inj in E | apply refined_patch_path_inj in E];
      congruence.
  - intros other. split; apply read_write_other; intros E.
    + exact (patch_path_not_refined _ _ E).
    + exact (patch_path_not_refined _ _ (eq_sym E)).
Qed.

Lemma saved_patch_read_back_witness :
  load_patch 7 (save_patch 7 ("+x" +:+ nl) ∅) = Some ("+x" +:+ nl).
Proof.
  exact (proj1 (proj2 (saved_patch_read_back 7 ("+x" +:+ nl) ∅)) eq_refl).
Defined.

End StorageFilesFacts.

(* ===================================================================== *)
(** * The patch applier: blocks, what is written, single hunks *)
(* ===================================================================== *)

Module ApplierFacts.
Import PyStr GitOps GitOpsSpec ApplierSpec LocalPatcherFacts PyStrFacts.

(** ** The pieces of the split *)

Lemma concat_split_lf_keep (t : string) : concat (split_lf_keep t) = t.
Proof.
  induction t as [|c rest IH]; simpl; [reflexivity|].
  destruct (Ascii.eqb c LF) eqn:E.
  - apply Ascii.eqb_eq in E. subst c. simpl. unfold nl.
    rewrite str_app_cons, str_app_nil_l, IH. reflexivity.
  - destruct (split_lf_keep rest) as [|l ls]; simpl in *.
    + rewrite <- IH. reflexivity.
    + rewrite str_app_cons, IH. reflexivity.
Qed.

Lemma split_blocks_from_concat cur lines :
  concat (split_blocks_from cur lines) = cur +:+ concat lines.
Proof.
  revert cur. induction lines as [|l rest IH]; intros cur; simpl.
  - reflexivity.
  - destruct (startswith l "diff --git "); simpl.
    + rewrite IH. reflexivity.
    + rewrite IH, str_app_assoc. reflexivity.
Qed.

Lemma split_blocks_from_heads cur lines i b :
  split_blocks_from cur lines !! S i = Some b ->
  startswith b "diff --git " = true.
Proof.
  revert cur i. induction lines as [|l rest IH]; intros cur i H; simpl in H.
  - destruct i; discriminate.
  - destruct (startswith l "diff --git ") eqn:E.
    + destruct i as [|i].
      * simpl in H. clear IH.
        assert (Hs : forall ls c, startswith c "diff --git " = true ->
                  forall x, split_blocks_from c ls !! 0 = Some x ->
                  startswith x "diff --git " = true).
        { induction ls as [|y ys IHy]; intros c Hc x Hx; simpl in Hx.
          - injection Hx as <-. exact Hc.
          - destruct (startswith y "diff --git ").
            + injection Hx as <-. exact Hc.
            + apply (IHy (c +:+ y)); [apply startswith_app_l, Hc | exact Hx]. }
        apply (Hs rest l E b H).
      * simpl in H. apply (IH l i H).
    + apply (IH (cur +:+ l) i H).
Qed.

Lemma split_blocks_from_one cur lines :
  (forall l, In l lines -> startswith l "diff --git " = false) ->
  split_blocks_from cur lines = [cur +:+ concat lines].
Proof.
  revert cur. induction lines as [|l rest IH]; intros cur H; simpl.
  - rewrite str_app_nil_r. reflexivity.
  - rewrite (H l) by (left; reflexivity).
    rewrite IH by (intros x Hx; apply H; right; exact Hx).
    rewrite str_app_assoc. reflexivity.
Qed.

(** X4.  Splitting the patch into file blocks loses nothing: the blocks put
    end to end are the text of the patch; every block after the first
    starts with [diff --git ], except that a text starting with three
    dashes and a space gives an empty first block and that text as second
    block (up to the first [diff --git ] line). *)
Theorem split_blocks_partition (patch_text : string) :
  concat (split_blocks patch_text) = patch_text
  /\ forall i b,
       split_blocks patch_text !! S i = Some b ->
       startswith b "diff --git " = true
       \/ (i = 0 /\ startswith b "--- " = true
           /\ split_blocks patch_text !! 0 = Some EmptyString).
Proof.
  unfold split_blocks.
  pose proof (concat_split_lf_keep patch_text) as Hc.
  destruct (split_lf_keep patch_text) as [|l rest] eqn:E.
  - split; [simpl in *; exact Hc|]. intros i b H. destruct i; discriminate.
  - destruct (startswith l "--- ") eqn:El.
    + split.
      * simpl. rewrite str_app_nil_l, split_blocks_from_concat. exact Hc.
      * intros i b H. destruct i as [|i].
        -- right. split; [reflexivity|]. split; [|reflexivity].
           simpl in H.
           assert (Hs : forall ls c, startswith c "--- " = true ->
                     forall x, split_blocks_from c ls !! 0 = Some x ->
                     startswith x "--- " = true).
           { induction ls as [|y ys IHy]; intros c Hcs x Hx; simpl in Hx.
             - injection Hx as <-. exact Hcs.
             - destruct (startswith y "diff --git ").
               + injection Hx as <-. exact Hcs.
               + apply (IHy (c +:+ y)); [apply startswith_app_l, Hcs | exact Hx]. }
           apply (Hs rest l El b H).
        -- left. simpl in H. apply (split_blocks_from_heads l rest i b H).
    + split.
      * rewrite split_blocks_from_concat, str_app_nil_l. exact Hc.
      * intros i b H. left.
        apply (split_blocks_from_heads EmptyString (l :: rest) i b H).
Qed.

(** ** One block *)

Section Frame.
Variable target_of : string -> string.
Variables read_error write_error : fs -> string -> option string.

(** what a turn of the loop can do: nothing, end the loop with an
    exception, record an error, or write the target and report it *)
Lemma apply_block_cases block st :
  apply_block target_of read_error write_error block st = st
  \/ exists g,
       search_target (split_lf_keep (strip block)) = Some g /\
       ((exists e, apply_block target_of read_error write_error block st = raise e st)
        \/ (exists text,
              apply_block target_of read_error write_error block st =
                {| a_fs := a_fs st; applied := applied st;
                   errors := errors st ++
                     [strip g +:+ ": hunk mismatch — " +:+ text];
                   raised := raised st |})
        \/ exists new_lines,
             apply_block target_of read_error write_error block st =
               {| a_fs := <[target_of (strip g) := concat new_lines]> (a_fs st);
                  applied := applied st ++ [strip g];
                  errors := errors st;
                  raised := raised st |}).
Proof.
  unfold apply_block.
  destruct (strip block) as [|c s] eqn:Eb; [left; reflexivity|].
  destruct (search_target (split_lf_keep (String c s))) as [g|] eqn:Eg;
    [|left; reflexivity].
  destruct (String.eqb (strip g) "/dev/null"); [left; reflexivity|].
  destruct (read_error (a_fs st) (target_of (strip g))) as [text|].
  { right. exists g. split; [reflexivity|]. left. eexists. reflexivity. }
  destruct (find_hunks (split_lf_keep (String c s))) as [|h0 hs];
    [left; reflexivity|].
  right. exists g. split; [reflexivity|].
  destruct (patched_lines _ (h0 :: hs)) as [new_lines|text|e].
  - destruct (write_error (a_fs st) (target_of (strip g))) as [text|].
    + left. eexists. reflexivity.
    + right. right. exists new_lines. reflexivity.
  - right. left. exists text. reflexivity.
  - left. eexists. reflexivity.
Qed.

Lemma grows_refl st : grows target_of st st.
Proof.
  split; [|reflexivity]. exists []. rewrite app_nil_r. split; reflexivity.
Qed.

Lemma apply_block_grows block st : grows target_of st (apply_block target_of read_error write_error block st).
Proof.
  destruct (apply_block_cases block st)
    as [-> | (g & _ & [(e & ->) | [(text & ->) | (nl' & ->)]])].
  - apply grows_refl.
  - split; [|reflexivity]. exists []. simpl. rewrite app_nil_r.
    split; reflexivity.
  - split; [|reflexivity]. exists []. simpl. rewrite app_nil_r.
    split; reflexivity.
  - split; simpl.
    + exists [strip g]. split; [reflexivity|]. intros q Hq.
      apply lookup_insert_ne. apply Hq. left. reflexivity.
    + intros E. exfalso. apply (f_equal (@length string)) in E.
      rewrite length_app in E. simpl in E. lia.
Qed.

Lemma grows_trans st1 st2 st3 :
  grows target_of st1 st2 -> grows target_of st2 st3 -> grows target_of st1 st3.
Proof.
  intros [(m1 & E1 & F1) G1] [(m2 & E2 & F2) G2]. split.
  - exists (m1 ++ m2). split; [rewrite E2, E1, app_assoc; reflexivity|].
    intros q Hq. rewrite F2, F1; [reflexivity| |];
      intros r Hr; apply Hq, in_or_app; [left | right]; exact Hr.
  - intros E. rewrite E2, E1, <- app_assoc in E.
    assert (Hl : length m1 = 0 /\ length m2 = 0).
    { apply (f_equal (@length string)) in E. rewrite !length_app in E. lia. }
    destruct Hl as [H1 H2].
    destruct m1; [|discriminate]. destruct m2; [|discriminate].
    rewrite app_nil_r in E1, E2.
    rewrite G2, G1; [reflexivity | exact E1 | exact E2].
Qed.

Lemma apply_blocks_grows blocks st : grows target_of st (apply_blocks target_of read_error write_error blocks st).
Proof.
  revert st. induction blocks as [|b rest IH]; intros st; simpl.
  - apply grows_refl.
  - destruct (raised (apply_block target_of read_error write_error b st)).
    + apply apply_block_grows.
    + eapply grows_trans; [apply apply_block_grows | apply IH].
Qed.

Lemma apply_block_counts block st :
  length (applied (apply_block target_of read_error write_error block st))
    + length (errors (apply_block target_of read_error write_error block st))
  <= S (length (applied st) + length (errors st)).
Proof.
  destruct (apply_block_cases block st)
    as [-> | (g & _ & [(e & ->) | [(text & ->) | (nl' & ->)]])];
    simpl; rewrite ?length_app; simpl; lia.
Qed.

Lemma apply_blocks_counts blocks st :
  length (applied (apply_blocks target_of read_error write_error blocks st))
    + length (errors (apply_blocks target_of read_error write_error blocks st))
  <= length blocks + (length (applied st) + length (errors st)).
Proof.
  revert st. induction blocks as [|b rest IH]; intros st; simpl; [lia|].
  specialize (IH (apply_block target_of read_error write_error b st)).
  pose proof (apply_block_counts b st).
  destruct (raised (apply_block target_of read_error write_error b st)); lia.
Qed.

Lemma apply_block_empty st : apply_block target_of read_error write_error EmptyString st = st.
Proof. reflexivity. Qed.

Lemma apply_blocks_one block st : apply_blocks target_of read_error write_error [block] st = apply_block target_of read_error write_error block st.
Proof. simpl. destruct (raised (apply_block target_of read_error write_error block st)); reflexivity. Qed.

End Frame.

(** X5.  The Python applier writes the files it reports and no others: a
    path that is not the target of a name in [applied] has after the run
    the content it had before (the patch file itself included), and when
    no name is reported the project files are as they were.  Every block
    gives at most one report, applied or error.  This holds of a run that
    an exception ends as well. *)
Theorem applier_writes_only_reported (target_of : string -> string)
        (read_error write_error : fs -> string -> option string)
        (patch_text : string) (files : fs) :
  let st := apply_patch_text target_of read_error write_error patch_text files in
  (forall q, (forall r, In r (applied st) -> target_of r <> q) ->
             a_fs st !! q = files !! q)
  /\ (applied st = [] -> a_fs st = files)
  /\ length (applied st) + length (errors st)
     <= length (split_blocks patch_text).
Proof.
  unfold apply_patch_text.
  pose proof (apply_blocks_grows target_of read_error write_error
                (split_blocks patch_text)
                {| a_fs := files; applied := []; errors := []; raised := None |})
    as [(more & E & F) G].
  simpl in *. split; [|split].
  - intros q Hq. apply F. rewrite <- E. exact Hq.
  - intros Hnil. apply G. exact Hnil.
  - pose proof (apply_blocks_counts target_of read_error write_error
                  (split_blocks patch_text)
                  {| a_fs := files; applied := []; errors := [];
                     raised := None |}) as Hc.
    simpl in Hc. lia.
Qed.

(** X6.  A patch without [diff --git] lines is one block, however many
    file headers it has: the applier treats it as a patch of the file named
    by its first [+++] line.  It reports at most one file or error, the
    only name it can report is that one, and no other file is written. *)
Theorem patch_without_git_lines_is_one_block (target_of : string -> string)
        (read_error write_error : fs -> string -> option string)
        (patch_text : string) (files : fs) :
  (forall l, In l (split_lf_keep patch_text) ->
             startswith l "diff --git " = false) ->
  let st := apply_patch_text target_of read_error write_error patch_text files in
  st = apply_block target_of read_error write_error patch_text
         {| a_fs := files; applied := []; errors := []; raised := None |}
  /\ length (applied st) + length (errors st) <= 1
  /\ (forall r, In r (applied st) ->
        exists g, search_target (split_lf_keep (strip patch_text)) = Some g
                  /\ r = strip g)
  /\ (forall q,
        (forall g, search_target (split_lf_keep (strip patch_text)) = Some g ->
                   target_of (strip g) <> q) ->
        a_fs st !! q = files !! q).
Proof.
  intros Hno st.
  assert (Hst : st = apply_block target_of read_error write_error patch_text
                       {| a_fs := files; applied := []; errors := [];
                          raised := None |}).
  { unfold st, apply_patch_text, split_blocks.
    pose proof (concat_split_lf_keep patch_text) as Hc.
    destruct (split_lf_keep patch_text) as [|l rest] eqn:E.
    - simpl in Hc. subst patch_text. reflexivity.
    - destruct (startswith l "--- ").
      + rewrite split_blocks_from_one
          by (intros x Hx; apply Hno; right; exact Hx).
        simpl in Hc. rewrite Hc.
        change (apply_blocks target_of read_error write_error
                  [EmptyString; patch_text] ?s)
          with (apply_blocks target_of read_error write_error [patch_text] s).
        apply apply_blocks_one.
      + rewrite split_blocks_from_one by exact Hno.
        rewrite str_app_nil_l, Hc. apply apply_blocks_one. }
  split; [exact Hst|]. rewrite Hst. clear Hst st.
  destruct (apply_block_cases target_of read_error write_error patch_text
              {| a_fs := files; applied := []; errors := []; raised := None |})
    as [-> | (g & Hg & [(e & ->) | [(text & ->) | (nl' & ->)]])]; simpl.
  - split; [lia|]. split; [intros r []|]. reflexivity.
  - split; [lia|]. split; [intros r []|]. reflexivity.
  - split; [lia|]. split; [intros r []|]. reflexivity.
  - split; [lia|]. split.
    + intros r [<- | []]. exists g. split; [exact Hg | reflexivity].
    + intros q Hq. apply lookup_insert_ne. apply (Hq g Hg).
Qed.

Lemma patch_without_git_lines_is_one_block_witness :
  let st := run_applier patch_two_files tree_two_files in
  applied st = ["A.py"] /\ errors st = [] /\
  a_fs st !! "B.py" = tree_two_files !! "B.py".
Proof.
  pose proof (patch_without_git_lines_is_one_block (fun p => p)
                no_os_error no_os_error patch_two_files tree_two_files) as H.
  assert (Hno : forall l, In l (split_lf_keep patch_two_files) ->
                          startswith l "diff --git " = false).
  { intros l Hl. vm_compute in Hl.
    repeat (destruct Hl as [<- | Hl]; [reflexivity|]). destruct Hl. }
  specialize (H Hno). cbv zeta in H. destruct H as (Hst & _ & _ & Hframe).
  unfold run_applier.
  split; [rewrite Hst; vm_compute; reflexivity|].
  split; [rewrite Hst; vm_compute; reflexivity|].
  apply Hframe. intros g Hg. vm_compute in Hg. injection Hg as <-.
  vm_compute. discriminate.
Defined.

(** X26.  An exception that nothing catches ends the run where it is
    raised.  When the target of a block cannot be opened, when the start
    number of its first hunk has more than 4300 digits ([int()] raises
    [ValueError]), or when the target cannot be written, the loop over the
    blocks is left with that exception: no error is recorded for the
    block, the blocks after it are not processed, the function returns no
    result, and the tree is as the blocks before left it, their files
    written. *)
Theorem uncaught_exception_ends_run (target_of : string -> string)
        (read_error write_error : fs -> string -> option string)
        (block : string) (rest : list string) (st : acc) (g : string) :
  search_target (split_lf_keep (strip block)) = Some g ->
  strip g <> "/dev/null" ->
  let target := target_of (strip g) in
  let lines :=
    match a_fs st !! target with
    | Some content => readlines content
    | None => []
    end in
  let hunks := find_hunks (split_lf_keep (strip block)) in
  let run := apply_blocks target_of read_error write_error (block :: rest) st in
  (forall text, read_error (a_fs st) target = Some text ->
                run = raise (OSError text) st)
  /\ (forall h0 hs,
        read_error (a_fs st) target = None -> hunks = h0 :: hs ->
        int_max_str_digits < String.length (h_start h0) ->
        run = raise ValueError st)
  /\ (forall new_lines text,
        read_error (a_fs st) target = None -> hunks <> [] ->
        patched_lines lines hunks = Passed new_lines ->
        write_error (a_fs st) target = Some text ->
        run = raise (OSError text) st)
  /\ (forall e,
        end_of (raise e st) = Raises e /\ a_fs (raise e st) = a_fs st /\
        applied (raise e st) = applied st /\ errors (raise e st) = errors st).
Proof.
  intros Hg Hdev target lines hunks run.
  assert (Hblock : forall e,
            apply_block target_of read_error write_error block st = raise e st ->
            run = raise e st).
  { intros e He. unfold run. simpl. rewrite He. reflexivity. }
  assert (Hstart : read_error (a_fs st) target = None ->
            apply_block target_of read_error write_error block st =
            match hunks with
            | [] => st
            | _ :: _ =>
                match patched_lines lines hunks with
                | IndexError text =>
                    {| a_fs := a_fs st; applied := applied st;
                       errors := errors st ++
                         [strip g +:+ ": hunk mismatch — " +:+ text];
                       raised := raised st |}
                | Uncaught e => raise e st
                | Passed new_lines =>
                    match write_error (a_fs st) target with
                    | Some text => raise (OSError text) st
                    | None =>
                        {| a_fs := <[target := concat new_lines]> (a_fs st);
                           applied := applied st ++ [strip g];
                           errors := errors st;
                           raised := raised st |}
                    end
                end
            end).
  { intros Hread. unfold apply_block.
    pose proof (GitOpsFacts.search_target_nonempty _ _ Hg) as Hne.
    unfold hunks, lines, target.
    destruct (strip block) as [|c b] eqn:Eb; [contradiction|].
    rewrite Hg.
    destruct (String.eqb (strip g) "/dev/null") eqn:Ed;
      [apply String.eqb_eq in Ed; contradiction|].
    fold target. rewrite Hread.
    destruct (find_hunks (split_lf_keep (String c b))); reflexivity. }
  split; [|split; [|split]].
  - intros text Hread. apply Hblock. unfold apply_block.
    pose proof (GitOpsFacts.search_target_nonempty _ _ Hg) as Hne.
    destruct (strip block) as [|c b] eqn:Eb; [contradiction|].
    rewrite Hg.
    destruct (String.eqb (strip g) "/dev/null") eqn:Ed;
      [apply String.eqb_eq in Ed; contradiction|].
    fold target. rewrite Hread. reflexivity.
  - intros h0 hs Hread Hh Hlong. apply Hblock. rewrite (Hstart Hread), Hh.
    unfold patched_lines. simpl.
    rewrite (GitOpsFacts.py_int_long _ Hlong). reflexivity.
  - intros new_lines text Hread Hne Hp Hwrite. apply Hblock.
    rewrite (Hstart Hread), Hp, Hwrite.
    destruct hunks; [contradiction|reflexivity].
  - intros e. repeat split.
Qed.

Lemma uncaught_exception_ends_run_witness :
  let st := apply_block (fun p => p) no_os_error no_os_error
              block_adds_two (start_acc tree_two_files) in
  let run := apply_blocks (fun p => p) no_os_error no_os_error
               [block_long_start; block_adds_two] st in
  run = raise ValueError st
  /\ a_fs run !! "B.py" = Some ("x" +:+ nl +:+ "two")
  /\ a_fs run !! "A.py" = tree_two_files !! "A.py"
  /\ errors run = [] /\ applied run = ["B.py"].
Proof.
  cbv zeta.
  pose proof (uncaught_exception_ends_run (fun p => p) no_os_error no_os_error
                block_long_start [block_adds_two]
                (apply_block (fun p => p) no_os_error no_os_error
                   block_adds_two (start_acc tree_two_files))
                "A.py" eq_refl ltac:(discriminate)) as (_ & H & _ & _).
  cbv zeta in H.
  assert (Hlong : int_max_str_digits
                  < String.length (string_of_list_ascii (List.repeat "9"%char 4301)))
    by (apply Nat.ltb_lt; vm_compute; reflexivity).
  specialize (H {| h_start := string_of_list_ascii (List.repeat "9"%char 4301);
                   h_body := " a" |} [] eq_refl
                ltac:(vm_compute; reflexivity) Hlong).
  rewrite H. split; [reflexivity|].
  do 3 (split; [vm_compute; reflexivity|]). vm_compute. reflexivity.
Defined.

(** ** One hunk *)

Lemma clamp_nat n i : clamp_index (Z.of_nat n) (Z.of_nat i) = Nat.min i n.
Proof.
  unfold clamp_index. destruct (Z.of_nat i <? 0)%Z eqn:E; [apply Z.ltb_lt in E; lia|].
  lia.
Qed.

Lemma py_slice_nat {A} (l : list A) (i j : nat) :
  i <= j -> j <= length l ->
  py_slice l (Z.of_nat i) (Z.of_nat j) = firstn (j - i) (skipn i l).
Proof.
  intros Hij Hj. unfold py_slice. rewrite !clamp_nat.
  rewrite !Nat.min_l by lia. reflexivity.
Qed.

Lemma py_slice_from_nat {A} (l : list A) (i : nat) :
  i <= length l -> py_slice_from l (Z.of_nat i) = skipn i l.
Proof.
  intros Hi. unfold py_slice_from. rewrite clamp_nat, Nat.min_l by lia.
  reflexivity.
Qed.

Lemma py_index_nat {A} (l : list A) (i : nat) :
  py_index l (Z.of_nat i) = nth_error l i.
Proof.
  unfold py_index. destruct (Z.of_nat i <? 0)%Z eqn:E; [apply Z.ltb_lt in E; lia|].
  rewrite Nat2Z.id. reflexivity.
Qed.

Lemma firstn_S_skipn {A} (l : list A) (p k : nat) (o : A) :
  nth_error l p = Some o ->
  firstn (S k) (skipn p l) = o :: firstn k (skipn (S p) l).
Proof.
  revert p. induction l as [|x l IH]; intros p H.
  - destruct p; discriminate.
  - destruct p as [|p]; simpl in *.
    + injection H as ->. reflexivity.
    + apply IH, H.
Qed.

Lemma apply_hunk_lines_fit lines body new_lines (p : nat) :
  p + covered body <= length lines ->
  apply_hunk_lines lines body new_lines (Z.of_nat p)
  = Passed (new_lines ++ merge_hunk body (firstn (covered body) (skipn p lines)),
            Z.of_nat (p + covered body)).
Proof.
  revert new_lines p. induction body as [|hl rest IH]; intros new_lines p Hfit.
  - simpl. rewrite app_nil_r, Nat.add_0_r. reflexivity.
  - simpl. unfold covered in *. simpl in *.
    destruct (startswith hl "+") eqn:Ea; simpl in *.
    + rewrite IH by exact Hfit. rewrite <- app_assoc. reflexivity.
    + assert (Hp : p < length lines) by lia.
      destruct (nth_error lines p) as [o|] eqn:Eo;
        [|apply nth_error_None in Eo; lia].
      rewrite (firstn_S_skipn lines p _ o Eo).
      destruct (startswith hl "-") eqn:Er.
      * replace (Z.of_nat p + 1)%Z with (Z.of_nat (S p)) by lia.
        rewrite IH by lia. do 3 f_equal. lia.
      * rewrite py_index_nat, Eo.
        replace (Z.of_nat p + 1)%Z with (Z.of_nat (S p)) by lia.
        rewrite IH by lia. rewrite <- app_assoc. simpl. do 3 f_equal. lia.
Qed.

Lemma merge_hunk_context body old :
  Forall (fun hl => is_context hl = true) body ->
  length old = covered body -> merge_hunk body old = old.
Proof.
  revert old. induction body as [|hl rest IH]; intros old H Hlen.
  - destruct old; [reflexivity | discriminate].
  - apply Forall_cons in H as [Hc Hrest]. unfold is_context in Hc.
    apply andb_true_iff in Hc as [Ha Hr]. apply negb_true_iff in Ha, Hr.
    unfold covered in *. simpl in *. rewrite Ha in *. simpl in *.
    destruct old as [|o old']; [discriminate|]. rewrite Hr.
    f_equal. apply IH; [exact Hrest | simpl in Hlen; lia].
Qed.

Lemma substring_all s : String.substring 0 (String.length s) s = s.
Proof. induction s as [|c s IH]; simpl; [reflexivity|]. rewrite IH. reflexivity. Qed.

Lemma tail_of_cons c t : tail_of (String c t) = t.
Proof.
  unfold tail_of. simpl. rewrite Nat.sub_0_r. apply substring_all.
Qed.

Lemma covered_app a b : covered (a ++ b) = covered a + covered b.
Proof. unfold covered. rewrite List.filter_app, length_app. reflexivity. Qed.

(** an added line at the end of a body puts its text after what the lines
    before it make *)
Lemma merge_hunk_snoc_added init t old :
  covered init <= length old ->
  merge_hunk (init ++ [String "+" t]) old = merge_hunk init old ++ [t].
Proof.
  revert old. induction init as [|hl rest IH]; intros old H.
  - change (merge_hunk ([] ++ [String "+" t]) old)
      with (if startswith (String "+" t) "+"
            then tail_of (String "+" t) :: []
            else match old with
                 | [] => []
                 | o :: old' =>
                     if startswith (String "+" t) "-" then [] else [o]
                 end).
    replace (startswith (String "+" t) "+") with true
      by (destruct t; reflexivity).
    rewrite tail_of_cons. reflexivity.
  - simpl. unfold covered in H. simpl in H.
    destruct (startswith hl "+") eqn:Ea; simpl in H.
    + rewrite IH by exact H. reflexivity.
    + destruct old as [|o old']; [simpl in H; lia|].
      simpl in H. destruct (startswith hl "-");
        rewrite IH by (unfold covered; lia); reflexivity.
Qed.

Lemma apply_hunk_lines_added lines body new_lines src_pos :
  Forall (fun hl => startswith hl "+" = true) body ->
  apply_hunk_lines lines body new_lines src_pos
  = Passed (new_lines ++ map tail_of body, src_pos).
Proof.
  revert new_lines. induction body as [|hl rest IH]; intros new_lines H; simpl.
  - rewrite app_nil_r. reflexivity.
  - apply Forall_cons in H as [Ha Hrest]. rewrite Ha.
    rewrite IH by exact Hrest. rewrite <- app_assoc. reflexivity.
Qed.

(** ** A block with one hunk *)

Lemma hunk_header_starts l g :
  hunk_header_start l = Some g -> startswith l "@@" = true.
Proof.
  unfold hunk_header_start.
  destruct (LocalPatcher.parse_hunk_header l) as [[[os ns] tail]|] eqn:E;
    [|discriminate].
  intros _. apply (parse_hunk_header_some _ _ _ _ E).
Qed.

Lemma find_hunks_none lines :
  Forall (fun l => hunk_header_start l = None) lines -> find_hunks lines = [].
Proof.
  induction 1 as [|l r Hl _ IH]; [reflexivity|]. simpl. rewrite Hl. exact IH.
Qed.

Lemma body_until_at_all lines :
  Forall (fun l => startswith l "@@" = false) lines -> body_until_at lines = lines.
Proof.
  induction 1 as [|l r Hl _ IH]; [reflexivity|]. simpl. rewrite Hl, IH. reflexivity.
Qed.

Lemma find_hunks_one pre header rest start :
  Forall (fun l => hunk_header_start l = None) pre ->
  hunk_header_start header = Some start ->
  Forall (fun l => startswith l "@@" = false) rest ->
  find_hunks (pre ++ header :: rest)
  = [{| h_start := start; h_body := concat rest |}].
Proof.
  intros Hpre Hh Hrest. induction Hpre as [|l r Hl _ IH].
  - simpl. rewrite Hh, (body_until_at_all _ Hrest), find_hunks_none; [reflexivity|].
    eapply Forall_impl; [exact Hrest|]. intros l Hl. simpl in Hl.
    destruct (hunk_header_start l) as [g|] eqn:E; [|reflexivity].
    apply hunk_header_starts in E. congruence.
  - simpl. rewrite Hl. exact IH.
Qed.

(** the body of the last hunk of a block does not end with a line end: the
    block is stripped before it is parsed *)
Lemma last_added_line_open block pre header rest init t :
  split_lf_keep (strip block) = pre ++ header :: rest ->
  splitlines_keep (concat rest) = init ++ [String "+" t] ->
  endswith t nl = false.
Proof.
  intros Hl Hb. destruct (endswith t nl) eqn:E; [|reflexivity]. exfalso.
  apply endswith_spec in E as (t' & ->).
  pose proof (concat_split_lf_keep (strip block)) as Hc.
  rewrite Hl, concat_app in Hc. simpl in Hc.
  rewrite <- (concat_splitlines_keep (concat rest)), Hb, concat_app in Hc.
  simpl in Hc. rewrite str_app_nil_r in Hc.
  apply (strip_no_final_lf block
           (concat pre +:+ header +:+ concat init +:+ String "+" t')).
  rewrite <- Hc, !str_app_assoc, str_app_cons. reflexivity.
Qed.

Section OneHunk.
Variable target_of : string -> string.
Variables read_error write_error : fs -> string -> option string.
Variables (block : string) (st : acc) (g : string).
Variables (pre : list string) (header : string) (rest : list string).
Variable start : string.

Hypothesis Htarget : search_target (split_lf_keep (strip block)) = Some g.
Hypothesis Hdev : strip g <> "/dev/null".
Hypothesis Hlines : split_lf_keep (strip block) = pre ++ header :: rest.
Hypothesis Hpre : Forall (fun l => hunk_header_start l = None) pre.
Hypothesis Hheader : hunk_header_start header = Some start.
Hypothesis Hrest : Forall (fun l => startswith l "@@" = false) rest.
Hypothesis Hstart : String.length start <= int_max_str_digits.
Hypothesis Hread : read_error (a_fs st) (target_of (strip g)) = None.
Hypothesis Hwrite : write_error (a_fs st) (target_of (strip g)) = None.

(** a block with one hunk writes what the hunk makes of the target *)
Lemma one_hunk_block new_lines :
  patched_lines
    match a_fs st !! target_of (strip g) with
    | Some content => readlines content
    | None => []
    end [{| h_start := start; h_body := concat rest |}] = Passed new_lines ->
  apply_block target_of read_error write_error block st =
    {| a_fs := <[target_of (strip g) := concat new_lines]> (a_fs st);
       applied := applied st ++ [strip g];
       errors := errors st; raised := raised st |}.
Proof.
  intros Hp.
  rewrite (GitOpsFacts.apply_block_unfold target_of read_error write_error
             block st g _ [] Htarget Hdev
             ltac:(rewrite Hlines; apply (find_hunks_one _ _ _ _ Hpre Hheader Hrest))
             Hread).
  rewrite Hp, Hwrite. reflexivity.
Qed.

End OneHunk.

(** X7.  A block with one hunk that lies in the file changes the file only
    where the hunk lies.  With the hunk starting at line [a + 1] and its body
    covering [k] lines, the text written is the first [a] lines of the
    file, then what the body makes of the next [k] lines (added text put
    in, a line dropped for every removed line, the line of the file kept
    for every context line, whatever text the hunk gives for it), then the
    rest of the file; a hunk of context lines only writes the file back as
    it was read.  The block is stripped before it is parsed, so the last
    line of the body has no line end: when it is an added line, its text
    is written without a line end and runs into the line of the file that
    follows the hunk. *)
Theorem single_hunk_is_local (target_of : string -> string)
        (read_error write_error : fs -> string -> option string)
        (block : string) (st : acc) (g : string)
        (pre : list string) (header : string) (rest : list string)
        (start : string) (a : nat) :
  search_target (split_lf_keep (strip block)) = Some g ->
  strip g <> "/dev/null" ->
  split_lf_keep (strip block) = pre ++ header :: rest ->
  Forall (fun l => hunk_header_start l = None) pre ->
  hunk_header_start header = Some start ->
  Forall (fun l => startswith l "@@" = false) rest ->
  String.length start <= int_max_str_digits ->
  read_error (a_fs st) (target_of (strip g)) = None ->
  write_error (a_fs st) (target_of (strip g)) = None ->
  let lines :=
    match a_fs st !! target_of (strip g) with
    | Some content => readlines content
    | None => []
    end in
  let body := splitlines_keep (concat rest) in
  int_of_digits start = Z.of_nat (S a) ->
  a + covered body <= length lines ->
  let old := firstn (covered body) (skipn a lines) in
  let written :=
    concat (firstn a lines) +:+ concat (merge_hunk body old)
    +:+ concat (skipn (a + covered body) lines) in
  apply_block target_of read_error write_error block st =
    {| a_fs := <[target_of (strip g) := written]> (a_fs st);
       applied := applied st ++ [strip g];
       errors := errors st; raised := raised st |}
  /\ (Forall (fun hl => is_context hl = true) body -> written = concat lines)
  /\ (forall init t,
        body = init ++ [String "+" t] ->
        endswith t nl = false /\
        written = concat (firstn a lines) +:+ concat (merge_hunk init old)
                  +:+ t +:+ concat (skipn (a + covered body) lines)).
Proof.
  intros Hg Hdev Hl Hpre Hh Hrest Hstart Hread Hwrite lines body Hs Hfit old written.
  assert (E : patched_lines lines [{| h_start := start; h_body := concat rest |}]
              = Passed (firstn a lines ++ merge_hunk body old
                        ++ skipn (a + covered body) lines)).
  { unfold patched_lines. simpl. rewrite (GitOpsFacts.py_int_short _ Hstart), Hs.
    replace (Z.of_nat (S a) - 1)%Z with (Z.of_nat a) by lia.
    change 0%Z with (Z.of_nat 0).
    rewrite py_slice_nat by lia. simpl.
    rewrite Nat.sub_0_r.
    fold body. rewrite apply_hunk_lines_fit by exact Hfit.
    rewrite py_slice_from_nat by exact Hfit.
    rewrite <- app_assoc. reflexivity. }
  split; [|split].
  - rewrite (one_hunk_block target_of read_error write_error block st g
               pre header rest start Hg Hdev Hl Hpre Hh Hrest Hread Hwrite _ E).
    rewrite !concat_app. reflexivity.
  - intros Hctx. unfold written.
    rewrite merge_hunk_context; [| exact Hctx |].
    + rewrite <- !concat_app. f_equal.
      replace (skipn (a + covered body) lines)
        with (skipn (covered body) (skipn a lines))
        by (rewrite skipn_skipn; f_equal; lia).
      unfold old. rewrite (firstn_skipn (covered body) (skipn a lines)).
      apply firstn_skipn.
    + unfold old. rewrite length_firstn, length_skipn. lia.
  - intros init t Hb. split.
    + apply (last_added_line_open block pre header rest init t Hl Hb).
    + unfold written. rewrite Hb, merge_hunk_snoc_added.
      * rewrite concat_app. simpl. rewrite str_app_nil_r, !str_app_assoc.
        reflexivity.
      * unfold old. rewrite length_firstn, length_skipn.
        assert (Hcov : covered body = covered init).
        { rewrite Hb, covered_app.
          replace (covered [String "+" t]) with 0 by (destruct t; reflexivity).
          lia. }
        lia.
Qed.

Lemma single_hunk_is_local_witness :
  a_fs (apply_block (fun p => p) no_os_error no_os_error
          patch_swap_second (start_acc tree_four_lines)) !! "A.py"
  = Some ("a" +:+ nl +:+ "b" +:+ nl +:+ "Cd" +:+ nl).
Proof.
  pose proof (single_hunk_is_local (fun p => p) no_os_error no_os_error
                patch_swap_second (start_acc tree_four_lines) "A.py"
                ["--- a/A.py" +:+ nl; "+++ b/A.py" +:+ nl]
                ("@@ -2,2 +2,2 @@" +:+ nl)
                [" B" +:+ nl; "-c" +:+ nl; "+C"] "2" 1
                eq_refl ltac:(discriminate) eq_refl) as H.
  assert (Hpre : Forall (fun l => hunk_header_start l = None)
                   ["--- a/A.py" +:+ nl; "+++ b/A.py" +:+ nl])
    by (repeat constructor).
  assert (Hrest : Forall (fun l => startswith l "@@" = false)
                    [" B" +:+ nl; "-c" +:+ nl; "+C"])
    by (repeat constructor).
  assert (Hstart : String.length "2" <= int_max_str_digits)
    by (apply Nat.leb_le; vm_compute; reflexivity).
  specialize (H Hpre eq_refl Hrest Hstart eq_refl eq_refl eq_refl
                ltac:(vm_compute; lia)).
  destruct H as (H & _ & _). rewrite H. vm_compute. reflexivity.
Defined.

(** X8.  A block with one hunk that starts at line 0 (the header written
    for a new file) and only adds lines puts them in before the last line
    of the file.  The text written is the file less its last line, the
    added lines, and the last line of the file; for a file that does not
    exist or is empty it is the added lines.  The last added line has no
    line end, the block being stripped before it is parsed: in a new file
    the last line is left open, and in a file that has lines the text of
    the last added line runs into the last line of the file. *)
Theorem zero_start_hunk_goes_before_last_line (target_of : string -> string)
        (read_error write_error : fs -> string -> option string)
        (block : string) (st : acc) (g : string)
        (pre : list string) (header : string) (rest : list string)
        (start : string) :
  search_target (split_lf_keep (strip block)) = Some g ->
  strip g <> "/dev/null" ->
  split_lf_keep (strip block) = pre ++ header :: rest ->
  Forall (fun l => hunk_header_start l = None) pre ->
  hunk_header_start header = Some start ->
  Forall (fun l => startswith l "@@" = false) rest ->
  String.length start <= int_max_str_digits ->
  read_error (a_fs st) (target_of (strip g)) = None ->
  write_error (a_fs st) (target_of (strip g)) = None ->
  let lines :=
    match a_fs st !! target_of (strip g) with
    | Some content => readlines content
    | None => []
    end in
  let body := splitlines_keep (concat rest) in
  int_of_digits start = 0%Z ->
  Forall (fun hl => startswith hl "+" = true) body ->
  let written :=
    concat (firstn (length lines - 1) lines) +:+ concat (map tail_of body)
    +:+ concat (skipn (length lines - 1) lines) in
  apply_block target_of read_error write_error block st =
    {| a_fs := <[target_of (strip g) := written]> (a_fs st);
       applied := applied st ++ [strip g];
       errors := errors st; raised := raised st |}
  /\ (lines = [] -> written = concat (map tail_of body))
  /\ (forall init t,
        body = init ++ [String "+" t] ->
        endswith t nl = false /\
        written = concat (firstn (length lines - 1) lines)
                  +:+ concat (map tail_of init) +:+ t
                  +:+ concat (skipn (length lines - 1) lines)).
Proof.
  intros Hg Hdev Hl Hpre Hh Hrest Hstart Hread Hwrite lines body Hs Hadd written.
  assert (E : patched_lines lines [{| h_start := start; h_body := concat rest |}]
              = Passed (firstn (length lines - 1) lines ++ map tail_of body
                        ++ skipn (length lines - 1) lines)).
  { unfold patched_lines. simpl. rewrite (GitOpsFacts.py_int_short _ Hstart), Hs.
    simpl. fold body.
    rewrite apply_hunk_lines_added by exact Hadd.
    unfold py_slice, py_slice_from, clamp_index. simpl.
    replace (Z.to_nat (Z.max 0 (0 - 1 + Z.of_nat (length lines))))
      with (length lines - 1) by lia.
    replace (Z.to_nat (Z.min 0 (Z.of_nat (length lines)))) with 0 by lia.
    simpl. rewrite Nat.sub_0_r, <- app_assoc. reflexivity. }
  split; [|split].
  - rewrite (one_hunk_block target_of read_error write_error block st g
               pre header rest start Hg Hdev Hl Hpre Hh Hrest Hread Hwrite _ E).
    rewrite !concat_app. reflexivity.
  - intros Hnil. unfold written. rewrite Hnil. simpl.
    rewrite str_app_nil_l, str_app_nil_r. reflexivity.
  - intros init t Hb. split.
    + apply (last_added_line_open block pre header rest init t Hl Hb).
    + unfold written. rewrite Hb, map_app, concat_app. simpl.
      rewrite tail_of_cons, str_app_nil_r, !str_app_assoc. reflexivity.
Qed.

Lemma zero_start_hunk_goes_before_last_line_witness :
  a_fs (apply_block (fun p => p) no_os_error no_os_error
          patch_new_file (start_acc tree_notes)) !! "notes.txt"
  = Some ("a" +:+ nl +:+ "b" +:+ nl +:+ "one" +:+ nl +:+ "twoc" +:+ nl)
  /\ a_fs (apply_block (fun p => p) no_os_error no_os_error
             patch_new_file (start_acc ∅)) !! "notes.txt"
     = Some ("one" +:+ nl +:+ "two").
Proof.
  assert (Hpre : Forall (fun l => hunk_header_start l = None)
                   ["--- /dev/null" +:+ nl; "+++ b/notes.txt" +:+ nl])
    by (repeat constructor).
  assert (Hrest : Forall (fun l => startswith l "@@" = false)
                    ["+one" +:+ nl; "+two"])
    by (repeat constructor).
  assert (Hstart : String.length "0" <= int_max_str_digits)
    by (apply Nat.leb_le; vm_compute; reflexivity).
  assert (Hadd : Forall (fun hl => startswith hl "+" = true)
                   (splitlines_keep (concat ["+one" +:+ nl; "+two"])))
    by (vm_compute; repeat constructor).
  split.
  - pose proof (zero_start_hunk_goes_before_last_line (fun p => p)
                  no_os_error no_os_error
                  patch_new_file (start_acc tree_notes) "notes.txt"
                  ["--- /dev/null" +:+ nl; "+++ b/notes.txt" +:+ nl]
                  ("@@ -0,0 +1,2 @@" +:+ nl)
                  ["+one" +:+ nl; "+two"] "0"
                  eq_refl ltac:(discriminate) eq_refl
                  Hpre eq_refl Hrest Hstart eq_refl eq_refl eq_refl Hadd) as H.
    destruct H as (H & _ & _). rewrite H. vm_compute. reflexivity.
  - pose proof (zero_start_hunk_goes_before_last_line (fun p => p)
                  no_os_error no_os_error
                  patch_new_file (start_acc ∅) "notes.txt"
                  ["--- /dev/null" +:+ nl; "+++ b/notes.txt" +:+ nl]
                  ("@@ -0,0 +1,2 @@" +:+ nl)
                  ["+one" +:+ nl; "+two"] "0"
                  eq_refl ltac:(discriminate) eq_refl
                  Hpre eq_refl Hrest Hstart eq_refl eq_refl eq_refl Hadd) as H.
    destruct H as (H & _ & _). rewrite H. vm_compute. reflexivity.
Defined.

End ApplierFacts.

(* ===================================================================== *)
(** * What the extractor, the sanitizer and the refiner return *)
(* ===================================================================== *)

Module PatcherFacts.
Import PyStr LocalPatcher LocalPatcherSpec LocalPatcherFacts PyStrFacts PatcherSpec.

Lemma is_minus_header_starts x :
  is_minus_header x = true -> startswith x "--- " = true.
Proof.
  unfold is_minus_header. intros H.
  apply orb_true_iff in H as [H | H]; [apply orb_true_iff in H as [H | H]|].
  - apply (startswith_shorter x "--- " "a/"), H.
  - apply (startswith_shorter x "--- " "/dev/null"), H.
  - apply andb_true_iff in H as [H _]. exact H.
Qed.

Lemma is_plus_header_starts x :
  is_plus_header x = true -> startswith x "+++ " = true.
Proof.
  unfold is_plus_header. intros H.
  apply orb_true_iff in H as [H | H]; [apply orb_true_iff in H as [H | H]|].
  - apply (startswith_shorter x "+++ " "b/"), H.
  - apply (startswith_shorter x "+++ " "/dev/null"), H.
  - apply andb_true_iff in H as [H _]. exact H.
Qed.

(** what the extractor returns, as lines *)
Lemma extract_diff_headers (text d : string) :
  _extract_diff text = Some d ->
  exists l1 l2 rest,
    splitlines_keep d = l1 :: l2 :: rest /\
    startswith l1 "--- " = true /\ startswith l2 "+++ " = true /\
    header_pair_at (l1 :: l2 :: rest) = true /\
    d = concat (l1 :: l2 :: rest).
Proof.
  intros H. pose proof (extract_diff_prepared text) as Hp.
  cbv zeta in Hp. rewrite H in Hp.
  destruct Hp as (pre & suf & Hl & Hpair & _ & Hd & _).
  apply splitlines_keep_suffix in Hl. rewrite <- Hd in Hl. rewrite Hl.
  destruct suf as [|l1 [|l2 rest]]; try discriminate.
  exists l1, l2, rest. split; [reflexivity|].
  pose proof Hpair as Hpair'. simpl in Hpair'.
  apply andb_true_iff in Hpair' as [Hm Hpl].
  apply is_minus_header_starts in Hm. apply is_plus_header_starts in Hpl.
  unfold rstrip_eol in Hm, Hpl.
  split; [apply (startswith_rstrip _ _ _ Hm)|].
  split; [apply (startswith_rstrip _ _ _ Hpl)|].
  split; [exact Hpair | exact Hd].
Qed.

(** X9.  What the extractor returns starts with a header pair: its first
    line starts with three dashes and a space, its second line with three
    plus signs and a space, the pair passes the test of the extractor, and
    the search for the first pair in the returned text gives the whole of
    it. *)
Theorem extract_diff_starts_with_headers (text d : string) :
  _extract_diff text = Some d ->
  exists l1 l2 rest,
    splitlines_keep d = l1 :: l2 :: rest /\
    startswith l1 "--- " = true /\ startswith l2 "+++ " = true /\
    header_pair_at (splitlines_keep d) = true /\
    find_header (splitlines_keep d) = Some d.
Proof.
  intros H.
  destruct (extract_diff_headers text d H)
    as (l1 & l2 & rest & Hk & H1 & H2 & Hpair & Hd).
  exists l1, l2, rest. rewrite Hk.
  split; [reflexivity|]. split; [exact H1|]. split; [exact H2|].
  split; [exact Hpair|].
  change (find_header (l1 :: l2 :: rest))
    with (if header_pair_at (l1 :: l2 :: rest)
          then Some (concat (l1 :: l2 :: rest))
          else find_header (l2 :: rest)).
  rewrite Hpair, Hd. reflexivity.
Qed.

Lemma extract_diff_starts_with_headers_witness :
  exists l1 l2 rest,
    splitlines_keep ("--- a/app.py" +:+ nl +:+ "+++ b/app.py" +:+ nl
                     +:+ "@@ -1 +1 @@" +:+ nl +:+ "-x" +:+ nl +:+ "+y" +:+ nl)
      = l1 :: l2 :: rest /\
    startswith l1 "--- " = true /\ startswith l2 "+++ " = true.
Proof.
  destruct (extract_diff_starts_with_headers text_in_prose
              ("--- a/app.py" +:+ nl +:+ "+++ b/app.py" +:+ nl
               +:+ "@@ -1 +1 @@" +:+ nl +:+ "-x" +:+ nl +:+ "+y" +:+ nl)
              eq_refl)
    as (l1 & l2 & rest & H1 & H2 & H3 & _).
  exists l1, l2, rest. split; [exact H1|]. split; [exact H2 | exact H3].
Defined.

(** ** The sanitizer, line by line *)

Lemma lines_back_keeps out i line :
  out !! i = Some line -> line <> EmptyString ->
  lines_back out !! i = Some line.
Proof.
  intros Hi Hne.
  destruct (list_snoc2_cases out) as [-> | [(a & ->) | (pre & b & a & ->)]].
  - discriminate.
  - destruct i; [|discriminate]. injection Hi as ->.
    unfold lines_back, core. destruct line; [congruence|]. reflexivity.
  - change (pre ++ [b; a]) with (pre ++ [b] ++ [a]) in *.
    rewrite app_assoc in *. unfold lines_back.
    rewrite core_snoc_ne by apply snoc_ne.
    destruct (is_blank a) eqn:Ea.
    + apply String.eqb_eq in Ea. subst a.
      destruct (decide (i < length (pre ++ [b]))) as [Hlt | Hge].
      * rewrite lookup_app_l in Hi by exact Hlt.
        destruct (pre ++ [b]) eqn:E; [apply snoc_ne in E; destruct E|].
        exact Hi.
      * rewrite lookup_app_r in Hi by lia.
        destruct (i - length (pre ++ [b])) as [|k]; simpl in Hi;
          [injection Hi as <-; congruence | discriminate].
    + destruct ((pre ++ [b]) ++ [a]) eqn:E; [apply snoc_ne in E; destruct E|].
      exact Hi.
Qed.

Lemma lines_back_length out : length (lines_back out) <= Nat.max 1 (length out).
Proof.
  unfold lines_back.
  assert (H : length (core out) <= length out).
  { destruct (list_snoc2_cases out) as [-> | [(a & ->) | (pre & b & a & ->)]].
    - simpl. lia.
    - unfold core. simpl. destruct a; simpl; lia.
    - change (pre ++ [b; a]) with (pre ++ [b] ++ [a]).
      rewrite app_assoc, core_snoc_ne by apply snoc_ne.
      destruct (is_blank a); rewrite ?length_app; simpl; lia. }
  destruct (core out); simpl in *; lia.
Qed.

Lemma rewrite_header_unparsed line body :
  parse_hunk_header line = None -> rewrite_header line body = line.
Proof. intros H. unfold rewrite_header. rewrite H. reflexivity. Qed.

(** the end of the sanitized text *)
Lemma sanitize_end (D : string) :
  endswith (_sanitize_diff D) nl = true /\ no_cr (_sanitize_diff D).
Proof.
  destruct (sanitize_twice D) as (_ & Hf & _ & _ & Hc). cbv zeta in *.
  split.
  - rewrite Hf, finish_text_core by exact Hc. apply endswith_app_nl.
  - rewrite Hf. apply finish_text_no_cr, Hc.
Qed.

(** a line that is no well-formed hunk header stays where it is *)
Lemma sanitize_keeps_line (D : string) i line :
  splitlines D !! i = Some line -> line <> EmptyString ->
  parse_hunk_header line = None ->
  splitlines (_sanitize_diff D) !! i = Some line.
Proof.
  destruct (sanitize_twice D) as (_ & _ & Hl & _ & _).
  cbv zeta in *. rewrite splitlines_normalize in *. rewrite Hl.
  intros Hi Hne Hp. apply lines_back_keeps; [|exact Hne].
  rewrite sanitize_map_lookup, Hi.
  rewrite rewrite_header_unparsed by exact Hp.
  destruct (startswith line "@@"); reflexivity.
Qed.

(** X10.  The sanitizer rewrites hunk headers and line ends and nothing
    else.  Its result ends with LF and has no CR; every line of the input
    that is not empty and is no well-formed hunk header is in the result
    at the same place, unchanged; every non-empty line of the result is the
    line at that place in the input, or stands for a well-formed hunk
    header there; and the result has no more lines than the input (one
    line when the input has none). *)
Theorem sanitize_rewrites_headers_only (D : string) :
  let out := _sanitize_diff D in
  endswith out nl = true /\ no_cr out
  /\ (forall i line,
        splitlines D !! i = Some line -> line <> EmptyString ->
        parse_hunk_header line = None ->
        splitlines out !! i = Some line)
  /\ (forall i line',
        splitlines out !! i = Some line' -> line' <> EmptyString ->
        exists line, splitlines D !! i = Some line /\
          (line' = line \/ parse_hunk_header line <> None))
  /\ length (splitlines out) <= Nat.max 1 (length (splitlines D)).
Proof.
  cbv zeta. destruct (sanitize_end D) as [He Hcr].
  split; [exact He|]. split; [exact Hcr|].
  split; [intros i line; apply sanitize_keeps_line|].
  destruct (sanitize_twice D) as (_ & _ & Hl & _ & _).
  cbv zeta in *. rewrite splitlines_normalize in *. rewrite Hl. split.
  - intros i line' Hi Hne. apply lines_back_lookup in Hi; [|exact Hne].
    rewrite sanitize_map_lookup in Hi.
    destruct (splitlines D !! i) as [line|]; [|discriminate].
    exists line. split; [reflexivity|]. injection Hi as <-.
    destruct (parse_hunk_header line) eqn:Ep.
    + right. discriminate.
    + left. rewrite rewrite_header_unparsed by exact Ep.
      destruct (startswith line "@@"); reflexivity.
  - etransitivity; [apply lines_back_length|].
    rewrite sanitize_map_length. reflexivity.
Qed.

Lemma sanitize_rewrites_headers_only_witness :
  splitlines (_sanitize_diff diff_wrong_counts) !! 0 = Some "--- a/app.py"
  /\ splitlines (_sanitize_diff diff_wrong_counts) !! 3 = Some " a".
Proof.
  pose proof (sanitize_rewrites_headers_only diff_wrong_counts) as H.
  cbv zeta in H. destruct H as (_ & _ & H & _).
  split; apply H; first [reflexivity | discriminate].
Defined.

(** a header line of a file is no hunk header *)
Lemma minus_line_unparsed line :
  startswith line "--- " = true ->
  parse_hunk_header line = None /\ line <> EmptyString.
Proof.
  intros H. apply startswith_spec in H as (r & ->).
  split; [reflexivity | discriminate].
Qed.

Lemma plus_line_unparsed line :
  startswith line "+++ " = true ->
  parse_hunk_header line = None /\ line <> EmptyString.
Proof.
  intros H. apply startswith_spec in H as (r & ->).
  split; [reflexivity | discriminate].
Qed.

(** the sanitized text of an extracted diff still starts with its headers *)
Lemma sanitized_extract_headers text e :
  _extract_diff text = Some e ->
  exists x y rest,
    splitlines (_sanitize_diff e) = x :: y :: rest /\
    startswith x "--- " = true /\ startswith y "+++ " = true.
Proof.
  intros H.
  destruct (extract_diff_headers text e H)
    as (l1 & l2 & rest & Hk & H1 & H2 & _).
  destruct (splitlines_keep_tail e l1 (l2 :: rest) Hk) as (Hk2 & x & Hx & Hpx).
  destruct (splitlines_keep_tail _ l2 rest Hk2) as (_ & y & Hy & Hpy).
  rewrite Hy in Hx.
  specialize (Hpx "--- " eq_refl H1). specialize (Hpy "+++ " eq_refl H2).
  destruct (minus_line_unparsed x Hpx) as [Px Nx].
  destruct (plus_line_unparsed y Hpy) as [Py Ny].
  pose proof (sanitize_keeps_line e 0 x ltac:(rewrite Hx; reflexivity) Nx Px)
    as K0.
  pose proof (sanitize_keeps_line e 1 y ltac:(rewrite Hx; reflexivity) Ny Py)
    as K1.
  destruct (splitlines (_sanitize_diff e)) as [|x' [|y' rest']];
    try discriminate.
  injection K0 as ->. injection K1 as ->.
  exists x, y, rest'. split; [reflexivity|]. split; assumption.
Qed.

End PatcherFacts.

Module RefinerFacts.
Import PyStr LocalPatcher LocalPatcherSpec LocalPatcherFacts PyStrFacts
       PatcherFacts PatcherSpec Refiner.

Lemma endswith_nonempty s : endswith s nl = true -> s <> EmptyString.
Proof. intros H ->. discriminate. Qed.

(** X11.  [refine_patch] on the answer of the refiner.  It reports an
    error exactly when the answer is an error text of the Ollama call, and
    then returns the original diff with the text of the answer in the
    error.  On any other answer it returns no error and, when a diff can be
    extracted from the stripped answer, the sanitized extracted diff, which
    starts with a [---] line and a [+++] line, ends with LF and has no CR;
    when none can be extracted it returns the original diff, and so it
    does for every answer that has no header pair and no one-dash header.
    A non-empty original diff never gives an empty result. *)
Theorem refine_patch_result (diff raw : string) :
  let r := refine_patch diff raw in
  (snd r <> EmptyString <-> startswith raw "(Ollama" = true)
  /\ (startswith raw "(Ollama" = true ->
      r = (diff, "Refiner unavailable: " +:+ raw))
  /\ (startswith raw "(Ollama" = false ->
      match _extract_diff (strip raw) with
      | Some e =>
          r = (_sanitize_diff e, EmptyString) /\
          exists x y rest,
            splitlines (fst r) = x :: y :: rest /\
            startswith x "--- " = true /\ startswith y "+++ " = true /\
            endswith (fst r) nl = true /\ no_cr (fst r)
      | None => r = (diff, EmptyString)
      end)
  /\ (startswith raw "(Ollama" = false ->
      needs_repair (splitlines_keep (strip raw)) = false ->
      (forall k, header_pair_at (drop k (splitlines_keep (strip raw))) = false) ->
      r = (diff, EmptyString))
  /\ (diff <> EmptyString -> fst r <> EmptyString).
Proof.
  unfold refine_patch. destruct (startswith raw "(Ollama") eqn:Eo; cbv zeta.
  - split; [split; [reflexivity | discriminate]|].
    split; [reflexivity|]. split; [discriminate|]. split; [discriminate|].
    intros H. exact H.
  - split.
    { destruct (_extract_diff (strip raw)); simpl;
        (split; [congruence | discriminate]). }
    split; [discriminate|]. split; [|split].
    + intros _. destruct (_extract_diff (strip raw)) as [e|] eqn:Ee;
        [|reflexivity].
      split; [reflexivity|].
      destruct (sanitize_end e) as (Hend & Hcr).
      destruct (sanitized_extract_headers _ e Ee) as (x & y & rest & Hl & Hx & Hy).
      exists x, y, rest. repeat split; assumption.
    + intros _ Hrep Hno.
      rewrite (ExtractorFacts.extract_none_without_pair _ Hrep Hno).
      reflexivity.
    + intros Hne. destruct (_extract_diff (strip raw)) as [e|]; simpl;
        [|exact Hne].
      apply endswith_nonempty, (proj1 (sanitize_end e)).
Qed.

Lemma refine_patch_result_witness :
  refine_patch "draft" refiner_answer
  = ("--- a/app.py" +:+ nl +:+ "+++ b/app.py" +:+ nl
     +:+ "@@ -1,1 +1,1 @@" +:+ nl +:+ "-x" +:+ nl +:+ "+y" +:+ nl, EmptyString)
  /\ refine_patch "draft" "I cannot improve it." = ("draft", EmptyString).
Proof.
  pose proof (refine_patch_result "draft" refiner_answer) as (_ & _ & H & _).
  pose proof (refine_patch_result "draft" "I cannot improve it.")
    as (_ & _ & _ & H2 & _).
  split.
  - specialize (H eq_refl).
    destruct (_extract_diff (strip refiner_answer)) as [e|] eqn:E.
    + destruct H as [H _]. rewrite H. vm_compute in E. injection E as <-.
      vm_compute. reflexivity.
    + vm_compute in E. discriminate.
  - apply H2; [reflexivity|reflexivity|].
    intros k.
    change (splitlines_keep (strip "I cannot improve it."))
      with ["I cannot improve it."].
    destruct k as [|[|k]]; reflexivity.
Defined.

End RefinerFacts.

(* ===================================================================== *)
(** * The checks on a pasted answer *)
(* ===================================================================== *)

Module ExecutorFacts.
Import PyStr LocalPatcher LocalPatcherSpec LocalPatcherFacts PyStrFacts
       PatcherSpec Executor.

Lemma search_header_pair_none lines :
  (forall l, In l lines -> minus_header_line l = false) ->
  search_header_pair lines = false.
Proof.
  induction lines as [|l rest IH]; intros H; [reflexivity|].
  simpl. destruct rest as [|next rest']; [reflexivity|].
  rewrite (H l) by (left; reflexivity). simpl.
  apply IH. intros x Hx. apply H. right. exact Hx.
Qed.

(** X12.  The check on a pasted diff wants a name after the old-file
    header.  A text in which no line starts with [--- a/] and every line
    that starts with [--- /dev/null] is that header and nothing more (the
    header of a diff that creates a file) does not pass
    [_looks_like_diff]. *)
Theorem looks_like_diff_rejects_created_files (text : string) :
  (forall l, In l (GitOps.split_lf_keep text) ->
             startswith l "--- a/" = false) ->
  (forall l, In l (GitOps.split_lf_keep text) ->
             startswith l "--- /dev/null" = true ->
             l = "--- /dev/null" +:+ nl \/ l = "--- /dev/null") ->
  _looks_like_diff text = false.
Proof.
  intros Ha Hn. unfold _looks_like_diff. apply search_header_pair_none.
  intros l Hl. unfold minus_header_line.
  destruct (strip_prefix "--- a/" l) as [r|] eqn:E1.
  - assert (startswith l "--- a/" = true)
      by (apply startswith_strip_prefix; exists r; exact E1).
    rewrite (Ha l Hl) in H. discriminate.
  - destruct (strip_prefix "--- /dev/null" l) as [r|] eqn:E2; [|reflexivity].
    assert (Hs : startswith l "--- /dev/null" = true)
      by (apply startswith_strip_prefix; exists r; exact E2).
    destruct (Hn l Hl Hs) as [-> | ->]; vm_compute in E2;
      injection E2 as <-; reflexivity.
Qed.

Lemma looks_like_diff_rejects_created_files_witness :
  _looks_like_diff diff_new_file = false
  /\ _extract_diff diff_new_file = Some diff_new_file
  /\ _sanitize_diff diff_new_file = diff_new_file.
Proof.
  split; [|split; vm_compute; reflexivity].
  apply looks_like_diff_rejects_created_files.
  - intros l Hl. vm_compute in Hl.
    repeat (destruct Hl as [<- | Hl]; [reflexivity|]). destruct Hl.
  - intros l Hl Hs. vm_compute in Hl.
    repeat (destruct Hl as [<- | Hl];
            [first [left; reflexivity | discriminate Hs]|]).
    destruct Hl.
Defined.

(** ** The fence *)

Lemma splitlines_join_last lines x :
  Forall clean lines -> clean x -> x <> EmptyString ->
  splitlines (join nl (lines ++ [x])) = lines ++ [x].
Proof.
  intros Hc Hx Hne. induction lines as [|l rest IH].
  - simpl. destruct x as [|c x]; [congruence|].
    pose proof (splitlines_join_nl [String c x]
                  ltac:(constructor; [exact Hx | constructor])
                  ltac:(discriminate)) as H.
    simpl in H. clear H.
    assert (G : forall s, clean s -> s <> EmptyString -> splitlines s = [s]).
    { clear. induction s as [|a s IHs]; intros Hs Hn; [congruence|].
      unfold clean in Hs. simpl in Hs. apply andb_true_iff in Hs as [Ha Hs].
      apply negb_true_iff in Ha. rewrite splitlines_cons, Ha.
      destruct s as [|b s]; [reflexivity|].
      rewrite (IHs Hs ltac:(discriminate)). reflexivity. }
    apply G; [exact Hx | discriminate].
  - apply Forall_cons in Hc as [Hl Hrest].
    change ((l :: rest) ++ [x]) with (l :: (rest ++ [x])).
    destruct (rest ++ [x]) as [|y ys] eqn:E; [apply snoc_ne in E; destruct E|].
    rewrite join_cons, splitlines_line_nl by exact Hl.
    rewrite (IH Hrest). reflexivity.
Qed.

Lemma last_snoc {A} (l : list A) (x d : A) : List.last (l ++ [x]) d = x.
Proof. apply last_last. Qed.

(** X13.  A fenced answer is unwrapped.  For a text made of an opening
    fence line (three backticks and a language tag), the lines of a body
    and a closing fence, [_strip_code_fences] returns the body lines joined
    by LF, with the white space around the whole removed; a text that does
    not start with three backticks is returned as it is. *)
Theorem strip_code_fences_unwraps (tag : string) (body : list string) :
  clean tag -> Forall clean body ->
  _strip_code_fences
    (join nl ((("```" +:+ tag) :: body) ++ ["```"]))
  = strip (join nl body)
  /\ forall text, startswith text "```" = false ->
                  _strip_code_fences text = text.
Proof.
  intros Ht Hb. split.
  - unfold _strip_code_fences.
    assert (Hs : startswith (join nl ((("```" +:+ tag) :: body) ++ ["```"]))
                            "```" = true).
    { change ((("```" +:+ tag) :: body) ++ ["```"])
        with (("```" +:+ tag) :: (body ++ ["```"])).
      destruct (body ++ ["```"]) as [|y ys] eqn:E;
        [apply snoc_ne in E; destruct E|].
      rewrite join_cons, str_app_assoc. apply startswith_app. }
    rewrite Hs.
    rewrite splitlines_join_last;
      [| constructor; [|exact Hb] | reflexivity | discriminate].
    + rewrite last_snoc. change (strip "```" =? "```")%string with true.
      cbv iota. rewrite length_app. simpl length.
      unfold slice. simpl skipn.
      replace (S (length body) + 1 - 1 - 1) with (length body) by lia.
      change (drop 0 (body ++ ["```"])) with (body ++ ["```"]).
      rewrite firstn_app, firstn_all, Nat.sub_diag. simpl.
      rewrite app_nil_r. reflexivity.
    + unfold clean in *. rewrite all_chars_app, Ht. reflexivity.
  - intros text H. unfold _strip_code_fences. rewrite H. reflexivity.
Qed.

Lemma strip_code_fences_unwraps_witness :
  _strip_code_fences fenced_new_file
  = "--- /dev/null" +:+ nl +:+ "+++ b/notes.txt" +:+ nl
    +:+ "@@ -0,0 +1,2 @@" +:+ nl +:+ "+one" +:+ nl +:+ "+two".
Proof.
  exact (proj1 (strip_code_fences_unwraps "diff"
           ["--- /dev/null"; "+++ b/notes.txt"; "@@ -0,0 +1,2 @@"; "+one"; "+two"]
           eq_refl ltac:(repeat constructor))).
Defined.

End ExecutorFacts.

(* ===================================================================== *)
(** * When the review parser raises *)
(* ===================================================================== *)

Module ReviewFacts.
Import PyStr Reviewer ReviewerSpec LocalPatcherFacts PyStrFacts.

Lemma from_first_head c s r :
  from_first c s = Some r -> exists r', r = String c r'.
Proof.
  induction s as [|a s IH]; simpl; [discriminate|].
  destruct (Ascii.eqb a c) eqn:E.
  - intros H. injection H as <-. apply Ascii.eqb_eq in E. subst a.
    exists s. reflexivity.
  - exact IH.
Qed.

Lemma from_first_snoc c d x r :
  Ascii.eqb d c = false ->
  from_first c (x +:+ String d EmptyString) = Some r ->
  exists r', r = r' +:+ String d EmptyString.
Proof.
  intros Hd. induction x as [|a x IH].
  - rewrite str_app_nil_l. simpl. rewrite Hd. discriminate.
  - rewrite str_app_cons. simpl. destruct (Ascii.eqb a c).
    + intros H. injection H as <-. exists (String a x).
      rewrite str_app_cons. reflexivity.
    + exact IH.
Qed.

(** what the search for a JSON object finds starts with a brace *)
Lemma search_braces_starts text g :
  search_braces text = Some g -> startswith g "{" = true.
Proof.
  unfold search_braces.
  destruct (from_first "{" text) as [s|] eqn:E1; [|discriminate].
  destruct (from_first_head _ _ _ E1) as (s0 & ->).
  destruct (from_first "}" (String.rev (String "{" s0))) as [r|] eqn:E2;
    [|discriminate].
  intros H. injection H as <-.
  rewrite rev_cons in E2.
  destruct (from_first_snoc "}" "{" _ _ eq_refl E2) as (r' & ->).
  rewrite rev_app. apply startswith_app.
Qed.

Section Facts.
Variable json_loads : string -> loaded.
Variable py_str : json -> string.

Lemma parse_text_review_cases raw :
  (raw = EmptyString /\ parse_text_review raw = Raise IndexError)
  \/ (raw <> EmptyString /\
      exists r, parse_text_review raw = Ok r /\ Reviewer.raw r = raw).
Proof.
  destruct raw as [|c raw]; [left; split; reflexivity|].
  right. split; [discriminate|]. unfold parse_text_review.
  destruct (search_summary (String c raw)).
  - eexists. split; reflexivity.
  - destruct (splitlines (String c raw)) eqn:E.
    + apply splitlines_nil in E. discriminate.
    + eexists. split; reflexivity.
Qed.

(** X14.  What the parser of the reviewer's answer raises.  [IndexError] is
    raised on the empty answer and on no other.  On an answer that is not
    empty the outcome is decided by the text from the first opening brace
    to the last closing brace of the unfenced answer: without such a text,
    or when [json.loads] rejects it with [JSONDecodeError] or loads an
    object from it, the parser returns a review, whose verdict is one of
    approve, concerns and reject and which carries the answer as given;
    when the text loads as a value that is no object the parser raises
    [AttributeError]; and when [json.loads] raises [ValueError] (an integer
    of more than 4300 digits) or [RecursionError], which the [except]
    clause does not name, the parser raises the same. *)
Theorem parse_review_raises_on_empty_only (raw : string) :
  (_parse_review json_loads py_str raw = Raise IndexError
   <-> raw = EmptyString)
  /\ (raw <> EmptyString ->
      let returns :=
        exists r, _parse_review json_loads py_str raw = Ok r
                  /\ is_verdict (verdict r) /\ Reviewer.raw r = raw in
      match search_braces (strip_fences (strip raw)) with
      | None => returns
      | Some group =>
          startswith group "{" = true /\
          match json_loads group with
          | JSONDecodeError | Loaded (JObj _) => returns
          | Loaded _ =>
              _parse_review json_loads py_str raw = Raise AttributeError
          | LoadsValueError =>
              _parse_review json_loads py_str raw = Raise ValueError
          | LoadsRecursionError =>
              _parse_review json_loads py_str raw = Raise RecursionError
          end
      end).
Proof.
  split; [split|].
  - intros H. destruct (parse_text_review_cases raw)
      as [[-> _] | (Hne & r & Hr & _)]; [reflexivity|].
    exfalso. unfold _parse_review in H.
    destruct (search_braces _) as [group|]; [|congruence].
    unfold parse_json_review in H.
    destruct (json_loads group) as [[| | | | |data]| | |];
      try congruence; try discriminate.
    destruct (iter_issues data); [discriminate | congruence].
  - intros ->. reflexivity.
  - intros Hne. cbv zeta.
    assert (Ht : exists r, parse_text_review raw = Ok r /\ Reviewer.raw r = raw).
    { destruct (parse_text_review_cases raw) as [[-> _] | (_ & H)];
        [congruence | exact H]. }
    assert (Hv : forall r, _parse_review json_loads py_str raw = Ok r ->
                           Reviewer.raw r = raw ->
                 exists r, _parse_review json_loads py_str raw = Ok r
                           /\ is_verdict (verdict r) /\ Reviewer.raw r = raw).
    { intros r Hr Hraw. exists r. split; [exact Hr|]. split; [|exact Hraw].
      apply (ReviewerFacts.parse_review_verdict json_loads py_str raw r Hr). }
    unfold _parse_review in *.
    destruct (search_braces _) as [group|] eqn:Eg.
    + split; [apply (search_braces_starts _ _ Eg)|].
      unfold parse_json_review in *.
      destruct (json_loads group) as [[| | | | |data]| | |];
        try reflexivity.
      * destruct (iter_issues data).
        -- apply (Hv _ eq_refl). reflexivity.
        -- destruct Ht as (r & Hr & Hraw). apply (Hv r Hr Hraw).
      * destruct Ht as (r & Hr & Hraw). apply (Hv r Hr Hraw).
    + destruct Ht as (r & Hr & Hraw). apply (Hv r Hr Hraw).
Qed.

End Facts.

Lemma parse_review_raises_on_empty_only_witness :
  exists r, _parse_review (fun _ => JSONDecodeError) (fun _ => EmptyString)
              "Looks fine, I approve." = Ok r
            /\ verdict r = "approve".
Proof.
  pose proof (proj2 (parse_review_raises_on_empty_only
                       (fun _ => JSONDecodeError) (fun _ => EmptyString)
                       "Looks fine, I approve.")
                ltac:(discriminate)) as H.
  cbv zeta in H.
  change (search_braces (strip_fences (strip "Looks fine, I approve.")))
    with (@None string) in H.
  cbv iota in H. destruct H as (r & Hr & _ & _).
  exists r. split; [exact Hr|].
  vm_compute in Hr. injection Hr as <-. reflexivity.
Defined.

End ReviewFacts.

(* ===================================================================== *)
(** * Skipping, the pointer, and what the page brings back *)
(* ===================================================================== *)

Module RoutesFacts.
Import PyStr Storage Server ServerSpec StorageFiles ServerRoutes.

(** ** Skip, and where the pointer goes *)

Lemma active_step_root w step :
  _active_step w = Some step -> load_plan_if_root w = plan_file w.
Proof.
  unfold _active_step, load_plan_if_root.
  destruct (String.eqb _ _); [discriminate | reflexivity].
Qed.

(** X15.  Skipping.  With an active step the handler marks it skipped in
    the plan (the first step with its id), moves the pointer to the first
    step that is still pending, drops the draft and the review of the step
    and keeps its refined diff, the final prompt and the project files;
    without an active step it only reports the error. *)
Theorem skip_step_settles (w : world) :
  match _active_step w with
  | Some step =>
      let w' := skip_step w in
      tree w' = tree w /\
      plan_file w' = update_step_status (id step) "skipped" (plan_file w) /\
      status_of (id step) w' = Some "skipped" /\
      active_step_id (w_state w') = next_pending_id (plan_file w') /\
      diffs (w_state w') = delete (id step) (diffs (w_state w)) /\
      reviews (w_state w') = delete (id step) (reviews (w_state w)) /\
      refined_diffs (w_state w') = refined_diffs (w_state w) /\
      final_prompt (w_state w') = final_prompt (w_state w) /\
      bg_running (w_state w') = bg_running (w_state w) /\
      error (w_state w') = EmptyString
  | None => skip_step w = _flash "" "No active step." w
  end.
Proof.
  destruct (_active_step w) as [step|] eqn:Hact.
  - destruct (ServerFacts.active_step_id_eq w step Hact) as (p & Hp & Hfind).
    unfold skip_step. rewrite Hact. simpl. repeat split.
    unfold status_of. simpl. rewrite Hp. simpl.
    rewrite (StorageFacts.set_first_status_find _ _ _ _ Hfind). reflexivity.
  - unfold skip_step. rewrite Hact. reflexivity.
Qed.

Lemma skip_step_settles_witness :
  status_of 1 (skip_step world_refined) = Some "skipped"
  /\ active_step_id (w_state (skip_step world_refined)) = Some 2%Z
  /\ refined_diffs (w_state (skip_step world_refined)) !! 1%Z = Some "refined".
Proof.
  pose proof (skip_step_settles world_refined) as H.
  change (_active_step world_refined)
    with (Some (mk_step 1 "import logging" (Some "pending"))) in H.
  cbv zeta in H. destruct H as (_ & _ & Hs & Ha & _ & _ & Hr & _).
  split; [exact Hs|]. split; [rewrite Ha; reflexivity|].
  rewrite Hr. apply lookup_insert_eq.
Defined.

Lemma nodup_id_unique (l : list step) a b :
  NoDup (map id l) -> In a l -> In b l -> id a = id b -> a = b.
Proof.
  induction l as [|x l IH]; intros Hnd Ha Hb Hid; [destruct Ha|].
  simpl in Hnd. apply NoDup_cons in Hnd as [Hx Hnd].
  destruct Ha as [-> | Ha]; destruct Hb as [-> | Hb].
  - reflexivity.
  - exfalso. apply Hx. rewrite Hid. apply list_elem_of_In, in_map, Hb.
  - exfalso. apply Hx. rewrite <- Hid. apply list_elem_of_In, in_map, Ha.
  - apply IH; assumption.
Qed.

Lemma find_id_unique (l : list step) s :
  NoDup (map id l) -> In s l ->
  find (fun x => (id x =? id s)%Z) l = Some s.
Proof.
  intros Hnd Hin.
  destruct (find (fun x => (id x =? id s)%Z) l) as [y|] eqn:E.
  - apply find_some in E as [Hy Hid]. apply Z.eqb_eq in Hid.
    f_equal. apply (nodup_id_unique l); assumption.
  - exfalso. pose proof (find_none _ _ E s Hin) as H. simpl in H.
    rewrite Z.eqb_refl in H. discriminate.
Qed.

(** the pointer after a step was given the status [st] *)
Lemma settled_pointer (w : world) (step : step) (p : plan) (st : string) :
  _active_step w = Some step -> plan_file w = Some p ->
  String.eqb st "pending" = false ->
  let p' := {| goal := goal p;
               steps := set_first_status (id step) st (steps p) |} in
  let next := next_pending_id (Some p') in
  (next = option_map id (find is_pending (steps p')))
  /\ (next = None <-> forall s, In s (steps p') -> is_pending s = false)
  /\ (NoDup (map id (steps p)) ->
      next <> Some (id step)
      /\ forall s', find is_pending (steps p') = Some s' ->
                    find (fun x => (id x =? id s')%Z) (steps p') = Some s').
Proof.
  intros Hact Hp Hst p' next.
  destruct (ServerFacts.active_step_id_eq w step Hact) as (p0 & Hp0 & Hfind).
  rewrite Hp in Hp0. injection Hp0 as <-.
  split; [reflexivity|]. split.
  - unfold next, next_pending_id. split.
    + intros H s Hs. destruct (find is_pending (steps p')) eqn:E;
        [discriminate|]. apply (find_none _ _ E s Hs).
    + intros H. destruct (find is_pending (steps p')) as [s|] eqn:E;
        [|reflexivity].
      apply find_some in E as [Hin Hpend]. rewrite (H s Hin) in Hpend.
      discriminate.
  - intros Hnd.
    assert (Hnd' : NoDup (map id (steps p'))).
    { simpl. rewrite PlanFacts.set_first_status_ids. exact Hnd. }
    split.
    + unfold next, next_pending_id.
      destruct (find is_pending (steps p')) as [s|] eqn:E; [|discriminate].
      simpl. intros Heq. injection Heq as Heq.
      apply find_some in E as [Hin Hpend].
      pose proof (StorageFacts.set_first_status_find _ st _ _ Hfind) as Hf.
      fold (steps p') in Hf.
      pose proof (find_some _ _ Hf) as [Hin2 _].
      assert (s = set_status step st).
      { apply (nodup_id_unique (steps p')); assumption. }
      subst s. unfold is_pending, status_or_pending in Hpend. simpl in Hpend.
      congruence.
    + intros s' E. apply find_some in E as [Hin _].
      apply find_id_unique; assumption.
Qed.

(** X16.  Where the pointer goes when a step is approved or skipped.  The
    new pointer is the id of the first pending step of the rewritten plan,
    and there is none exactly when no step is pending any more.  When the
    ids of the plan are pairwise different the pointer leaves the settled
    step, and the step it selects is that first pending step. *)
Theorem settled_step_hands_over (w w' : world) (step : step) (p : plan) :
  _active_step w = Some step -> plan_file w = Some p ->
  w' = skip_step w
  \/ (best_diff (w_state w) (id step) <> EmptyString
      /\ w' = apply_patch_route w) ->
  active_step_id (w_state w') = option_map id (_first_pending_step w')
  /\ (active_step_id (w_state w') = None <->
      forall p' s, plan_file w' = Some p' -> In s (steps p') ->
                   is_pending s = false)
  /\ (NoDup (map id (steps p)) ->
      active_step_id (w_state w') <> Some (id step)
      /\ _active_step w' = _first_pending_step w').
Proof.
  intros Hact Hp Hw'.
  assert (Hroot : String.eqb (project_root (w_state w)) "" = false).
  { unfold _active_step, load_plan_if_root in Hact.
    destruct (String.eqb _ _); [discriminate | reflexivity]. }
  assert (Hshape : exists st,
    String.eqb st "pending" = false /\
    plan_file w' = Some {| goal := goal p;
                           steps := set_first_status (id step) st (steps p) |} /\
    active_step_id (w_state w')
      = next_pending_id (Some {| goal := goal p;
                   steps := set_first_status (id step) st (steps p) |}) /\
    project_root (w_state w') = project_root (w_state w)).
  { destruct Hw' as [-> | [Hd ->]].
    - exists "skipped". unfold skip_step. rewrite Hact, Hp. simpl.
      repeat split.
    - exists "approved". unfold apply_patch_route. rewrite Hact, Hp.
      destruct (best_diff (w_state w) (id step)); [contradiction|].
      simpl. repeat split. }
  destruct Hshape as (st & Hst & Hpf & Hptr & Hpr).
  destruct (settled_pointer w step p st Hact Hp Hst) as (H1 & H2 & H3).
  cbv zeta in H1, H2, H3.
  assert (Hfirst : _first_pending_step w'
                   = find is_pending (set_first_status (id step) st (steps p))).
  { unfold _first_pending_step, load_plan_if_root.
    rewrite Hpr, Hroot, Hpf. reflexivity. }
  split; [rewrite Hptr, Hfirst; exact H1|]. split.
  - rewrite Hptr. split.
    + intros Hn p' s Hp' Hs. rewrite Hpf in Hp'. injection Hp' as <-.
      apply (proj1 H2 Hn s Hs).
    + intros Hall. apply (proj2 H2). intros s Hs.
      apply (Hall _ s Hpf Hs).
  - intros Hnd. destruct (H3 Hnd) as [Hne Hsel].
    split; [rewrite Hptr; exact Hne|].
    rewrite Hfirst. unfold _active_step, load_plan_if_root.
    rewrite Hpr, Hroot, Hpf, Hptr. simpl in *.
    unfold next_pending_id. simpl.
    destruct (find is_pending (set_first_status (id step) st (steps p)))
      as [s'|] eqn:E; [|reflexivity].
    simpl. apply Hsel. reflexivity.
Qed.

Lemma settled_step_hands_over_witness :
  active_step_id (w_state (apply_patch_route world_refined)) <> Some 1%Z
  /\ _active_step (apply_patch_route world_refined)
     = _first_pending_step (apply_patch_route world_refined).
Proof.
  assert (H1 : _active_step world_refined
               = Some (mk_step 1 "import logging" (Some "pending")))
    by reflexivity.
  assert (H3 : best_diff (w_state world_refined) 1 <> EmptyString)
    by (vm_compute; discriminate).
  pose proof (settled_step_hands_over world_refined
                (apply_patch_route world_refined) _ plan0
                H1 eq_refl (or_intror (conj H3 eq_refl))) as H.
  destruct H as (_ & _ & H). apply H.
  apply (bool_decide_unpack _). vm_compute. exact I.
Defined.

End RoutesFacts.

Module SessionFacts.
Import PyStr Storage Server ServerSpec StorageFiles ServerRoutes
       RoutesSpec RoutesFacts.

(** ** Clearing the plan *)

(** X17.  Clearing the plan.  The handler removes the plan file and empties
    the session: no goal, no prompts, no drafts, no refined diffs, no
    reviews, no pointer.  It leaves the project files (the saved patches
    among them), the project folder and the flag of the background job as
    they are.  After it no step is active, so approving and skipping are
    refused, no patch, refine or run-all job can be started, and clearing
    again changes nothing. *)
Theorem clear_plan_empties_session (w : world) :
  let w' := clear_plan w in
  plan_file w' = None /\ tree w' = tree w
  /\ bg_running (w_state w') = bg_running (w_state w)
  /\ project_root (w_state w') = project_root (w_state w)
  /\ diffs (w_state w') = ∅ /\ refined_diffs (w_state w') = ∅
  /\ reviews (w_state w') = ∅ /\ active_step_id (w_state w') = None
  /\ (forall sid, best_diff (w_state w') sid = EmptyString)
  /\ _active_step w' = None
  /\ apply_patch_route w' = _flash "" "No active step selected." w'
  /\ skip_step w' = _flash "" "No active step." w'
  /\ snd (handle PatchLocal w') = None
  /\ snd (handle RefinePatch w') = None
  /\ snd (handle RunAll w') = None
  /\ clear_plan w' = w'.
Proof.
  assert (Hact : _active_step (clear_plan w) = None).
  { unfold _active_step, load_plan_if_root. simpl.
    destruct (String.eqb _ _); reflexivity. }
  cbv zeta. do 8 (split; [reflexivity|]).
  split; [intros sid; unfold best_diff, get_or_empty; simpl;
          rewrite !lookup_empty; reflexivity|].
  split; [exact Hact|].
  split; [unfold apply_patch_route; rewrite Hact; reflexivity|].
  split; [unfold skip_step; rewrite Hact; reflexivity|].
  split; [simpl; unfold patch_local; rewrite Hact; reflexivity|].
  split; [simpl; unfold refine_patch_route; rewrite Hact; reflexivity|].
  split; reflexivity.
Qed.

(** ** The page *)

Lemma reload_other saved d sid other :
  other <> sid -> reload saved d sid !! other = d !! other.
Proof.
  intros H. unfold reload. destruct (d !! sid); [reflexivity|].
  destruct saved as [[|c r]|]; try reflexivity.
  apply lookup_insert_ne. congruence.
Qed.

Lemma reload_same saved d sid :
  reload saved d sid !! sid =
  match d !! sid with
  | Some x => Some x
  | None => match saved with
            | Some (String c r) => Some (String c r)
            | _ => None
            end
  end.
Proof.
  unfold reload. destruct (d !! sid) eqn:E; [exact E|].
  destruct saved as [[|c r]|]; try exact E.
  apply lookup_insert_eq.
Qed.

(** one of the two dictionaries through the loop of [_render] *)
Lemma reload_fold (load : Z -> option string) (l : list step)
      (d : gmap Z string) (sid : Z) :
  fold_left (fun d s => reload (load (id s)) d (id s)) l d !! sid =
  match d !! sid with
  | Some x => Some x
  | None =>
      if existsb (fun s => (id s =? sid)%Z) l then
        match load sid with
        | Some (String c r) => Some (String c r)
        | _ => None
        end
      else None
  end.
Proof.
  revert d. induction l as [|s rest IH]; intros d; simpl.
  - destruct (d !! sid); reflexivity.
  - rewrite IH. destruct (id s =? sid)%Z eqn:E.
    + apply Z.eqb_eq in E. rewrite E, reload_same. simpl.
      destruct (d !! sid); [reflexivity|].
      destruct (load sid) as [[|c r]|]; try reflexivity;
        destruct (existsb _ rest); reflexivity.
    + apply Z.eqb_neq in E. rewrite reload_other by congruence.
      reflexivity.
Qed.

Lemma render_fold_split t l op rd :
  fold_left (render_step t) l (op, rd)
  = (fold_left (fun d s => reload (load_ollama_prompt (id s) t) d (id s)) l op,
     fold_left (fun d s => reload (load_refined_patch (id s) t) d (id s)) l rd).
Proof.
  revert op rd. induction l as [|s rest IH]; intros op rd; simpl;
    [reflexivity|].
  unfold render_step at 2. simpl. apply IH.
Qed.

Lemma existsb_id_in (l : list step) s :
  In s l -> existsb (fun x => (id x =? id s)%Z) l = true.
Proof.
  intros H. apply existsb_exists. exists s. split; [exact H|].
  apply Z.eqb_refl.
Qed.

Lemma render_final_prompt (w : world) (c : ascii) (r : string) :
  final_prompt (w_state w) = EmptyString ->
  load_final_prompt (tree w) = Some (String c r) ->
  final_prompt (w_state (_render w)) = String c r.
Proof. intros H Hload. unfold _render. simpl. rewrite H, Hload. reflexivity. Qed.

(** X18.  What building the page brings back.  [_render] changes neither
    the plan, the project files, the drafts, the reviews nor the pointer,
    and never replaces a refined diff or a final prompt that the session
    holds.  For a step of the loaded plan without a refined diff in the
    session it takes the saved refined patch of the step from disk when
    that file is not empty, and this text is then the diff that approving
    looks at; with no final prompt in the session it takes the saved final
    prompt from disk. *)
Theorem render_restores_saved_texts (w : world) :
  let w' := _render w in
  plan_file w' = plan_file w /\ tree w' = tree w
  /\ diffs (w_state w') = diffs (w_state w)
  /\ reviews (w_state w') = reviews (w_state w)
  /\ active_step_id (w_state w') = active_step_id (w_state w)
  /\ (forall sid d, refined_diffs (w_state w) !! sid = Some d ->
                    refined_diffs (w_state w') !! sid = Some d)
  /\ (forall p s c r,
        load_plan_if_root w = Some p -> In s (steps p) ->
        refined_diffs (w_state w) !! id s = None ->
        load_refined_patch (id s) (tree w) = Some (String c r) ->
        refined_diffs (w_state w') !! id s = Some (String c r)
        /\ best_diff (w_state w') (id s) = String c r)
  /\ (final_prompt (w_state w) <> EmptyString ->
      final_prompt (w_state w') = final_prompt (w_state w))
  /\ (forall c r,
        final_prompt (w_state w) = EmptyString ->
        load_final_prompt (tree w) = Some (String c r) ->
        final_prompt (w_state w') = String c r).
Proof.
  cbv zeta. split; [reflexivity|]. split; [reflexivity|].
  split; [reflexivity|]. split; [reflexivity|]. split; [reflexivity|].
  split; [|split; [|split]].
  - intros sid d H. unfold _render. simpl.
    destruct (load_plan_if_root w) as [p|]; [|exact H].
    rewrite render_fold_split. simpl.
    rewrite (reload_fold (fun sid => load_refined_patch sid (tree w))), H.
    reflexivity.
  - intros p s c r Hp Hs Hnone Hload.
    assert (E : refined_diffs (w_state (_render w)) !! id s = Some (String c r)).
    { unfold _render. simpl. rewrite Hp, render_fold_split. simpl.
      rewrite (reload_fold (fun sid => load_refined_patch sid (tree w))).
      rewrite Hnone, (existsb_id_in _ _ Hs), Hload. reflexivity. }
    split; [exact E|]. unfold best_diff. rewrite E. reflexivity.
  - intros H. unfold _render. simpl.
    destruct (final_prompt (w_state w)); [congruence | reflexivity].
  - intros c r. apply render_final_prompt.
Qed.

Lemma saved_final_prompt :
  load_final_prompt tree_with_saved = Some "apply these diffs".
Proof.
  unfold load_final_prompt, read_file, tree_with_saved.
  rewrite lookup_insert_ne by (vm_compute; discriminate).
  rewrite lookup_insert_eq. reflexivity.
Defined.

Lemma render_restores_saved_texts_witness :
  refined_diffs (w_state (_render (clear_plan world_saved))) = ∅
  /\ final_prompt (w_state (_render (clear_plan world_saved)))
     = "apply these diffs".
Proof.
  pose proof (render_restores_saved_texts (clear_plan world_saved)) as H.
  cbv zeta in H. destruct H as (_ & _ & _ & _ & _ & _ & _ & _ & H).
  split; [reflexivity|].
  exact (H "a"%char "pply these diffs" eq_refl saved_final_prompt).
Defined.

(** X19.  The first page after a plan is loaded.  [GET /] leaves a pointer
    that is set where it is; with no pointer it selects the first pending
    step of the plan, if the project folder is chosen and there is one.
    The plan and the project files are not touched.  When the ids of the
    plan are pairwise different the step then active is that first
    pending step. *)
Theorem index_selects_first_pending (w : world) :
  let w' := index w in
  plan_file w' = plan_file w /\ tree w' = tree w
  /\ (forall sid, active_step_id (w_state w) = Some sid ->
                  active_step_id (w_state w') = Some sid)
  /\ (active_step_id (w_state w) = None ->
      active_step_id (w_state w') = option_map id (_first_pending_step w))
  /\ (active_step_id (w_state w) = None ->
      forall p, plan_file w = Some p -> NoDup (map id (steps p)) ->
      _active_step w' = _first_pending_step w).
Proof.
  cbv zeta. unfold index.
  destruct (active_step_id (w_state w)) as [sid0|] eqn:Ea.
  - split; [reflexivity|]. split; [reflexivity|].
    split; [intros sid H; simpl; rewrite Ea; exact H|].
    split; intros H; discriminate.
  - destruct (_first_pending_step w) as [s|] eqn:Ef.
    + split; [reflexivity|]. split; [reflexivity|].
      split; [intros sid H; discriminate|].
      split; [intros _; reflexivity|].
      intros _ p Hp Hnd. unfold _first_pending_step in Ef.
      unfold _active_step, load_plan_if_root in *. simpl.
      destruct (String.eqb (project_root (w_state w)) ""); [discriminate|].
      rewrite Hp in *. apply find_some in Ef as [Hin _].
      apply find_id_unique; assumption.
    + split; [reflexivity|]. split; [reflexivity|].
      split; [intros sid H; discriminate|].
      split; [intros _; simpl; exact Ea|].
      intros _ p Hp Hnd. unfold _active_step. simpl.
      unfold load_plan_if_root. simpl.
      destruct (String.eqb (project_root (w_state w)) ""); [reflexivity|].
      destruct (plan_file w); [|reflexivity]. rewrite Ea. reflexivity.
Qed.

(** X20.  An emptied final prompt comes back with the next page.  The
    approve handler and the clear-plan handler set the final prompt of the
    session to the empty text and send the browser to [GET /]; with a
    non-empty saved final prompt on disk the session holds that text
    again once the page is built. *)
Theorem emptied_final_prompt_comes_back (w : world) (c : ascii) (r : string) :
  load_final_prompt (tree w) = Some (String c r) ->
  final_prompt (w_state (index (clear_plan w))) = String c r
  /\ forall step,
       _active_step w = Some step ->
       best_diff (w_state w) (id step) <> EmptyString ->
       final_prompt (w_state (apply_patch_route w)) = EmptyString
       /\ final_prompt (w_state (index (apply_patch_route w))) = String c r.
Proof.
  intros Hload. split.
  - unfold index. simpl.
    assert (Hf : _first_pending_step (clear_plan w) = None).
    { unfold _first_pending_step, load_plan_if_root. simpl.
      destruct (String.eqb _ _); reflexivity. }
    rewrite Hf.
    exact (render_final_prompt (clear_plan w) c r eq_refl Hload).
  - intros step Hact Hd.
    assert (Hfp : final_prompt (w_state (apply_patch_route w)) = EmptyString
                  /\ tree (apply_patch_route w) = tree w).
    { unfold apply_patch_route. rewrite Hact.
      destruct (best_diff (w_state w) (id step)); [contradiction|].
      split; reflexivity. }
    destruct Hfp as [Hfp Htree]. split; [exact Hfp|].
    assert (Hr : forall w0, final_prompt (w_state w0) = EmptyString ->
                   tree w0 = tree w ->
                   final_prompt (w_state (_render w0)) = String c r).
    { intros w0 H0 Ht. apply render_final_prompt; [exact H0|].
      rewrite Ht. exact Hload. }
    unfold index.
    destruct (active_step_id (w_state (apply_patch_route w)));
      [|destruct (_first_pending_step (apply_patch_route w))];
      apply Hr; assumption.
Qed.

Lemma emptied_final_prompt_comes_back_witness :
  final_prompt (w_state (index (clear_plan world_saved))) = "apply these diffs".
Proof.
  exact (proj1 (emptied_final_prompt_comes_back world_saved
                  "a"%char "pply these diffs" saved_final_prompt)).
Defined.

End SessionFacts.

(* ===================================================================== *)
(** * From a paste or a refinement to the final prompt *)
(* ===================================================================== *)

Module PasteFacts.
Import PyStr Storage Server ServerSpec StorageFiles ServerRoutes RoutesSpec
       LocalPatcherSpec LocalPatcherFacts PatcherSpec.

(** ** Pasting a diff *)

Lemma load_saved_patch sid patch t :
  no_cr patch -> load_patch sid (save_patch sid patch t) = Some patch.
Proof.
  intros H. unfold load_patch, save_patch.
  rewrite StorageFilesFacts.read_write_same. unfold GitOps.read_text.
  rewrite normalize_newlines_id by exact H. reflexivity.
Qed.

(** X21.  Pasting a diff for review.  The handler never changes the plan,
    the pointer or the refined diffs.  It either refuses the text with an
    error and changes nothing else (no active step, nothing pasted, or a
    text that fails [_looks_like_diff] once unfenced and sanitized), or it
    stores the sanitized text as the draft of the active step and saves it
    as the patch file of the step, so that the draft in the session, the
    saved patch as loaded and the text that passed the check are one and
    the same; no other file is written.  The review is stored with it when
    the reviewer returns one; when the reviewer raises, the draft is
    stored all the same. *)
Theorem review_patch_route_stores_checked_diff (form_diff : string)
        (review_patch : string -> string -> Reviewer.result Reviewer.review)
        (w : world) :
  let w' := review_patch_route form_diff review_patch w in
  let patch :=
    LocalPatcher._sanitize_diff (Executor._strip_code_fences (strip form_diff)) in
  plan_file w' = plan_file w
  /\ active_step_id (w_state w') = active_step_id (w_state w)
  /\ refined_diffs (w_state w') = refined_diffs (w_state w)
  /\ ((exists msg, msg <> EmptyString /\ w' = _flash "" msg w)
      \/ exists step,
           _active_step w = Some step /\
           Executor._looks_like_diff patch = true /\
           diffs (w_state w') = <[id step := patch]> (diffs (w_state w)) /\
           load_patch (id step) (tree w') = Some patch /\
           (forall q, q <> patch_path (id step) -> tree w' !! q = tree w !! q) /\
           match review_patch patch (description step) with
           | Reviewer.Ok review =>
               reviews (w_state w')
                 = <[id step := Structured review]> (reviews (w_state w))
               /\ error (w_state w') = EmptyString
           | Reviewer.Raise _ => reviews (w_state w') = reviews (w_state w)
           end)
  /\ (forall step, _active_step w = Some step ->
        strip form_diff <> EmptyString ->
        Executor._looks_like_diff patch = false ->
        w' = _flash "" not_a_diff w).
Proof.
  cbv zeta. unfold review_patch_route.
  destruct (_active_step w) as [step|] eqn:Hact.
  2:{ split; [reflexivity|]. split; [reflexivity|]. split; [reflexivity|].
      split; [left; eexists; split; [|reflexivity]; discriminate|].
      intros step H; discriminate. }
  destruct (strip form_diff) as [|c raw] eqn:Hraw.
  { split; [reflexivity|]. split; [reflexivity|]. split; [reflexivity|].
    split; [left; eexists; split; [|reflexivity]; discriminate|].
    intros step0 _ H; congruence. }
  remember (LocalPatcher._sanitize_diff
              (Executor._strip_code_fences (String c raw))) as patch eqn:Hp.
  destruct (Executor._looks_like_diff patch) eqn:Hlook; simpl.
  - destruct (review_patch patch (description step)) as [review|e] eqn:Hrev;
      (split; [reflexivity|]; split; [reflexivity|]; split; [reflexivity|];
       split; [|intros step0 _ _ H; discriminate]);
      right; exists step; (split; [reflexivity|]); (split; [reflexivity|]);
      (split; [reflexivity|]);
      (split; [simpl; apply load_saved_patch; rewrite Hp;
               apply PatcherFacts.sanitize_end|]);
      (split; [intros q Hq; simpl; unfold save_patch, write_text;
               apply lookup_insert_ne; congruence|]).
    + rewrite Hrev. split; reflexivity.
    + rewrite Hrev. reflexivity.
  - split; [reflexivity|]. split; [reflexivity|]. split; [reflexivity|].
    split; [left; eexists; split; [|reflexivity]; discriminate|].
    intros step0 _ _ _. reflexivity.
Qed.

Lemma review_patch_route_stores_checked_diff_witness :
  diffs (w_state (review_patch_route pasted_diff approving_reviewer world0))
    !! 1%Z = Some pasted_diff
  /\ review_patch_route fenced_new_file approving_reviewer world0
     = _flash "" not_a_diff world0.
Proof.
  pose proof (review_patch_route_stores_checked_diff pasted_diff
                approving_reviewer world0) as H.
  pose proof (review_patch_route_stores_checked_diff fenced_new_file
                approving_reviewer world0) as G.
  cbv zeta in H, G.
  destruct H as (_ & _ & _ & [(msg & _ & H) | (step & Hs & _ & Hd & _)] & _).
  - apply (f_equal (fun x => diffs (w_state x) !! 1%Z)) in H.
    vm_compute in H. discriminate.
  - destruct G as (_ & _ & _ & _ & G). split.
    + rewrite Hd. injection Hs as <-.
      change (LocalPatcher._sanitize_diff
                (Executor._strip_code_fences (strip pasted_diff)))
        with pasted_diff. apply lookup_insert_eq.
    + apply (G (mk_step 1 "import logging" (Some "pending")));
        [reflexivity | vm_compute; discriminate | vm_compute; reflexivity].
Defined.

End PasteFacts.

Module RefineJobFacts.
Import PyStr Storage Server ServerSpec StorageFiles ServerRoutes RoutesSpec
       LocalPatcherSpec LocalPatcherFacts PatcherSpec.

(** the refine job that the route starts *)
Lemma refine_route_job w0 w1 sid diff step rv :
  refine_patch_route w0 = (w1, Some (JobRefine sid diff step rv)) ->
  diff <> EmptyString /\ sid = id step /\ _active_step w0 = Some step
  /\ diffs (w_state w0) !! sid = Some diff
  /\ rv = reviews (w_state w0) !! sid.
Proof.
  unfold refine_patch_route.
  destruct (_active_step w0) as [s|]; [|discriminate].
  destruct (bg_running (w_state w0)); [discriminate|].
  unfold get_or_empty.
  destruct (diffs (w_state w0) !! id s) as [[|c d]|] eqn:E; try discriminate.
  unfold start_job. intros H. injection H as _ <- <- <- <-.
  split; [discriminate|]. repeat split. exact E.
Qed.

Lemma refined_nonempty diff raw :
  diff <> EmptyString -> fst (Refiner.refine_patch diff raw) <> EmptyString.
Proof.
  intros Hd. unfold Refiner.refine_patch.
  destruct (startswith raw "(Ollama"); [exact Hd|].
  destruct (LocalPatcher._extract_diff (strip raw)) as [e|]; [|exact Hd].
  simpl. intros H. destruct (PatcherFacts.sanitize_end e) as [He _].
  rewrite H in He. discriminate.
Qed.

Lemma refined_no_cr diff raw :
  no_cr diff -> no_cr (fst (Refiner.refine_patch diff raw)).
Proof.
  intros Hd. unfold Refiner.refine_patch.
  destruct (startswith raw "(Ollama"); [exact Hd|].
  destruct (LocalPatcher._extract_diff (strip raw)) as [e|]; [|exact Hd].
  simpl. apply PatcherFacts.sanitize_end.
Qed.

(** X22.  The refine job.  The route starts it only with the non-empty
    draft of the active step.  When the refiner has answered, the job
    stores what [refine_patch] returns as the refined diff of the step,
    whatever the answer was, and saves it as the refined patch file; this
    text is not empty, so from then on it is the diff that approving looks
    at, and approving the step, when it is the active one, is not refused.
    The job leaves the drafts, the reviews, the plan and the pointer as
    they are, writes no other file, and clears the flag of the background
    job. *)
Theorem refine_job_leaves_a_diff (w0 w1 w : world) (sid : Z)
        (diff raw : string) (step : step) (rv : option review_value) :
  refine_patch_route w0 = (w1, Some (JobRefine sid diff step rv)) ->
  let w' := refine_job sid diff raw w in
  let refined := fst (Refiner.refine_patch diff raw) in
  refined <> EmptyString
  /\ refined_diffs (w_state w') = <[sid := refined]> (refined_diffs (w_state w))
  /\ best_diff (w_state w') sid = refined
  /\ load_refined_patch sid (tree w')
     = Some (LocalPatcher.normalize_newlines refined)
  /\ (no_cr diff -> load_refined_patch sid (tree w') = Some refined)
  /\ (forall q, q <> refined_patch_path sid -> tree w' !! q = tree w !! q)
  /\ diffs (w_state w') = diffs (w_state w)
  /\ reviews (w_state w') = reviews (w_state w)
  /\ plan_file w' = plan_file w
  /\ active_step_id (w_state w') = active_step_id (w_state w)
  /\ bg_running (w_state w') = false
  /\ error (w_state w') = EmptyString
  /\ (forall step', _active_step w' = Some step' -> id step' = sid ->
        status_of sid (apply_patch_route w') = Some "approved").
Proof.
  intros Hroute. destruct (refine_route_job _ _ _ _ _ _ Hroute) as (Hd & _).
  cbv zeta. pose proof (refined_nonempty diff raw Hd) as Hne.
  pose proof (refined_no_cr diff raw) as Hcr.
  unfold refine_job.
  destruct (Refiner.refine_patch diff raw) as [refined err] eqn:Er.
  simpl in Hne, Hcr.
  assert (Hbest : forall rd : gmap Z string,
            match (<[sid := refined]> rd) !! sid with
            | Some (String c r) => String c r
            | _ => get_or_empty (diffs (w_state w)) sid
            end = refined).
  { intros rd. rewrite lookup_insert_eq.
    destruct refined; [congruence | reflexivity]. }
  split; [exact Hne|].
  destruct err as [|c err]; simpl.
  - split; [reflexivity|]. split; [apply Hbest|].
    split; [apply StorageFilesFacts.read_write_same|].
    split.
    { intros H. unfold load_refined_patch, save_refined_patch.
      rewrite StorageFilesFacts.read_write_same. unfold GitOps.read_text.
      rewrite normalize_newlines_id by (apply Hcr, H). reflexivity. }
    split; [intros q Hq; unfold save_refined_patch, write_text;
            apply lookup_insert_ne; congruence|].
    do 6 (split; [reflexivity|]).
    intros step' Hact Hid. subst sid.
    destruct (ServerFacts.active_step_id_eq _ _ Hact) as (p & Hp & Hfind).
    unfold apply_patch_route. rewrite Hact.
    unfold best_diff at 1. simpl. rewrite lookup_insert_eq.
    destruct refined as [|c r]; [congruence|].
    unfold status_of. simpl in *. rewrite Hp. simpl.
    rewrite (StorageFacts.set_first_status_find _ _ _ _ Hfind). reflexivity.
  - split; [reflexivity|]. split; [apply Hbest|].
    split; [apply StorageFilesFacts.read_write_same|].
    split.
    { intros H. unfold load_refined_patch, save_refined_patch.
      rewrite StorageFilesFacts.read_write_same. unfold GitOps.read_text.
      rewrite normalize_newlines_id by (apply Hcr, H). reflexivity. }
    split; [intros q Hq; unfold save_refined_patch, write_text;
            apply lookup_insert_ne; congruence|].
    do 6 (split; [reflexivity|]).
    intros step' Hact Hid. subst sid.
    destruct (ServerFacts.active_step_id_eq _ _ Hact) as (p & Hp & Hfind).
    unfold apply_patch_route. rewrite Hact.
    unfold best_diff at 1. simpl. rewrite lookup_insert_eq.
    destruct refined as [|c' r]; [congruence|].
    unfold status_of. simpl in *. rewrite Hp. simpl.
    rewrite (StorageFacts.set_first_status_find _ _ _ _ Hfind). reflexivity.
Qed.

Lemma refine_job_leaves_a_diff_witness :
  best_diff (w_state (refine_job 1 "draft" refiner_answer
                        (fst (refine_patch_route world_idle)))) 1
  = "--- a/app.py" +:+ nl +:+ "+++ b/app.py" +:+ nl
    +:+ "@@ -1,1 +1,1 @@" +:+ nl +:+ "-x" +:+ nl +:+ "+y" +:+ nl
  /\ bg_running (w_state (refine_job 1 "draft" refiner_answer
                            (fst (refine_patch_route world_idle)))) = false.
Proof.
  pose proof (refine_job_leaves_a_diff world_idle
                (fst (refine_patch_route world_idle))
                (fst (refine_patch_route world_idle)) 1 "draft" refiner_answer
                (mk_step 1 "import logging" (Some "pending")) None) as H.
  assert (Hr : refine_patch_route world_idle
               = (fst (refine_patch_route world_idle),
                  Some (JobRefine 1 "draft"
                          (mk_step 1 "import logging" (Some "pending")) None))).
  { rewrite (surjective_pairing (refine_patch_route world_idle)) at 1.
    f_equal. }
  specialize (H Hr). cbv zeta in H.
  destruct H as (_ & _ & Hb & _ & _ & _ & _ & _ & _ & _ & Hbg & _).
  split; [rewrite Hb; vm_compute; reflexivity | exact Hbg].
Defined.

End RefineJobFacts.

Module AssembleFacts.
Import PyStr Storage Server ServerSpec StorageFiles ServerRoutes ServerAssemble
       RoutesSpec LocalPatcherSpec LocalPatcherFacts PatcherSpec.

(** ** The diffs of the final prompt *)

Lemma approved_fold w l (acc : gmap Z string) sid :
  fold_left
    (fun (acc : gmap Z string) step =>
       if is_approved step then
         match pick_diff w (id step) with
         | EmptyString => acc
         | diff => <[id step := diff]> acc
         end
       else acc) l acc !! sid
  = if existsb (fun s => (id s =? sid)%Z && is_approved s) l then
      match pick_diff w sid with
      | EmptyString => acc !! sid
      | d => Some d
      end
    else acc !! sid.
Proof.
  revert acc. induction l as [|s rest IH]; intros acc; simpl; [reflexivity|].
  rewrite IH. destruct (id s =? sid)%Z eqn:E.
  - apply Z.eqb_eq in E. subst sid. destruct (is_approved s); simpl.
    + destruct (pick_diff w (id s)) as [|c r] eqn:Ep.
      * destruct (existsb _ rest); reflexivity.
      * rewrite lookup_insert_eq. destruct (existsb _ rest); reflexivity.
    + reflexivity.
  - apply Z.eqb_neq in E. simpl.
    destruct (is_approved s); [|reflexivity].
    destruct (pick_diff w (id s)); [reflexivity|].
    rewrite lookup_insert_ne by exact E. reflexivity.
Qed.

Lemma approved_diffs_lookup w p sid :
  approved_diffs w p !! sid
  = if existsb (fun s => (id s =? sid)%Z && is_approved s) (steps p) then
      match pick_diff w sid with
      | EmptyString => None
      | d => Some d
      end
    else None.
Proof.
  unfold approved_diffs. rewrite approved_fold, lookup_empty.
  destruct (existsb _ (steps p)); [|reflexivity].
  destruct (pick_diff w sid); reflexivity.
Qed.

(** X23.  The diffs that make the final prompt.  [approved_diffs] has an
    entry for a step id exactly when some step with that id is approved
    and a diff is found for the id, and the entry is that diff: the
    refined diff of the session, else the draft of the session, else the
    saved refined patch, else the saved patch, the first of them that is
    not empty. *)
Theorem approved_diffs_selection (w : world) (p : plan) (sid : Z) :
  (approved_diffs w p !! sid <> None <->
   (exists s, In s (steps p) /\ id s = sid /\ status s = Some "approved")
   /\ pick_diff w sid <> EmptyString)
  /\ (forall d, approved_diffs w p !! sid = Some d -> d = pick_diff w sid)
  /\ (best_diff (w_state w) sid <> EmptyString ->
      pick_diff w sid = best_diff (w_state w) sid)
  /\ (best_diff (w_state w) sid = EmptyString ->
      pick_diff w sid =
      match load_refined_patch sid (tree w) with
      | Some (String c r) => String c r
      | _ => match load_patch sid (tree w) with
             | Some d => d
             | None => EmptyString
             end
      end).
Proof.
  rewrite approved_diffs_lookup.
  assert (Hex : existsb (fun s => (id s =? sid)%Z && is_approved s) (steps p)
                = true
                <-> exists s, In s (steps p) /\ id s = sid
                              /\ status s = Some "approved").
  { rewrite existsb_exists. split.
    - intros (s & Hin & H). apply andb_true_iff in H as [H1 H2].
      exists s. split; [exact Hin|]. split; [apply Z.eqb_eq, H1|].
      unfold is_approved in H2. destruct (status s) as [st|]; [|discriminate].
      apply String.eqb_eq in H2. subst st. reflexivity.
    - intros (s & Hin & Hid & Hst). exists s. split; [exact Hin|].
      apply andb_true_iff. split; [apply Z.eqb_eq, Hid|].
      unfold is_approved. rewrite Hst. reflexivity. }
  split; [|split; [|split]].
  - destruct (existsb _ (steps p)) eqn:E.
    + destruct (pick_diff w sid) as [|c r]; split.
      * intros H. congruence.
      * intros [_ H]. congruence.
      * intros _. split; [apply Hex; reflexivity | discriminate].
      * intros _. discriminate.
    + split; [congruence|]. intros [H _]. apply Hex in H. discriminate.
  - intros d. destruct (existsb _ (steps p)); [|discriminate].
    destruct (pick_diff w sid); [discriminate|]. congruence.
  - intros H. unfold pick_diff.
    destruct (best_diff (w_state w) sid); [congruence | reflexivity].
  - intros H. unfold pick_diff. rewrite H. reflexivity.
Qed.

(** ** From the paste to the final prompt *)

Lemma status_of_approved_exists w sid :
  status_of sid w = Some "approved" ->
  exists p, plan_file w = Some p /\
    existsb (fun s => (id s =? sid)%Z && is_approved s) (steps p) = true.
Proof.
  unfold status_of. destruct (plan_file w) as [p|]; [|discriminate].
  destruct (find (fun s => (id s =? sid)%Z) (steps p)) as [s|] eqn:E;
    [|discriminate].
  intros Hst. exists p. split; [reflexivity|].
  apply find_some in E as [Hin Hid]. apply existsb_exists. exists s.
  split; [exact Hin|]. rewrite Hid. unfold is_approved. rewrite Hst.
  reflexivity.
Qed.

(** X24.  From the paste to the final prompt.  When a pasted diff is
    accepted for the active step and the step is then approved: a
    non-empty refined diff that the session already holds for the step is
    the diff that approving looks at, not the new draft; approving marks
    the step approved and drops the draft from the session; and the diff
    that the final prompt takes for the step is that refined diff, else a
    non-empty refined patch saved on disk, else the pasted diff as it was
    sanitized and saved. *)
Theorem pasted_diff_reaches_final_prompt (form_diff : string)
        (review_patch : string -> string -> Reviewer.result Reviewer.review)
        (w : world) (step : step) :
  _active_step w = Some step ->
  strip form_diff <> EmptyString ->
  let patch :=
    LocalPatcher._sanitize_diff (Executor._strip_code_fences (strip form_diff)) in
  Executor._looks_like_diff patch = true ->
  let w1 := review_patch_route form_diff review_patch w in
  let w2 := apply_patch_route w1 in
  let chosen :=
    match refined_diffs (w_state w) !! id step with
    | Some (String c r) => String c r
    | _ =>
        match load_refined_patch (id step) (tree w) with
        | Some (String c r) => String c r
        | _ => patch
        end
    end in
  diffs (w_state w1) !! id step = Some patch
  /\ best_diff (w_state w1) (id step)
     = match refined_diffs (w_state w) !! id step with
       | Some (String c r) => String c r
       | _ => patch
       end
  /\ status_of (id step) w2 = Some "approved"
  /\ diffs (w_state w2) !! id step = None
  /\ pick_diff w2 (id step) = chosen
  /\ exists p2, plan_file w2 = Some p2
                /\ approved_diffs w2 p2 !! id step = Some chosen.
Proof.
  intros Hact Hraw patch Hlook w1 w2 chosen.
  destruct (PatcherFacts.sanitize_end
              (Executor._strip_code_fences (strip form_diff))) as [Hend Hcr].
  fold patch in Hend, Hcr.
  assert (Hpne : exists c r, patch = String c r).
  { destruct patch as [|c r]; [discriminate|]. exists c, r. reflexivity. }
  destruct Hpne as (pc & pr & Hpatch).
  destruct (ServerFacts.active_step_id_eq w step Hact) as (p & Hp & Hfind).
  (* the world after the paste *)
  assert (H1 : diffs (w_state w1) = <[id step := patch]> (diffs (w_state w))
               /\ refined_diffs (w_state w1) = refined_diffs (w_state w)
               /\ tree w1 = save_patch (id step) patch (tree w)
               /\ plan_file w1 = plan_file w
               /\ _active_step w1 = Some step).
  { unfold w1, review_patch_route. rewrite Hact.
    destruct (strip form_diff) as [|c raw] eqn:Er; [congruence|].
    fold patch. rewrite Hlook. simpl.
    destruct (review_patch patch (description step)); simpl;
      (split; [reflexivity|]; split; [reflexivity|]; split; [reflexivity|];
       split; [reflexivity|]);
      unfold _active_step, load_plan_if_root in *; simpl; exact Hact. }
  destruct H1 as (Hd1 & Hr1 & Ht1 & Hp1 & Hact1).
  assert (Hbest1 : best_diff (w_state w1) (id step)
                   = match refined_diffs (w_state w) !! id step with
                     | Some (String c r) => String c r
                     | _ => patch
                     end).
  { unfold best_diff, get_or_empty. rewrite Hr1, Hd1, lookup_insert_eq.
    reflexivity. }
  assert (Hne1 : best_diff (w_state w1) (id step) <> EmptyString).
  { rewrite Hbest1, Hpatch.
    destruct (refined_diffs (w_state w) !! id step) as [[|c r]|]; discriminate. }
  (* the world after approving *)
  assert (H2 : diffs (w_state w2) = delete (id step) (diffs (w_state w1))
               /\ refined_diffs (w_state w2) = refined_diffs (w_state w1)
               /\ tree w2 = tree w1
               /\ status_of (id step) w2 = Some "approved").
  { unfold w2, apply_patch_route. rewrite Hact1.
    destruct (best_diff (w_state w1) (id step)); [congruence|]. simpl.
    split; [reflexivity|]. split; [reflexivity|]. split; [reflexivity|].
    unfold status_of. simpl. rewrite Hp1, Hp. simpl.
    rewrite (StorageFacts.set_first_status_find _ _ _ _ Hfind). reflexivity. }
  destruct H2 as (Hd2 & Hr2 & Ht2 & Hst2).
  assert (Hpick : pick_diff w2 (id step) = chosen).
  { unfold pick_diff, best_diff, get_or_empty, chosen.
    rewrite Hr2, Hr1, Hd2, lookup_delete_eq, Ht2, Ht1.
    destruct (refined_diffs (w_state w) !! id step) as [[|c r]|];
      try reflexivity;
      (destruct (StorageFilesFacts.saved_files_apart (id step) patch (tree w))
         as [Hlr Hlp]; rewrite Hlr;
       destruct (load_refined_patch (id step) (tree w)) as [[|c' r']|];
       try reflexivity;
       rewrite PasteFacts.load_saved_patch by exact Hcr; reflexivity). }
  split; [rewrite Hd1; apply lookup_insert_eq|].
  split; [exact Hbest1|]. split; [exact Hst2|].
  split; [rewrite Hd2; apply lookup_delete_eq|].
  split; [exact Hpick|].
  destruct (status_of_approved_exists w2 (id step) Hst2) as (p2 & Hp2 & Hex).
  exists p2. split; [exact Hp2|].
  rewrite approved_diffs_lookup, Hex, Hpick.
  unfold chosen. rewrite Hpatch.
  destruct (refined_diffs (w_state w) !! id step) as [[|c r]|];
    try reflexivity;
    destruct (load_refined_patch (id step) (tree w)) as [[|c' r']|];
    reflexivity.
Qed.

Lemma pasted_diff_reaches_final_prompt_witness :
  pick_diff (apply_patch_route
               (review_patch_route pasted_diff approving_reviewer world0)) 1
  = pasted_diff
  /\ pick_diff (apply_patch_route
                  (review_patch_route pasted_diff approving_reviewer
                     world_refined)) 1
     = "refined".
Proof.
  pose proof (pasted_diff_reaches_final_prompt pasted_diff approving_reviewer
                world0 (mk_step 1 "import logging" (Some "pending"))
                eq_refl ltac:(vm_compute; discriminate)) as H.
  pose proof (pasted_diff_reaches_final_prompt pasted_diff approving_reviewer
                world_refined (mk_step 1 "import logging" (Some "pending"))
                eq_refl ltac:(vm_compute; discriminate)) as G.
  cbv zeta in H, G.
  specialize (H ltac:(vm_compute; reflexivity)).
  specialize (G ltac:(vm_compute; reflexivity)).
  destruct H as (_ & _ & _ & _ & H & _). destruct G as (_ & _ & _ & _ & G & _).
  change (id (mk_step 1 "import logging" (Some "pending"))) with 1%Z in H, G.
  assert (Hn : load_refined_patch 1 (tree world0) = None).
  { unfold load_refined_patch, read_file, world0, tree.
    rewrite lookup_singleton_ne by (vm_compute; discriminate).
    reflexivity. }
  change (refined_diffs (w_state world0) !! 1%Z) with (@None string) in H.
  rewrite Hn in H.
  change (refined_diffs (w_state world_refined) !! 1%Z)
    with (Some "refined") in G.
  split; [rewrite H; vm_compute; reflexivity | exact G].
Defined.

(** ** The status line *)

Lemma count_cons st s l :
  count_status st (s :: l)
  = ((if has_status st s then 1 else 0) + count_status st l)%Z.
Proof.
  unfold count_status. simpl. destruct (has_status st s); simpl; lia.
Qed.

Lemma pending_count l :
  (Z.of_nat (length l) - count_status "approved" l - count_status "skipped" l
   - count_status "failed" l)%Z
  = Z.of_nat (length (List.filter other_status l))
  /\ length (List.filter is_pending l) <= length (List.filter other_status l).
Proof.
  induction l as [|s rest [IH1 IH2]]; [split; reflexivity|].
  rewrite !count_cons. unfold other_status, has_status, is_pending,
    status_or_pending in *. simpl length at 1. simpl List.filter.
  destruct (status s) as [st|].
  - destruct (String.eqb st "approved") eqn:E1;
      [apply String.eqb_eq in E1; subst st; simpl in *; split; lia|].
    destruct (String.eqb st "skipped") eqn:E2;
      [apply String.eqb_eq in E2; subst st; simpl in *; split; lia|].
    destruct (String.eqb st "failed") eqn:E3;
      [apply String.eqb_eq in E3; subst st; simpl in *; split; lia|].
    simpl. destruct (String.eqb st "pending"); simpl; split; lia.
  - simpl. split; lia.
Qed.

(** X25.  The counts of the status line.  The five counts are those of
    the loaded plan (all zero without a plan or a project folder), and the
    total is the sum of the other four.  The pending count is what is left
    of the total: it counts every step whose status is none of approved,
    skipped and failed, so it is at least the number of steps that run-all
    would take, which are the steps without a status or with the status
    pending. *)
Theorem status_line_counts (w : world) :
  let c := plan_counts w in
  total c = (approved c + skipped c + failed c + pending c)%Z
  /\ match load_plan_if_root w with
     | Some p =>
         total c = Z.of_nat (length (steps p))
         /\ pending c = Z.of_nat (length (List.filter other_status (steps p)))
         /\ (Z.of_nat (length (List.filter is_pending (steps p)))
             <= pending c)%Z
     | None => total c = 0%Z /\ pending c = 0%Z
     end.
Proof.
  cbv zeta. unfold plan_counts.
  destruct (load_plan_if_root w) as [p|]; simpl.
  - destruct (pending_count (steps p)) as [H1 H2].
    split; [lia|]. split; [reflexivity|]. split; [exact H1|].
    rewrite H1. lia.
  - repeat split.
Qed.

End AssembleFacts.
